(** * Qwen3 call patch proxy: streaming tool-call reconstruction and repair

    A shallow embedding of [qwen3_call_patch_proxy/__init__.py] and the
    properties of it that the specification states.

    Conventions of the embedding.
    - A Python [str] is a [string]; each character stands for the code
      point of the same number (U+0000 to U+00FF).
    - A Python [dict] whose order is visible (the arguments of a tool call,
      which are serialised again) is an association list with unique keys,
      updated the way a [dict] is; [tool_buffers] and [request_states], which
      are only looked up by key, are [gmap]s.
    - A raised exception is a value of an error type; state changes made
      before the exception persist, as they do in Python.
    - Logging is not modelled, apart from the two log lines of the duplicate
      detector, which the specification talks about. *)

From Stdlib Require Import Ascii String ZArith NArith Bool Lia Sorted.
From stdpp Require Import base option list strings gmap pretty.

Local Open Scope char_scope.
Local Open Scope Z_scope.
Local Open Scope stdpp_scope.

#[local] Set Warnings "-register-all".

(** ** Python string primitives *)

Module Py.

(** [str.isspace] on one character, for code points below 256:
    U+0009..U+000D, U+001C..U+0020, U+0085 and U+00A0. [str.strip] without
    argument and the regular expression class [\s] use the same set. *)
Definition isspace (c : ascii) : bool :=
  let n := N_of_ascii c in
  ((9 <=? n) && (n <=? 13) || (28 <=? n) && (n <=? 32)
   || (n =? 133) || (n =? 160))%N.

Fixpoint lstrip (s : string) : string :=
  match s with
  | String c s' => if isspace c then lstrip s' else s
  | EmptyString => EmptyString
  end.

Fixpoint rstrip (s : string) : string :=
  match s with
  | String c s' =>
      match rstrip s' with
      | EmptyString => if isspace c then EmptyString else String c EmptyString
      | r => String c r
      end
  | EmptyString => EmptyString
  end.

Definition strip (s : string) : string := lstrip (rstrip s).

(** [s.startswith(p)] *)
Fixpoint startswith (s p : string) {struct p} : bool :=
  match p, s with
  | EmptyString, _ => true
  | String a p', String b s' => Ascii.eqb a b && startswith s' p'
  | String _ _, EmptyString => false
  end.

(** [p in s] for strings *)
Fixpoint contains (s p : string) : bool :=
  startswith s p ||
  match s with
  | String _ s' => contains s' p
  | EmptyString => false
  end.

(** [s.count(c)] for a one-character [c] *)
Fixpoint count (c : ascii) (s : string) : nat :=
  match s with
  | String a s' => (if Ascii.eqb a c then 1 else 0)%nat + count c s'
  | EmptyString => 0%nat
  end.

(** [c * n] for a one-character string; a negative [n] gives [""] *)
Definition repeat (c : ascii) (n : Z) : string :=
  string_of_list_ascii (List.repeat c (Z.to_nat n)).

(** [s.rstrip(c)] with an explicit one-character set *)
Fixpoint rstrip_char (c : ascii) (s : string) : string :=
  match s with
  | String a s' =>
      match rstrip_char c s' with
      | EmptyString => if Ascii.eqb a c then EmptyString else String a EmptyString
      | r => String a r
      end
  | EmptyString => EmptyString
  end.

(** [s.lower()], on the ASCII letters and the Latin-1 capitals *)
Definition lower_char (c : ascii) : ascii :=
  let n := N_of_ascii c in
  if ((65 <=? n) && (n <=? 90)
      || (192 <=? n) && (n <=? 222) && negb (n =? 215))%N
  then ascii_of_N (n + 32) else c.

Fixpoint lower (s : string) : string :=
  match s with
  | String c s' => String (lower_char c) (lower s')
  | EmptyString => EmptyString
  end.

(** [s.replace(a, b)] for one-character [a] and [b] *)
Fixpoint replace_char (a b : ascii) (s : string) : string :=
  match s with
  | String c s' => String (if Ascii.eqb c a then b else c) (replace_char a b s')
  | EmptyString => EmptyString
  end.

(** [len(s.encode('utf-8'))]: code points from U+0080 take two bytes *)
Fixpoint utf8_len (s : string) : nat :=
  match s with
  | String c s' => ((if (N_of_ascii c <? 128)%N then 1 else 2) + utf8_len s')%nat
  | EmptyString => 0%nat
  end.

(** Truthiness of a string: [bool(s)] *)
Definition truthy (s : string) : bool :=
  match s with EmptyString => false | _ => true end.

(** The text [s] with a double quote for each ['] written in it; the
    examples below are written this way. *)
Definition dq (s : string) : string := replace_char "'" "034" s.

End Py.

(** ** Completeness analyzer: [is_json_complete] *)

Definition is_opener (c : ascii) : bool := Ascii.eqb c "{" || Ascii.eqb c "[".
Definition is_closer (c : ascii) : bool := Ascii.eqb c "}" || Ascii.eqb c "]".

(** The [for char in json_str] loop, with the three loop variables as
    arguments; a [return False] inside the loop is the result [false].
    The top of [stack] is the head of the list. *)
Fixpoint is_json_complete_loop (json_str : string) (stack : list ascii)
    (in_string escape_next : bool) : bool :=
  match json_str with
  | EmptyString => (length stack =? 0)%nat && negb in_string
  | String char rest =>
      if escape_next then
        is_json_complete_loop rest stack in_string false
      else if Ascii.eqb char "\" then
        is_json_complete_loop rest stack in_string true
      else if Ascii.eqb char "034" && negb escape_next then
        is_json_complete_loop rest stack (negb in_string) escape_next
      else if in_string then
        is_json_complete_loop rest stack in_string escape_next
      else if is_opener char then
        is_json_complete_loop rest (char :: stack) in_string escape_next
      else if is_closer char then
        match stack with
        | [] => false
        | last :: stack' =>
            if Ascii.eqb char "}" && negb (Ascii.eqb last "{")
               || Ascii.eqb char "]" && negb (Ascii.eqb last "[")
            then false
            else is_json_complete_loop rest stack' in_string escape_next
        end
      else is_json_complete_loop rest stack in_string escape_next
  end.

Definition is_json_complete (json_str : string) : bool :=
  if negb (Py.truthy json_str) || negb (Py.truthy (Py.strip json_str)) then false
  else
    let json_str := Py.strip json_str in
    if negb (Py.startswith json_str "{" || Py.startswith json_str "[") then false
    else is_json_complete_loop json_str [] false false.

(** ** JSON values and Python dictionaries *)

(** What [json.loads] returns. A [dict] keeps its keys in insertion order,
    each key once. A float is kept as the lexeme it was read from: the
    formatting of floating-point numbers is outside the embedding. *)
Inductive json : Type :=
| JNull
| JBool (b : bool)
| JInt (z : Z)
| JFloat (lexeme : string)
| JStr (s : string)
| JList (l : list json)
| JDict (d : list (string * json)).

Definition dict := list (string * json).

Module Dict.

(** [d.get(k)] *)
Fixpoint get (d : dict) (k : string) : option json :=
  match d with
  | (k', v) :: d' => if String.eqb k' k then Some v else get d' k
  | [] => None
  end.

(** [k in d] *)
Definition mem (d : dict) (k : string) : bool :=
  match get d k with Some _ => true | None => false end.

(** [d[k] = v]: an existing key keeps its place, a new key goes last *)
Fixpoint set (d : dict) (k : string) (v : json) : dict :=
  match d with
  | (k', v') :: d' =>
      if String.eqb k' k then (k', v) :: d' else (k', v') :: set d' k v
  | [] => [(k, v)]
  end.

(** [del d[k]], for a key that is present *)
Fixpoint del (d : dict) (k : string) : dict :=
  match d with
  | (k', v') :: d' => if String.eqb k' k then d' else (k', v') :: del d' k
  | [] => []
  end.

(** [dict(pairs)] *)
Definition of_pairs (pairs : list (string * json)) : dict :=
  fold_left (fun d kv => set d (fst kv) (snd kv)) pairs [].

End Dict.

(** ** The [json] module of the Python standard library

    [loads] follows the scanner of [json.decoder] (strict mode) and [dumps]
    the encoder with [ensure_ascii=False] and the default separators. An
    escape [\uXXXX] above U+00FF names a character outside the alphabet of
    the embedding, and [loads] is undefined ([None]) on such a text. The
    limits of the interpreter are outside the embedding as well: the
    [ValueError] of an integer literal of more than 4300 digits and the
    [RecursionError] of a very deep nesting, which are not a
    [JSONDecodeError]. *)
Module Json.

Definition is_ws (c : ascii) : bool :=
  Ascii.eqb c " " || Ascii.eqb c "009" || Ascii.eqb c "010" || Ascii.eqb c "013".

Fixpoint skip_ws (s : string) : string :=
  match s with
  | String c s' => if is_ws c then skip_ws s' else s
  | EmptyString => EmptyString
  end.

Definition is_digit (c : ascii) : bool :=
  let n := N_of_ascii c in ((48 <=? n) && (n <=? 57))%N.

Definition hex_val (c : ascii) : option N :=
  let n := N_of_ascii c in
  if ((48 <=? n) && (n <=? 57))%N then Some (n - 48)%N
  else if ((97 <=? n) && (n <=? 102))%N then Some (n - 87)%N
  else if ((65 <=? n) && (n <=? 70))%N then Some (n - 55)%N
  else None.

(** The table [BACKSLASH] of [json.decoder] *)
Definition backslash (c : ascii) : option ascii :=
  match c with
  | "034" => Some "034"
  | "\" => Some "\"
  | "/" => Some "/"
  | "b" => Some "008"
  | "f" => Some "012"
  | "n" => Some "010"
  | "r" => Some "013"
  | "t" => Some "009"
  | _ => None
  end%char.

(** [scanstring], from just after the opening quote: the decoded string and
    the text after the closing quote. *)
Fixpoint scanstring (s : string) : option (string * string) :=
  match s with
  | EmptyString => None
  | String "034" r => Some (EmptyString, r)
  | String "\" (String "u" (String h1 (String h2 (String h3 (String h4 r))))) =>
      a ← hex_val h1; b ← hex_val h2; c ← hex_val h3; d ← hex_val h4;
      let uni := (((a * 16 + b) * 16 + c) * 16 + d)%N in
      if (uni <? 256)%N then
        '(str, r') ← scanstring r; Some (String (ascii_of_N uni) str, r')
      else None
  | String "\" (String esc r) =>
      ch ← backslash esc;
      '(str, r') ← scanstring r; Some (String ch str, r')
  | String "\" EmptyString => None
  | String c r =>
      if (N_of_ascii c <? 32)%N then None
      else '(str, r') ← scanstring r; Some (String c str, r')
  end.

Fixpoint take_digits (s : string) : string * string :=
  match s with
  | String c s' =>
      if is_digit c then let '(ds, r) := take_digits s' in (String c ds, r)
      else (EmptyString, s)
  | EmptyString => (EmptyString, EmptyString)
  end.

Fixpoint int_of_digits (acc : Z) (ds : string) : Z :=
  match ds with
  | String c ds' => int_of_digits (acc * 10 + Z.of_N (N_of_ascii c - 48)) ds'
  | EmptyString => acc
  end.

(** The integer part of [NUMBER_RE]: an optional minus sign, then a single
    zero or a non-zero digit followed by digits. *)
Definition match_integer (s : string) : option (string * string) :=
  let '(sign, s1) :=
    match s with String "-" r => ("-", r) | _ => (EmptyString, s) end in
  match s1 with
  | String "0" r => Some (sign +:+ "0", r)
  | String c _ =>
      if is_digit c then
        let '(ds, r) := take_digits s1 in Some (sign +:+ ds, r)
      else None
  | EmptyString => None
  end.

(** The optional fraction: a dot and at least one digit *)
Definition match_frac (s : string) : option string * string :=
  match s with
  | String "." r =>
      match take_digits r with
      | (EmptyString, _) => (None, s)
      | (ds, r') => (Some (String "." ds), r')
      end
  | _ => (None, s)
  end.

(** The optional exponent: e or E, an optional sign, at least one digit *)
Definition match_exp (s : string) : option string * string :=
  match s with
  | String e r =>
      if Ascii.eqb e "e" || Ascii.eqb e "E" then
        let '(sign, r1) :=
          match r with
          | String "-" r1 => ("-", r1)
          | String "+" r1 => ("+", r1)
          | _ => (EmptyString, r)
          end in
        match take_digits r1 with
        | (EmptyString, _) => (None, s)
        | (ds, r') => (Some (String e (sign +:+ ds)), r')
        end
      else (None, s)
  | EmptyString => (None, s)
  end.

Definition parse_int (lexeme : string) : Z :=
  match lexeme with
  | String "-" ds => - int_of_digits 0 ds
  | ds => int_of_digits 0 ds
  end.

Definition match_number (s : string) : option (json * string) :=
  '(integer, r) ← match_integer s;
  let '(frac, r1) := match_frac r in
  let '(exp, r2) := match_exp r1 in
  match frac, exp with
  | None, None => Some (JInt (parse_int integer), r2)
  | _, _ =>
      Some (JFloat (integer +:+ default EmptyString frac
                            +:+ default EmptyString exp), r2)
  end.

(** [s[len(p):]] when [s] starts with [p] *)
Fixpoint strip_prefix (p s : string) : option string :=
  match p, s with
  | EmptyString, _ => Some s
  | String a p', String b s' => if Ascii.eqb a b then strip_prefix p' s' else None
  | String _ _, EmptyString => None
  end.

Definition scan_constant (s : string) : option (json * string) :=
  match strip_prefix "null" s with Some r => Some (JNull, r) | None =>
  match strip_prefix "true" s with Some r => Some (JBool true, r) | None =>
  match strip_prefix "false" s with Some r => Some (JBool false, r) | None =>
  match match_number s with Some res => Some res | None =>
  match strip_prefix "NaN" s with Some r => Some (JFloat "NaN", r) | None =>
  match strip_prefix "Infinity" s with Some r => Some (JFloat "Infinity", r) | None =>
  match strip_prefix "-Infinity" s with Some r => Some (JFloat "-Infinity", r) | None =>
  None end end end end end end end.

(** [scan_once] with [JSONObject] and [JSONArray]; [fuel] bounds the number
    of nested calls. *)
Fixpoint scan_once (fuel : nat) (s : string) : option (json * string) :=
  match fuel with
  | O => None
  | S fuel =>
      match s with
      | String "034" r => '(str, r') ← scanstring r; Some (JStr str, r')
      | String "{" r =>
          match skip_ws r with
          | String "}" r1 => Some (JDict [], r1)
          | String "034" r1 => parse_pairs fuel r1 []
          | _ => None
          end
      | String "[" r =>
          match skip_ws r with
          | String "]" r1 => Some (JList [], r1)
          | r1 => parse_items fuel r1 []
          end
      | _ => scan_constant s
      end
  end
with parse_pairs (fuel : nat) (s : string) (pairs : list (string * json))
    : option (json * string) :=
  match fuel with
  | O => None
  | S fuel =>
      '(key, r) ← scanstring s;
      match skip_ws r with
      | String ":" r1 =>
          '(value, r2) ← scan_once fuel (skip_ws r1);
          let pairs := pairs ++ [(key, value)] in
          match skip_ws r2 with
          | String "}" r3 => Some (JDict (Dict.of_pairs pairs), r3)
          | String "," r3 =>
              match skip_ws r3 with
              | String "034" r4 => parse_pairs fuel r4 pairs
              | _ => None
              end
          | _ => None
          end
      | _ => None
      end
  end
with parse_items (fuel : nat) (s : string) (values : list json)
    : option (json * string) :=
  match fuel with
  | O => None
  | S fuel =>
      '(value, r) ← scan_once fuel s;
      let values := values ++ [value] in
      match skip_ws r with
      | String "]" r1 => Some (JList values, r1)
      | String "," r1 => parse_items fuel (skip_ws r1) values
      | _ => None
      end
  end.

(** [json.loads(s)]; [None] is [JSONDecodeError]. *)
Definition loads (s : string) : option json :=
  '(obj, r) ← scan_once (2 * String.length s + 2) (skip_ws s);
  match skip_ws r with
  | EmptyString => Some obj
  | _ => None
  end.

Definition hex_digit (n : N) : ascii :=
  if (n <? 10)%N then ascii_of_N (48 + n) else ascii_of_N (87 + n).

(** [ESCAPE_DCT] of [json.encoder] *)
Definition escape (c : ascii) : string :=
  match c with
  | "\"%char => "\\"
  | "034"%char => String "\" (String "034" EmptyString)
  | "008"%char => "\b"
  | "012"%char => "\f"
  | "010"%char => "\n"
  | "013"%char => "\r"
  | "009"%char => "\t"
  | _ =>
      let n := N_of_ascii c in
      if (n <? 32)%N then
        "\u00" +:+ String (hex_digit (n / 16)) (String (hex_digit (n mod 16)) EmptyString)
      else String c EmptyString
  end.

Fixpoint escape_all (s : string) : string :=
  match s with
  | String c s' => escape c +:+ escape_all s'
  | EmptyString => EmptyString
  end.

Definition encode_basestring (s : string) : string :=
  String "034" (escape_all s +:+ String "034" EmptyString).

(** [sep.join(parts)] *)
Fixpoint join (sep : string) (parts : list string) : string :=
  match parts with
  | [] => EmptyString
  | [p] => p
  | p :: ps => p +:+ sep +:+ join sep ps
  end.

(** [json.dumps(obj, ensure_ascii=False)] *)
Fixpoint dumps (obj : json) : string :=
  match obj with
  | JNull => "null"
  | JBool true => "true"
  | JBool false => "false"
  | JInt z => pretty.pretty z
  | JFloat lexeme => lexeme
  | JStr s => encode_basestring s
  | JList l => "[" +:+ join ", " (List.map dumps l) +:+ "]"
  | JDict d =>
      "{" +:+ join ", "
        (List.map (fun kv => encode_basestring (fst kv) +:+ ": " +:+ dumps (snd kv)) d)
      +:+ "}"
  end.

End Json.

(** ** Regular expressions of the [re] module

    A pattern is embedded as a matcher: at the start of a text it gives the
    captured groups and the length of the match. None of the patterns of the
    program matches the empty string. *)
Module Re.
Section Scan.
Context {A : Type} (match_here : string -> option (A * nat)).

(** [re.search]: the leftmost match *)
Fixpoint search (s : string) : option A :=
  match match_here s with
  | Some (groups, _) => Some groups
  | None =>
      match s with
      | String _ s' => search s'
      | EmptyString => None
      end
  end.

(** [re.findall]: the matches from left to right, none overlapping; [skip]
    counts the characters of the last match still to pass. *)
Fixpoint findall_from (skip : nat) (s : string) : list A :=
  match s with
  | EmptyString => []
  | String _ s' =>
      match skip with
      | S k => findall_from k s'
      | O =>
          match match_here s with
          | Some (groups, len) => groups :: findall_from (Nat.pred len) s'
          | None => findall_from O s'
          end
      end
  end.

Definition findall (s : string) : list A := findall_from O s.

(** [re.sub]: every match replaced by [repl] of its groups *)
Fixpoint sub_from (repl : A -> string) (skip : nat) (s : string) : string :=
  match s with
  | EmptyString => EmptyString
  | String c s' =>
      match skip with
      | S k => sub_from repl k s'
      | O =>
          match match_here s with
          | Some (groups, len) => repl groups +:+ sub_from repl (Nat.pred len) s'
          | None => String c (sub_from repl O s')
          end
      end
  end.

Definition sub (repl : A -> string) (s : string) : string := sub_from repl O s.

End Scan.

(** The characters before the first occurrence of [stop], and the text from
    that occurrence on; [None] when [stop] does not occur. *)
Fixpoint until (stop : ascii) (s : string) : option (string * string) :=
  match s with
  | EmptyString => None
  | String c s' =>
      if Ascii.eqb c stop then Some (EmptyString, s)
      else '(run, r) ← until stop s'; Some (String c run, r)
  end.

End Re.

(** ** Fix rule engine: [ToolFixEngine] *)

(** One entry of a tool's [fixes] list. [condition] and [action] are kept as
    the strings the engine compares them with. The optional keys are
    [fallback_value], [default_value] and [valid_values]; the values of an
    enumeration are strings. *)
Record fix_rule := {
  fix_name : string;
  fix_parameter : string;
  fix_condition : string;
  fix_action : string;
  fix_fallback_value : option json;
  fix_default_value : option json;
  fix_valid_values : option (list string)
}.

Record settings := {
  buffer_timeout : option Z;
  max_buffer_size : option Z;
  detailed_logging : option bool;
  case_sensitive_tools : option bool
}.

(** [self.config]: for each tool the list under its ['fixes'] key (a tool
    without that key has the empty list), and the ['settings'] map. *)
Record config := {
  tools : gmap string (list fix_rule);
  config_settings : settings
}.

(** [ToolFixEngine._get_default_config] *)
Definition _get_default_config : config := {|
  tools :=
    <["todowrite" := [{| fix_name := "todos_string_to_array";
                         fix_parameter := "todos";
                         fix_condition := "is_string";
                         fix_action := "parse_json_array";
                         fix_fallback_value := Some (JList []);
                         fix_default_value := None;
                         fix_valid_values := None |}]]>
    (<["bash" := [{| fix_name := "missing_description";
                     fix_parameter := "description";
                     fix_condition := "missing_or_empty";
                     fix_action := "set_default";
                     fix_fallback_value := None;
                     fix_default_value := Some (JStr "Execute the given shell command");
                     fix_valid_values := None |}]]>
    (<["read" := [{| fix_name := "remove_content_parameter";
                     fix_parameter := "content";
                     fix_condition := "exists";
                     fix_action := "remove_parameter";
                     fix_fallback_value := None;
                     fix_default_value := None;
                     fix_valid_values := None |}]]> ∅));
  config_settings := {| buffer_timeout := Some 30;
                        max_buffer_size := Some 1048576;
                        detailed_logging := Some true;
                        case_sensitive_tools := Some false |}
|}.

(** Truthiness of a value, [bool(v)]. The float of a lexeme is
    [float(lexeme)], the double nearest to the number written: it is zero
    when the mantissa has no digit other than zero, and also when the number
    is at most [2^-1075], half of the least positive double. The number
    written is [m * 10^scale], where [m] is the integer the digits of the
    mantissa spell. *)
Fixpoint split_exponent (s : string) : string * option string :=
  match s with
  | String c r =>
      if Ascii.eqb c "e" || Ascii.eqb c "E" then (EmptyString, Some r)
      else let '(mantissa, exponent) := split_exponent r in
           (String c mantissa, exponent)
  | EmptyString => (EmptyString, None)
  end.

Fixpoint split_fraction (s : string) : string * string :=
  match s with
  | String c r =>
      if Ascii.eqb c "." then (EmptyString, r)
      else let '(int_part, frac_part) := split_fraction r in
           (String c int_part, frac_part)
  | EmptyString => (EmptyString, EmptyString)
  end.

Definition exponent_value (exponent : option string) : Z :=
  match exponent with
  | Some (String "-" ds) => - Json.int_of_digits 0 ds
  | Some (String "+" ds) => Json.int_of_digits 0 ds
  | Some ds => Json.int_of_digits 0 ds
  | None => 0
  end.

Definition float_is_zero (lexeme : string) : bool :=
  let body := match lexeme with String "-" r => r | _ => lexeme end in
  match body with
  | String "N" _ => false
  | String "I" _ => false
  | _ =>
      let '(mantissa, exponent) := split_exponent body in
      let '(int_part, frac_part) := split_fraction mantissa in
      let m := Json.int_of_digits 0 (int_part +:+ frac_part) in
      let scale := exponent_value exponent - Z.of_nat (String.length frac_part) in
      (m =? 0) || (scale <? 0) && (m * 2 ^ 1075 <=? 10 ^ (- scale))
  end.

Definition truthy_json (v : json) : bool :=
  match v with
  | JNull => false
  | JBool b => b
  | JInt z => negb (z =? 0)
  | JFloat lexeme => negb (float_is_zero lexeme)
  | JStr s => Py.truthy s
  | JList l => match l with [] => false | _ => true end
  | JDict d => match d with [] => false | _ => true end
  end.

(** [x in l] for a string [x] and a list or tuple [l] of strings *)
Definition str_in (x : string) (l : list string) : bool :=
  existsb (String.eqb x) l.

(** [ToolFixEngine._check_condition] *)
Definition _check_condition (args_obj : dict) (param condition : string)
    (fx : fix_rule) : bool :=
  let value := Dict.get args_obj param in
  if String.eqb condition "is_string" then
    match value with Some (JStr _) => true | _ => false end
  else if String.eqb condition "missing_or_empty" then
    negb (match value with Some v => truthy_json v | None => false end)
  else if String.eqb condition "missing" then
    negb (Dict.mem args_obj param)
  else if String.eqb condition "exists" then
    Dict.mem args_obj param
  else if String.eqb condition "invalid_enum" then
    let valid_values := default [] (fix_valid_values fx) in
    negb (match value with Some (JStr s) => str_in s valid_values | _ => false end)
  else false.

(** The pattern of [_fix_malformed_json]: two quotes, a lazy run of
    characters other than a quote, two quotes. The group is the run. *)
Definition match_overquoted (s : string) : option (string * nat) :=
  match s with
  | String "034" (String "034" r) =>
      match Re.until "034" r with
      | Some (run, String "034" (String "034" _)) => Some (run, (4 + String.length run)%nat)
      | _ => None
      end
  | _ => None
  end.

(** [ToolFixEngine._fix_malformed_json] *)
Definition _fix_malformed_json (json_str : string) : string :=
  if negb (Py.truthy json_str) then json_str
  else
    let fixed := json_str in
    let fixed := Py.replace_char "'" "034" fixed in
    let fixed :=
      Re.sub match_overquoted
        (fun run => String "034" (run +:+ String "034" EmptyString)) fixed in
    fixed.

(** What [_apply_single_fix] returns: a [bool], or for a tool conversion
    the pair of the new tool name and a [bool]. *)
Inductive fix_result :=
| Flag (applied : bool)
| Conversion (new_tool_name : string) (applied : bool).

(** The body of the [try] block of [_apply_single_fix]: the arguments as the
    block leaves them and what it returns, [None] when it raises. *)
Definition apply_action (args_obj : dict) (param action : string) (fx : fix_rule)
    : dict * option fix_result :=
  if String.eqb action "parse_json_array" then
    match Dict.get args_obj param with
    | Some (JStr text) =>
        match Json.loads text with
        | Some v => (Dict.set args_obj param v, Some (Flag true))
        | None =>
            let fixed_json := _fix_malformed_json text in
            match Json.loads fixed_json with
            | Some v => (Dict.set args_obj param v, Some (Flag true))
            | None => (args_obj, None)
            end
        end
    | _ => (args_obj, Some (Flag true))
    end
  else if String.eqb action "set_default" then
    match fix_default_value fx with
    | Some v => (Dict.set args_obj param v, Some (Flag true))
    | None => (args_obj, None)
    end
  else if String.eqb action "parse_json_object" then
    match Dict.get args_obj param with
    | Some (JStr text) =>
        match Json.loads text with
        | Some v => (Dict.set args_obj param v, Some (Flag true))
        | None => (args_obj, None)
        end
    | _ => (args_obj, Some (Flag true))
    end
  else if String.eqb action "convert_string_to_boolean" then
    match Dict.get args_obj param with
    | Some (JStr text) =>
        let value := Py.strip (Py.lower text) in
        (Dict.set args_obj param
           (JBool (str_in value ["true"; "1"; "yes"; "on"])), Some (Flag true))
    | _ => (args_obj, Some (Flag true))
    end
  else if String.eqb action "remove_parameter" then
    if Dict.mem args_obj param then (Dict.del args_obj param, Some (Flag true))
    else (args_obj, Some (Flag true))
  else if String.eqb action "convert_tool_to_write" then
    if Dict.mem args_obj "filePath" && Dict.mem args_obj "content" then
      (args_obj, Some (Conversion "write" true))
    else (args_obj, Some (Flag false))
  else (args_obj, Some (Flag true)).

(** [ToolFixEngine._apply_single_fix]; the dictionary is changed in place,
    so the changed dictionary is returned with the result. *)
Definition _apply_single_fix (args_obj : dict) (fx : fix_rule) : dict * fix_result :=
  let param := fix_parameter fx in
  let condition := fix_condition fx in
  let action := fix_action fx in
  if negb (_check_condition args_obj param condition fx) then
    (args_obj, Flag false)
  else
    match apply_action args_obj param action fx with
    | (args_obj, Some res) => (args_obj, res)
    | (args_obj, None) =>
        match fix_fallback_value fx with
        | Some v => (Dict.set args_obj param v, Flag true)
        | None => (args_obj, Flag false)
        end
    end.

(** The [for fx in fixes] loop of [apply_fixes], on [result] and
    [final_tool_name] *)
Fixpoint apply_fixes_loop (fixes : list fix_rule) (result : dict)
    (final_tool_name : string) : string * dict :=
  match fixes with
  | [] => (final_tool_name, result)
  | fx :: fixes' =>
      match _apply_single_fix result fx with
      | (result, Conversion new_tool_name _) =>
          apply_fixes_loop fixes' result new_tool_name
      | (result, Flag _) => apply_fixes_loop fixes' result final_tool_name
      end
  end.

(** [ToolFixEngine.apply_fixes]. The callers pass whatever [json.loads]
    gave: with rules to apply, a list fails in [_check_condition] and any
    other value that is not a [dict] in [args_obj.copy()]; [None] is that
    exception. *)
Definition apply_fixes (cfg : config) (tool_name : string) (args_obj : json)
    : option (string * json) :=
  let tool_name :=
    if negb (default false (case_sensitive_tools (config_settings cfg)))
    then Py.lower tool_name else tool_name in
  let fixes := default [] (tools cfg !! tool_name) in
  match fixes with
  | [] => Some (tool_name, args_obj)
  | _ =>
      match args_obj with
      | JDict d =>
          let '(final_tool_name, result) := apply_fixes_loop fixes d tool_name in
          Some (final_tool_name, JDict result)
      | _ => None
      end
  end.

(** ** JSON repair engine *)

(** [try_fix_incomplete_json]: [Some ""] for blank text, [None] for the
    [None] the function returns when the closed text does not parse. *)
Definition try_fix_incomplete_json (json_str : string) : option string :=
  if negb (Py.truthy (Py.strip json_str)) then Some EmptyString
  else
    let json_str := Py.strip json_str in
    let open_braces := Z.of_nat (Py.count "{" json_str) in
    let close_braces := Z.of_nat (Py.count "}" json_str) in
    let open_brackets := Z.of_nat (Py.count "[" json_str) in
    let close_brackets := Z.of_nat (Py.count "]" json_str) in
    let result := json_str in
    let result := result +:+ Py.repeat "]" (open_brackets - close_brackets) in
    let result := result +:+ Py.repeat "}" (open_braces - close_braces) in
    match Json.loads result with
    | Some _ => Some result
    | None => None
    end.

(** [validate_json_syntax]. The function catches [JSONDecodeError] only:
    an error of [json.loads] of another kind (see [Json]) would pass to the
    caller, [process_all_buffers]. *)
Definition validate_json_syntax (json_str : string) : bool :=
  match Json.loads json_str with Some _ => true | None => false end.

(** The pattern of [_strip_malformed_trailing_duplicate_key], tried at the
    start of [s]: a comma, white space, a quoted non-empty key, white space,
    a position not followed by a colon, characters other than a closing
    brace, a closing brace, and [$]: the end of the text, or the newline
    that ends the text. The white space after the key may be given back, so
    the look-ahead only fails when the colon follows the key directly.
    [ends_at_first_brace s] is the number of characters after the first
    closing brace of [s] when [$] matches there: none, or that one newline,
    which is not part of the match. *)
Fixpoint ends_at_first_brace (s : string) : option nat :=
  match s with
  | String c s' =>
      if Ascii.eqb c "}" then
        match s' with
        | EmptyString => Some O
        | String "010" EmptyString => Some 1%nat
        | _ => None
        end
      else ends_at_first_brace s'
  | EmptyString => None
  end.

Definition match_trailing_duplicate_key (s : string) : option (unit * nat) :=
  match s with
  | String "," r =>
      match Py.lstrip r with
      | String "034" r1 =>
          match Re.until "034" r1 with
          | Some (String k key, String _ tail) =>
              match ends_at_first_brace tail with
              | Some after =>
                  if negb (Py.startswith tail ":")
                  then Some (tt, (String.length s - after)%nat) else None
              | None => None
              end
          | _ => None
          end
      | _ => None
      end
  | _ => None
  end.

Definition _strip_malformed_trailing_duplicate_key (s : string) : string :=
  Re.sub match_trailing_duplicate_key (fun _ => "}") s.

(** The list [recovery_attempts] of [try_json_recovery] *)
Definition recovery_attempts : list (string -> string) :=
  [ _strip_malformed_trailing_duplicate_key;
    (fun s => Py.rstrip_char "," s +:+ "}");
    (fun s => s +:+ "}");
    (fun s => if negb (Py.startswith s "{") then "{" +:+ s +:+ "}" else s) ].

(** ** Tool identity inference: [infer_tool_name_from_content] *)

Definition infer_tool_name_from_content (content : string) : string :=
  let has := Py.contains content in
  let q (k : string) := String "034" (k +:+ String "034" EmptyString) in
  if negb (Py.truthy content) then EmptyString
  else if has (q "todos") then "todowrite"
  else if has (q "command") && negb (has (q "edits")) then "bash"
  else if has (q "file_path") && has (q "edits") then "multiedit"
  else if has (q "filePath") && has (q "oldString") && has (q "newString") then "edit"
  else if has (q "file_path") && has (q "old_string") && has (q "new_string") then "edit"
  else if has (q "pattern") && has (q "output_mode") then "grep"
  else if has (q "pattern") then "glob"
  else if has (q "url") && has (q "prompt") then "webfetch"
  else if has (q "query") then "websearch"
  else if has (q "content") && (has (q "file_path") || has (q "filePath")) then "write"
  else if has (q "file_path") || has (q "filePath") then "read"
  else if has (q "description") && has (q "prompt") && has (q "subagent_type") then "task"
  else if has (q "notebook_path") && has (q "new_source") then "notebookedit"
  else if has (q "path") then "list"
  else EmptyString.

(** ** XML tool-call converter: [detect_and_convert_xml_tool_call] *)

(** The function-tag pattern: the text [<function=], one or more characters
    other than [>], then [>]. The group is the run of characters. *)
Definition match_function_tag (s : string) : option (string * nat) :=
  match Json.strip_prefix "<function=" s with
  | Some r =>
      match Re.until ">" r with
      | Some (String c run, _) =>
          Some (String c run, (11 + String.length (String c run))%nat)
      | _ => None
      end
  | None => None
  end.

(** The parameter pattern: [<parameter=], a name of one or more characters
    other than [>], [>], white space, a lazy run of characters other than
    [<], white space, [</parameter>]. The groups are the name and the run,
    which the surrounding white space leaves without blanks at either end. *)
Definition match_parameter_tag (s : string) : option ((string * string) * nat) :=
  match Json.strip_prefix "<parameter=" s with
  | Some r =>
      match Re.until ">" r with
      | Some (String c name, String _ r1) =>
          match Re.until "<" r1 with
          | Some (body, r2) =>
              if Py.startswith r2 "</parameter>" then
                Some ((String c name, Py.rstrip (Py.lstrip body)),
                      (11 + String.length (String c name) + 1
                       + String.length body + 12)%nat)
              else None
          | None => None
          end
      | _ => None
      end
  | None => None
  end.

(** The loop that fills [args_obj] from [param_matches] *)
Definition xml_arguments (param_matches : list (string * string)) : dict :=
  fold_left
    (fun args_obj m => Dict.set args_obj (Py.strip (fst m)) (JStr (Py.strip (snd m))))
    param_matches [].

(** The result is the pair of ["function_name"] and ["arguments"]. *)
Definition detect_and_convert_xml_tool_call (content : string)
    : option (string * dict) :=
  match Re.search match_function_tag content with
  | None => None
  | Some group1 =>
      let function_name := Py.strip group1 in
      let param_matches := Re.findall match_parameter_tag content in
      match param_matches with
      | [] => None
      | _ => Some (function_name, xml_arguments param_matches)
      end
  end.

(** ** Events on the wire

    One SSE payload after [json.loads], in the shape the backend sends:
    [{"choices": [{"delta": {"content"?, "tool_calls"?: [{"index"?, "id"?,
    "function"?: {"name"?, "arguments"?}}]}, "finish_reason"?}]}]. A field of
    type [option] is [None] when the key is absent (for the scalar fields
    [index], [id], [name], [content] and [finish_reason] also when it is
    [null], which the program does not tell apart). The keys the program never
    reads are carried in [extra]. *)

Module Func.
Record t := {
  name : option string;
  arguments : option string;
  extra : dict
}.
Definition set_name (v : string) (f : t) : t :=
  {| name := Some v; arguments := arguments f; extra := extra f |}.
Definition set_arguments (v : string) (f : t) : t :=
  {| name := name f; arguments := Some v; extra := extra f |}.
(** The empty dictionary of [tool.get("function", {})] *)
Definition empty : t := {| name := None; arguments := None; extra := [] |}.
End Func.

Module ToolCall.
Record t := {
  index : option Z;
  id : option string;
  function : option Func.t;
  _suppress : bool;
  extra : dict
}.
(** [tool["_suppress"] = True] *)
Definition suppress (tool : t) : t :=
  {| index := index tool; id := id tool; function := function tool;
     _suppress := true; extra := extra tool |}.
Definition set_function (f : Func.t) (tool : t) : t :=
  {| index := index tool; id := id tool; function := Some f;
     _suppress := _suppress tool; extra := extra tool |}.
(** The dictionary literal of a synthesized call *)
Definition synthesized (call_id tool_name args : string) : t :=
  {| index := Some 0; id := Some call_id;
     function := Some {| Func.name := Some tool_name;
                         Func.arguments := Some args; Func.extra := [] |};
     _suppress := false; extra := [] |}.
End ToolCall.

Module Delta.
Record t := {
  content : option string;
  tool_calls : option (list ToolCall.t);
  extra : dict
}.
Definition set_content (v : string) (d : t) : t :=
  {| content := Some v; tool_calls := tool_calls d; extra := extra d |}.
Definition set_tool_calls (v : option (list ToolCall.t)) (d : t) : t :=
  {| content := content d; tool_calls := v; extra := extra d |}.
End Delta.

Module Choice.
Record t := {
  delta : option Delta.t;
  finish_reason : option string;
  extra : dict
}.
Definition set_delta (d : Delta.t) (c : t) : t :=
  {| delta := Some d; finish_reason := finish_reason c; extra := extra c |}.
End Choice.

Module Event.
Record t := {
  choices : option (list Choice.t);
  extra : dict
}.
Definition set_choices (cs : list Choice.t) (e : t) : t :=
  {| choices := Some cs; extra := extra e |}.
End Event.

(** ** Per-request state *)

(** [ToolBuffer]. The two time stamps are left out: only [is_expired] reads
    them, for the periodic clean-up, which no function below calls. *)
Module ToolBuffer.
Record t := {
  call_id : string;
  content : string;
  request_id : string;
  tool_name : string
}.
Definition make (call_id request_id tool_name : string) : t :=
  {| call_id := call_id; content := EmptyString;
     request_id := request_id; tool_name := tool_name |}.
Definition set_content (v : string) (b : t) : t :=
  {| call_id := call_id b; content := v;
     request_id := request_id b; tool_name := tool_name b |}.
Definition set_tool_name (v : string) (b : t) : t :=
  {| call_id := call_id b; content := content b;
     request_id := request_id b; tool_name := v |}.
(** [update_content] *)
Definition update_content (new_content : string) (b : t) : t :=
  set_content (content b +:+ new_content) b.
(** [size] *)
Definition size (b : t) : Z := Z.of_nat (Py.utf8_len (content b)).
End ToolBuffer.

Module RequestState.
Record t := {
  request_id : string;
  tool_buffers : gmap string ToolBuffer.t;
  content_buffer : string;
  sent_tool_signatures : list string
}.
Definition make (request_id : string) : t :=
  {| request_id := request_id; tool_buffers := ∅;
     content_buffer := EmptyString; sent_tool_signatures := [] |}.
Definition set_tool_buffers (v : gmap string ToolBuffer.t) (s : t) : t :=
  {| request_id := request_id s; tool_buffers := v;
     content_buffer := content_buffer s;
     sent_tool_signatures := sent_tool_signatures s |}.
Definition set_content_buffer (v : string) (s : t) : t :=
  {| request_id := request_id s; tool_buffers := tool_buffers s;
     content_buffer := v;
     sent_tool_signatures := sent_tool_signatures s |}.
Definition set_sent_tool_signatures (v : list string) (s : t) : t :=
  {| request_id := request_id s; tool_buffers := tool_buffers s;
     content_buffer := content_buffer s;
     sent_tool_signatures := v |}.
End RequestState.

(** ** Generated identifiers: [uuid.uuid4().hex[:24]] *)

(** [digits] lower-case hexadecimal digits of [n], most significant first,
    as the format [%032x] writes them *)
Fixpoint hex_digits (digits : nat) (n : N) : string :=
  match digits with
  | O => EmptyString
  | S k => hex_digits k (n / 16)%N +:+
           String (Json.hex_digit (n mod 16)%N) EmptyString
  end.

(** [uuid.uuid4().int] from the 128 random bits the call draws: the variant
    and version fields are overwritten. *)
Definition uuid4_int (random_bits : N) : N :=
  let int := (random_bits mod 2 ^ 128)%N in
  let int := N.ldiff int (N.shiftl 0xc000 48) in
  let int := N.lor int (N.shiftl 0x8000 48) in
  let int := N.ldiff int (N.shiftl 0xf000 64) in
  let int := N.lor int (N.shiftl 4 76) in
  int.

Definition uuid4_hex (random_bits : N) : string :=
  hex_digits 32 (uuid4_int random_bits).

(** [s[:n]] *)
Fixpoint str_take (n : nat) (s : string) : string :=
  match n, s with
  | S k, String c s' => String c (str_take k s')
  | _, _ => EmptyString
  end.

(** [f"call_{uuid.uuid4().hex[:24]}"] *)
Definition fresh_call_id (random_bits : N) : string :=
  "call_" +:+ str_take 24 (uuid4_hex random_bits).

(** ** Exceptions *)

(** A raised exception. The only one that can leave [process_sse_event] on
    an event of the wire shape is the [KeyError] of a [del] on a key that is
    gone. *)
Inductive exn := KeyError (key : string).

Inductive outcome (A : Type) :=
| Returned (a : A)
| Raised (e : exn).
Arguments Returned {A} a.
Arguments Raised {A} e.

(** ** Stream event processor *)

Section Processor.

(** The active configuration [fix_engine.config]. *)
Context (cfg : config).

Definition get_max_buffer_size : Z :=
  default 1048576 (max_buffer_size (config_settings cfg)).

(** [get_fixed_arguments] *)
Definition get_fixed_arguments (buffer : ToolBuffer.t) : string * string :=
  match Json.loads (ToolBuffer.content buffer) with
  | Some args_obj =>
      match apply_fixes cfg (ToolBuffer.tool_name buffer) args_obj with
      | Some (final_tool_name, args_obj) => (final_tool_name, Json.dumps args_obj)
      | None => (ToolBuffer.tool_name buffer, EmptyString)
      end
  | None => (ToolBuffer.tool_name buffer, EmptyString)
  end.

(** The [for] loop of [try_json_recovery] over the attempts left. An
    attempt that raises (the text does not parse, the fix engine fails, the
    tool has no ["function"]) is passed over. The tool is changed in place,
    so it is returned with the result. *)
Fixpoint try_json_recovery_loop (attempts : list (string -> string))
    (malformed_json : string) (tool : ToolCall.t) (tool_name : string)
    : ToolCall.t * bool :=
  match attempts with
  | [] => (tool, false)
  | fix_func :: attempts' =>
      let continue :=
        try_json_recovery_loop attempts' malformed_json tool tool_name in
      let fixed_json := fix_func (Py.strip malformed_json) in
      match Json.loads fixed_json with
      | Some args_obj =>
          match apply_fixes cfg tool_name args_obj with
          | Some (final_tool_name, args_obj) =>
              let fixed_args_str := Json.dumps args_obj in
              match ToolCall.function tool with
              | Some f =>
                  (ToolCall.set_function
                     (Func.set_arguments fixed_args_str
                        (Func.set_name final_tool_name f)) tool, true)
              | None => continue
              end
          | None => continue
          end
      | None => continue
      end
  end.

(** [try_json_recovery] *)
Definition try_json_recovery (malformed_json : string) (tool : ToolCall.t)
    (tool_name : string) : ToolCall.t * bool :=
  try_json_recovery_loop recovery_attempts malformed_json tool tool_name.

(** [process_complete_buffer]; returns the tool as the call leaves it. *)
Definition process_complete_buffer (buffer : ToolBuffer.t) (tool : ToolCall.t)
    : ToolCall.t :=
  let full_args_str := ToolBuffer.content buffer in
  let tool_name := ToolBuffer.tool_name buffer in
  match Json.loads full_args_str with
  | Some args_obj =>
      match apply_fixes cfg tool_name args_obj with
      | Some (final_tool_name, args_obj) =>
          let fixed_args_str := Json.dumps args_obj in
          match ToolCall.function tool with
          | Some f =>
              let f :=
                if negb (String.eqb final_tool_name tool_name)
                then Func.set_name final_tool_name f else f in
              ToolCall.set_function (Func.set_arguments fixed_args_str f) tool
          | None => tool
          end
      | None => tool
      end
  | None =>
      (* Keep original if recovery fails *)
      fst (try_json_recovery full_args_str tool tool_name)
  end.

(** What [process_all_buffers] does with one buffer: [None] when the buffer
    goes on the [to_drop] list. *)
Definition process_one_buffer (call_id : string) (buffer : ToolBuffer.t)
    : option ToolBuffer.t :=
  if negb (Py.truthy (ToolBuffer.content buffer)) then None
  else
    let dummy_tool :=
      {| ToolCall.index := None; ToolCall.id := Some call_id;
         ToolCall.function :=
           Some {| Func.name := Some (ToolBuffer.tool_name buffer);
                   Func.arguments := Some (ToolBuffer.content buffer);
                   Func.extra := [] |};
         ToolCall._suppress := false; ToolCall.extra := [] |} in
    let dummy_tool := process_complete_buffer buffer dummy_tool in
    let f := default Func.empty (ToolCall.function dummy_tool) in
    let final_args := default EmptyString (Func.arguments f) in
    if Py.truthy final_args && validate_json_syntax final_args then
      Some (ToolBuffer.set_tool_name (default EmptyString (Func.name f))
              (ToolBuffer.set_content final_args buffer))
    else None.

(** [process_all_buffers], which [process_sse_event] calls for an event
    whose finish reason is [tool_calls] *)
Definition process_all_buffers (request_state : RequestState.t) : RequestState.t :=
  RequestState.set_tool_buffers
    (map_imap process_one_buffer (RequestState.tool_buffers request_state))
    request_state.

Definition main_buffer_key : string := "main_tool_call".

(** Truthiness of an optional string field: absent, [null] and [""] are
    false. *)
Definition truthy_opt (o : option string) : bool :=
  match o with Some s => Py.truthy s | None => false end.

(** The first loop of [process_sse_event] over [delta["tool_calls"]]: the
    list with the empty named headers marked, [named_tool_calls] (each with
    its position in the list, which stands for the reference to the tool)
    and [fragments_in_event] (index and fragment; the third component of the
    tuple is never read). *)
Fixpoint classify_tool_calls (pos : nat) (tools : list ToolCall.t)
    : list ToolCall.t * list (nat * ToolCall.t) * list (Z * string) :=
  match tools with
  | [] => ([], [], [])
  | tool :: rest =>
      let '(rest', named_tool_calls, fragments_in_event) :=
        classify_tool_calls (S pos) rest in
      let tool_index := ToolCall.index tool in
      let func := default Func.empty (ToolCall.function tool) in
      let call_id := ToolCall.id tool in
      let tool_name := default EmptyString (Func.name func) in
      let args := default EmptyString (Func.arguments func) in
      if truthy_opt call_id && Py.truthy tool_name && Py.truthy (Py.strip args) then
        (tool :: rest', (pos, tool) :: named_tool_calls, fragments_in_event)
      else if truthy_opt call_id && Py.truthy tool_name
              && negb (Py.truthy (Py.strip args)) then
        (ToolCall.suppress tool :: rest', named_tool_calls, fragments_in_event)
      else
        match Func.arguments func with
        | Some frag =>
            (tool :: rest', named_tool_calls,
             (default 0 tool_index, frag) :: fragments_in_event)
        | None => (tool :: rest', named_tool_calls, fragments_in_event)
        end
  end.

(** [list.sort(key=lambda x: x[0])]: a stable sort on the index *)
Fixpoint insert_by_index (x : Z * string) (l : list (Z * string))
    : list (Z * string) :=
  match l with
  | [] => [x]
  | y :: l' => if fst x <=? fst y then x :: l else y :: insert_by_index x l'
  end.

Fixpoint sort_by_index (l : list (Z * string)) : list (Z * string) :=
  match l with
  | [] => []
  | x :: l' => insert_by_index x (sort_by_index l')
  end.

(** The buffer under [key], created empty when there is none *)
Definition ensure_buffer (request_id key tool_name : string)
    (tool_buffers : gmap string ToolBuffer.t) : gmap string ToolBuffer.t :=
  match tool_buffers !! key with
  | Some _ => tool_buffers
  | None => <[key := ToolBuffer.make key request_id tool_name]> tool_buffers
  end.

(** The state of one call of [process_sse_event] while the tool calls are
    handled: the request state, the list now under [delta["tool_calls"]] and
    the number of identifiers generated so far. *)
Record work := {
  w_state : RequestState.t;
  w_tool_calls : list ToolCall.t;
  w_draws : nat
}.

(** The random bits read by the [k]-th call of [uuid.uuid4] within one call
    of [process_sse_event]. *)
Context (entropy : nat -> N).

(** The block [if fragments_in_event:] for a list that is not empty. *)
Definition process_fragments (request_id : string)
    (fragments_in_event : list (Z * string)) (w : work) : work :=
  let request_state := w_state w in
  let tool_buffers :=
    ensure_buffer request_id main_buffer_key EmptyString
      (RequestState.tool_buffers request_state) in
  let buffer :=
    default (ToolBuffer.make main_buffer_key request_id EmptyString)
      (tool_buffers !! main_buffer_key) in
  let fragments_in_event := sort_by_index fragments_in_event in
  let buffer :=
    fold_left (fun b f => ToolBuffer.update_content (snd f) b)
      fragments_in_event buffer in
  let max_size := get_max_buffer_size in
  if ToolBuffer.size buffer >? max_size then
    {| w_state :=
         RequestState.set_tool_buffers (delete main_buffer_key tool_buffers)
           request_state;
       w_tool_calls := [];
       w_draws := w_draws w |}
  else
    let buffer :=
      if negb (Py.truthy (ToolBuffer.tool_name buffer))
         && Py.truthy (ToolBuffer.content buffer)
      then ToolBuffer.set_tool_name
             (infer_tool_name_from_content (ToolBuffer.content buffer)) buffer
      else buffer in
    let kept :=
      {| w_state :=
           RequestState.set_tool_buffers
             (<[main_buffer_key := buffer]> tool_buffers) request_state;
         w_tool_calls := [];
         w_draws := w_draws w |} in
    if Py.truthy (ToolBuffer.content buffer)
       && is_json_complete (ToolBuffer.content buffer) then
      let '(final_tool_name, fixed_args) := get_fixed_arguments buffer in
      if Py.truthy fixed_args && Py.truthy final_tool_name then
        let fixed_call_id := fresh_call_id (entropy (w_draws w)) in
        {| w_state :=
             RequestState.set_tool_buffers
               (delete main_buffer_key tool_buffers) request_state;
           w_tool_calls :=
             [ToolCall.synthesized fixed_call_id final_tool_name fixed_args];
           w_draws := S (w_draws w) |}
      else kept
    else kept.

(** [main_buf.content.lstrip()[:1] in ('{', '[')] *)
Definition starts_with_opener_after_blanks (content : string) : bool :=
  let first := str_take 1 (Py.lstrip content) in
  String.eqb first "{" || String.eqb first "[".

(** One turn of the loop [for tool in named_tool_calls]. [attached] tells
    whether [delta["tool_calls"]] is still the list the tool sits in (at
    position [pos]): then what is assigned to the tool shows in the list. A
    buffer is an object of the map [tool_buffers]; [buffer] and [main_buf]
    are the same object when the identifier of the call is the key of the
    shared buffer. *)
Definition process_named_call (request_id : string) (attached : bool)
    (named : nat * ToolCall.t) (w : work) : work * option exn :=
  let '(pos, tool) := named in
  let request_state := w_state w in
  let call_id := default EmptyString (ToolCall.id tool) in
  let func := default Func.empty (ToolCall.function tool) in
  let tool_name := default EmptyString (Func.name func) in
  let tool_buffers :=
    ensure_buffer request_id call_id tool_name
      (RequestState.tool_buffers request_state) in
  let buffer :=
    default (ToolBuffer.make call_id request_id tool_name)
      (tool_buffers !! call_id) in
  let assign (t : ToolCall.t) (tool_calls : list ToolCall.t) :=
    if attached then <[pos := t]> tool_calls else tool_calls in
  let leave tool_buffers tool_calls draws :=
    {| w_state := RequestState.set_tool_buffers tool_buffers request_state;
       w_tool_calls := tool_calls;
       w_draws := draws |} in
  match Func.arguments func with
  | None => (leave tool_buffers (w_tool_calls w) (w_draws w), None)
  | Some frag =>
      let buffer := ToolBuffer.update_content frag buffer in
      let tool_buffers := <[call_id := buffer]> tool_buffers in
      if Py.truthy (ToolBuffer.content buffer)
         && is_json_complete (ToolBuffer.content buffer) then
        let tool := process_complete_buffer buffer tool in
        (leave (delete call_id tool_buffers)
               (assign tool (w_tool_calls w)) (w_draws w), None)
      else if Py.truthy (ToolBuffer.content buffer) then
        let tool_buffers :=
          ensure_buffer request_id main_buffer_key EmptyString tool_buffers in
        let main_buf :=
          default (ToolBuffer.make main_buffer_key request_id EmptyString)
            (tool_buffers !! main_buffer_key) in
        let main_buf :=
          if Py.truthy (ToolBuffer.content main_buf)
             && starts_with_opener_after_blanks (ToolBuffer.content main_buf)
          then ToolBuffer.set_content
                 (ToolBuffer.content main_buf +:+ ToolBuffer.content buffer) main_buf
          else ToolBuffer.set_content
                 (ToolBuffer.content buffer +:+ ToolBuffer.content main_buf) main_buf in
        let main_buf :=
          if negb (Py.truthy (ToolBuffer.tool_name main_buf)) then
            ToolBuffer.set_tool_name
              (if Py.truthy (ToolBuffer.tool_name buffer)
               then ToolBuffer.tool_name buffer else tool_name) main_buf
          else main_buf in
        let tool_buffers := <[main_buffer_key := main_buf]> tool_buffers in
        let tool_buffers := delete call_id tool_buffers in
        let tool_calls := assign (ToolCall.suppress tool) (w_tool_calls w) in
        if is_json_complete (ToolBuffer.content main_buf) then
          let '(final_tool_name, fixed_args) := get_fixed_arguments main_buf in
          if Py.truthy fixed_args && Py.truthy final_tool_name then
            let fixed_call_id := fresh_call_id (entropy (w_draws w)) in
            let tool_calls :=
              tool_calls ++
              [ToolCall.synthesized fixed_call_id final_tool_name fixed_args] in
            match tool_buffers !! main_buffer_key with
            | Some _ =>
                (leave (delete main_buffer_key tool_buffers) tool_calls
                       (S (w_draws w)), None)
            | None =>
                (leave tool_buffers tool_calls (S (w_draws w)),
                 Some (KeyError main_buffer_key))
            end
          else (leave tool_buffers tool_calls (w_draws w), None)
        else (leave tool_buffers tool_calls (w_draws w), None)
      else (leave tool_buffers (w_tool_calls w) (w_draws w), None)
  end.

(** The loop [for tool in named_tool_calls]; an exception ends it. *)
Fixpoint process_named_calls (request_id : string) (attached : bool)
    (named_tool_calls : list (nat * ToolCall.t)) (w : work) : work * option exn :=
  match named_tool_calls with
  | [] => (w, None)
  | named :: rest =>
      match process_named_call request_id attached named w with
      | (w, None) => process_named_calls request_id attached rest w
      | (w, Some e) => (w, Some e)
      end
  end.

(** The block [if content:] of [process_sse_event], on the request state
    and the delta; the number returned is the number of identifiers
    generated (none or one). *)
Definition process_content (request_state : RequestState.t) (delta : Delta.t)
    : RequestState.t * Delta.t * nat :=
  let content := default EmptyString (Delta.content delta) in
  if Py.truthy content then
    let content_buffer := RequestState.content_buffer request_state +:+ content in
    match detect_and_convert_xml_tool_call content_buffer with
    | Some (function_name, arguments) =>
        let fixed_call_id := fresh_call_id (entropy O) in
        let args_str := Json.dumps (JDict arguments) in
        let delta :=
          Delta.set_tool_calls
            (Some [ToolCall.synthesized fixed_call_id function_name args_str])
            delta in
        let delta := Delta.set_content EmptyString delta in
        (RequestState.set_content_buffer EmptyString request_state, delta, 1%nat)
    | None =>
        let max_buffer_size := get_max_buffer_size in
        if Z.of_nat (String.length content_buffer) >? max_buffer_size then
          (RequestState.set_content_buffer EmptyString request_state, delta, O)
        else
          (RequestState.set_content_buffer content_buffer request_state, delta, O)
    end
  else (request_state, delta, O).

(** [finish_reason == "tool_calls"] *)
Definition finished_tool_calls (finish_reason : option string) : bool :=
  match finish_reason with
  | Some r => String.eqb r "tool_calls"
  | None => false
  end.

(** [process_sse_event] from [choice = event["choices"][0]] on. The delta of
    [choice.get("delta", {})] is the one of the choice when the key is
    there; otherwise it is a new dictionary that nothing is written to. *)
Definition process_choice (request_id : string)
    (request_state : RequestState.t) (choice : Choice.t)
    : RequestState.t * outcome Choice.t :=
  let delta :=
    default {| Delta.content := None; Delta.tool_calls := None;
               Delta.extra := [] |} (Choice.delta choice) in
  let finish_reason := Choice.finish_reason choice in
  let store (delta : Delta.t) : Choice.t :=
    match Choice.delta choice with
    | Some _ => Choice.set_delta delta choice
    | None => choice
    end in
  let '(request_state, delta, draws) := process_content request_state delta in
  match Delta.tool_calls delta with
  | None =>
      let request_state :=
        if finished_tool_calls finish_reason
        then process_all_buffers request_state else request_state in
      (request_state, Returned (store delta))
  | Some tool_calls =>
      let '(tool_calls, named_tool_calls, fragments_in_event) :=
        classify_tool_calls O tool_calls in
      let w := {| w_state := request_state; w_tool_calls := tool_calls;
                  w_draws := draws |} in
      let '(w, attached) :=
        match fragments_in_event with
        | [] => (w, true)
        | _ => (process_fragments request_id fragments_in_event w, false)
        end in
      match process_named_calls request_id attached named_tool_calls w with
      | (w, Some e) => (w_state w, Raised e)
      | (w, None) =>
          let request_state :=
            if finished_tool_calls finish_reason
            then process_all_buffers (w_state w) else w_state w in
          let tool_calls :=
            List.filter (fun tool => negb (ToolCall._suppress tool))
              (w_tool_calls w) in
          let delta :=
            Delta.set_tool_calls
              (match tool_calls with [] => None | _ => Some tool_calls end)
              delta in
          (request_state, Returned (store delta))
      end
  end.

(** [process_sse_event], on the global [request_states]. The event is
    changed in place and returned; after an exception the changes made to
    the request state stay. *)
Definition process_sse_event (request_states : gmap string RequestState.t)
    (event : Event.t) (request_id : string)
    : gmap string RequestState.t * outcome Event.t :=
  match request_states !! request_id with
  | None => (request_states, Returned event)
  | Some request_state =>
      match Event.choices event with
      | None | Some [] => (request_states, Returned event)
      | Some (choice :: others) =>
          match process_choice request_id request_state choice with
          | (request_state, Returned choice) =>
              (<[request_id := request_state]> request_states,
               Returned (Event.set_choices (choice :: others) event))
          | (request_state, Raised e) =>
              (<[request_id := request_state]> request_states, Raised e)
          end
      end
  end.

(** ** Duplicate detector: the relay of one event in [handle_request] *)

(** The two log lines of the duplicate check, with the name and the
    arguments they print ([fn.get('name')] and [fn.get('arguments', '')]) and,
    for a call sent the first time, its identifier *)
Inductive log_line :=
| LogDuplicate (name : option string) (arguments : string)
| LogSending (name : option string) (id : option string) (arguments : string).

(** What [handle_request] writes to the client for one decoded event: the
    rewritten event, or the line as it came when an exception was caught. *)
Inductive written :=
| WroteEvent (fixed_event : Event.t)
| WroteRawLine.

(** [f"{fn.get('name')}|{fn.get('arguments', '')}"]; an absent name is
    printed as [None]. *)
Definition signature (tc : ToolCall.t) : string :=
  let fn := default Func.empty (ToolCall.function tc) in
  default "None" (Func.name fn) +:+ "|" +:+ default EmptyString (Func.arguments fn).

(** The loop [for tc in tool_calls] of the duplicate check *)
Fixpoint record_signatures (tool_calls : list ToolCall.t)
    (sent_tool_signatures : list string) : list string * list log_line :=
  match tool_calls with
  | [] => (sent_tool_signatures, [])
  | tc :: rest =>
      let fn := default Func.empty (ToolCall.function tc) in
      let sig := signature tc in
      if str_in sig sent_tool_signatures then
        let '(sent, log) := record_signatures rest sent_tool_signatures in
        (sent, LogDuplicate (Func.name fn)
                 (default EmptyString (Func.arguments fn)) :: log)
      else
        let '(sent, log) :=
          record_signatures rest (sent_tool_signatures ++ [sig]) in
        (sent, LogSending (Func.name fn) (ToolCall.id tc)
                 (default EmptyString (Func.arguments fn)) :: log)
  end.

(** The body of the second [try] of the stream loop of [handle_request],
    for one decoded [event]. *)
Definition relay_event (request_states : gmap string RequestState.t)
    (event : Event.t) (request_id : string)
    : gmap string RequestState.t * written * list log_line :=
  match process_sse_event request_states event request_id with
  | (request_states, Raised _) => (request_states, WroteRawLine, [])
  | (request_states, Returned fixed_event) =>
      match Event.choices fixed_event with
      | Some [] => (request_states, WroteRawLine, [])
      | choices =>
          let delta :=
            match choices with
            | Some (choice :: _) => Choice.delta choice
            | _ => None
            end in
          match delta ≫= Delta.tool_calls with
          | Some tool_calls =>
              match request_states !! request_id with
              | Some req_state =>
                  let '(sent, log) :=
                    record_signatures tool_calls
                      (RequestState.sent_tool_signatures req_state) in
                  (<[request_id :=
                       RequestState.set_sent_tool_signatures sent req_state]>
                     request_states,
                   WroteEvent fixed_event, log)
              | None => (request_states, WroteEvent fixed_event, [])
              end
          | None => (request_states, WroteEvent fixed_event, [])
          end
      end
  end.

End Processor.

(** ** The completeness scan as the specification words it

    A scan over the characters of the text that keeps a stack of the open
    brackets and braces, an in-string flag and a pending-escape flag.
    [escape_outside] says whether a backslash met outside a string sets the
    pending-escape flag too; the specification speaks of the backslash
    inside a string only, which is [escape_outside = false]. *)
Module CompletenessSpec.

Record scan_state := {
  stack : list ascii;
  in_string : bool;
  pending_escape : bool
}.

Definition initial : scan_state :=
  {| stack := []; in_string := false; pending_escape := false |}.

(** [closer] matches the opener on top of the stack *)
Definition closes (closer opener : ascii) : bool :=
  Ascii.eqb closer "}" && Ascii.eqb opener "{"
  || Ascii.eqb closer "]" && Ascii.eqb opener "[".

(** One character; [None] when the text is declared malformed. *)
Definition step (escape_outside : bool) (st : scan_state) (c : ascii)
    : option scan_state :=
  if pending_escape st then
    Some {| stack := stack st; in_string := in_string st; pending_escape := false |}
  else if Ascii.eqb c "\" && (in_string st || escape_outside) then
    Some {| stack := stack st; in_string := in_string st; pending_escape := true |}
  else if Ascii.eqb c "034" then
    Some {| stack := stack st; in_string := negb (in_string st);
            pending_escape := false |}
  else if in_string st then Some st
  else if is_opener c then
    Some {| stack := c :: stack st; in_string := false; pending_escape := false |}
  else if is_closer c then
    match stack st with
    | top :: below =>
        if closes c top then
          Some {| stack := below; in_string := false; pending_escape := false |}
        else None
    | [] => None
    end
  else Some st.

Fixpoint scan (escape_outside : bool) (st : scan_state) (text : string)
    : option scan_state :=
  match text with
  | EmptyString => Some st
  | String c rest =>
      match step escape_outside st c with
      | Some st' => scan escape_outside st' rest
      | None => None
      end
  end.

(** The end of the scan: an empty stack and not inside a string *)
Definition closed (st : scan_state) : bool :=
  match stack st with [] => negb (in_string st) | _ :: _ => false end.

Definition complete (escape_outside : bool) (text : string) : bool :=
  let stripped := Py.strip text in
  (Py.startswith stripped "{" || Py.startswith stripped "[")
  && match scan escape_outside initial stripped with
     | Some st => closed st
     | None => false
     end.

End CompletenessSpec.

(** ** The heuristic recovery as the specification words it *)

(** A candidate text is accepted when it parses and the fix engine returns:
    the final tool name and the serialised arguments. *)
Definition accepted (cfg : config) (tool_name candidate : string)
    : option (string * string) :=
  args_obj ← Json.loads candidate;
  '(final_tool_name, args_obj) ← apply_fixes cfg tool_name args_obj;
  Some (final_tool_name, Json.dumps args_obj).

(** The first candidate accepted; the candidates after it are not looked at. *)
Fixpoint first_accepted (cfg : config) (tool_name : string)
    (candidates : list string) : option (string * string) :=
  match candidates with
  | [] => None
  | candidate :: rest =>
      match accepted cfg tool_name candidate with
      | Some r => Some r
      | None => first_accepted cfg tool_name rest
      end
  end.

(** The four candidates in their order, from the stripped text: the
    malformed trailing duplicate key cut down to a closing brace; the
    trailing commas removed and a closing brace added; a closing brace added;
    the text put between an opening and a closing brace unless it starts
    with an opening brace. *)
Definition recovery_candidates (malformed_json : string) : list string :=
  let s := Py.strip malformed_json in
  [ _strip_malformed_trailing_duplicate_key s;
    Py.rstrip_char "," s +:+ "}";
    s +:+ "}";
    if Py.startswith s "{" then s else "{" +:+ s +:+ "}" ].

(** The same list with the fourth candidate as the specification words it:
    an opening brace is put in front of a text that does not start with
    one, and nothing is added behind. *)
Definition claimed_recovery_candidates (malformed_json : string) : list string :=
  let s := Py.strip malformed_json in
  [ _strip_malformed_trailing_duplicate_key s;
    Py.rstrip_char "," s +:+ "}";
    s +:+ "}";
    if Py.startswith s "{" then s else "{" +:+ s ].

(** The tool after a recovery that accepted a candidate *)
Definition recovered_tool (tool : ToolCall.t) (f : Func.t)
    (r : string * string) : ToolCall.t :=
  ToolCall.set_function (Func.set_arguments (snd r) (Func.set_name (fst r) f)) tool.

(** ** The rules of the read tool in the bundled configuration *)

(** Modelled from the spec: the entry of the [read] tool in the bundled
    [tool_fixes.yaml], which is not among the sources. The specification
    (4.5 and its testable properties) and the test [test_tool_name_conversion]
    describe it as the conversion of a [read] call that carries a [content]
    into a [write] call; the name of the rule is free. *)
Definition yaml_read_rule : fix_rule :=
  {| fix_name := "convert_read_with_content_to_write";
     fix_parameter := "content";
     fix_condition := "exists";
     fix_action := "convert_tool_to_write";
     fix_fallback_value := None;
     fix_default_value := None;
     fix_valid_values := None |}.

Definition yaml_read_config : config :=
  {| tools := <["read" := [yaml_read_rule]]> (tools _get_default_config);
     config_settings := config_settings _get_default_config |}.

(** ** Example values *)

(** A tool call [{"index": idx, "id": id, "function": {"name": name,
    "arguments": args}}], each key present when its value is given. *)
Definition example_tool (idx : option Z) (id name args : option string)
    : ToolCall.t :=
  {| ToolCall.index := idx; ToolCall.id := id;
     ToolCall.function :=
       Some {| Func.name := name; Func.arguments := args; Func.extra := [] |};
     ToolCall._suppress := false; ToolCall.extra := [] |}.

(** An event with one choice, [{"choices": [{"delta": {...}}]}] *)
Definition example_event (content : option string)
    (tool_calls : option (list ToolCall.t)) (finish_reason : option string)
    : Event.t :=
  {| Event.choices :=
       Some [ {| Choice.delta :=
                   Some {| Delta.content := content;
                           Delta.tool_calls := tool_calls;
                           Delta.extra := [] |};
                 Choice.finish_reason := finish_reason;
                 Choice.extra := [] |} ];
     Event.extra := [] |}.

(** The request states just after [handle_request] has created the state of
    the request ["req"] *)
Definition example_states : gmap string RequestState.t :=
  {[ "req" := RequestState.make "req" ]}.

(** A source of random bits for the examples *)
Definition example_entropy (k : nat) : N := N.of_nat k.

(** The buffer and the tool of a named [bash] call whose argument text ends
    in a comma *)
Definition example_bash_buffer : ToolBuffer.t :=
  {| ToolBuffer.call_id := "call_1";
     ToolBuffer.content := Py.dq "{'command': 'ls',";
     ToolBuffer.request_id := "req";
     ToolBuffer.tool_name := "bash" |}.

Definition example_bash_func : Func.t :=
  {| Func.name := Some "bash";
     Func.arguments := Some (Py.dq "{'command': 'ls',");
     Func.extra := [] |}.

Definition example_bash_tool : ToolCall.t :=
  {| ToolCall.index := Some 0; ToolCall.id := Some "call_1";
     ToolCall.function := Some example_bash_func;
     ToolCall._suppress := false; ToolCall.extra := [] |}.

(** ** The duplicate detector as the specification words it *)

(** [detected sent tool_calls sent' log]: going through the tool calls about
    to be sent, a call whose signature is among those already sent is
    flagged as a duplicate and adds nothing; a call whose signature is new
    is logged as sent and its signature is added at the end. *)
Inductive detected : list string -> list ToolCall.t -> list string
                     -> list log_line -> Prop :=
| detected_done (sent : list string) : detected sent [] sent []
| detected_repeat (sent sent' : list string) (tc : ToolCall.t)
    (rest : list ToolCall.t) (log : list log_line) :
    signature tc ∈ sent ->
    detected sent rest sent' log ->
    detected sent (tc :: rest) sent'
      (LogDuplicate (Func.name (default Func.empty (ToolCall.function tc)))
         (default EmptyString
            (Func.arguments (default Func.empty (ToolCall.function tc)))) :: log)
| detected_first (sent sent' : list string) (tc : ToolCall.t)
    (rest : list ToolCall.t) (log : list log_line) :
    signature tc ∉ sent ->
    detected (sent ++ [signature tc]) rest sent' log ->
    detected sent (tc :: rest) sent'
      (LogSending (Func.name (default Func.empty (ToolCall.function tc)))
         (ToolCall.id tc)
         (default EmptyString
            (Func.arguments (default Func.empty (ToolCall.function tc)))) :: log).

(** The tool calls of the first choice of an event, which the duplicate
    check of [handle_request] reads *)
Definition first_choice_tool_calls (event : Event.t) : option (list ToolCall.t) :=
  match Event.choices event with
  | Some (choice :: _) => Choice.delta choice ≫= Delta.tool_calls
  | _ => None
  end.

(** The signatures recorded for a request, none when it has no state *)
Definition sent_of (request_states : gmap string RequestState.t)
    (request_id : string) : list string :=
  match request_states !! request_id with
  | Some st => RequestState.sent_tool_signatures st
  | None => []
  end.

(** ** The XML tags as the specification words them *)

(** The content holds a tag [<function=NAME>]: a non-empty name without [>]
    between [<function=] and [>]. *)
Definition has_function_tag (content : string) : Prop :=
  exists pre name post : string,
    content = pre +:+ "<function=" +:+ name +:+ ">" +:+ post
    /\ name <> EmptyString /\ Py.count ">" name = 0%nat.

(** The content holds a tag [<parameter=KEY>VALUE</parameter>]: a non-empty
    key without [>], and a value without [<]. *)
Definition has_parameter_tag (content : string) : Prop :=
  exists pre key value post : string,
    content = pre +:+ "<parameter=" +:+ key +:+ ">" +:+ value
              +:+ "</parameter>" +:+ post
    /\ key <> EmptyString /\ Py.count ">" key = 0%nat
    /\ Py.count "<" value = 0%nat.

(** The value the converter gives for [key]: the trimmed value of the last
    parameter tag whose trimmed name is [key]. *)
Definition last_parameter (param_matches : list (string * string))
    (key : string) : option json :=
  (fun m => JStr (Py.strip (snd m))) <$>
  last (List.filter (fun m => String.eqb (Py.strip (fst m)) key) param_matches).

(** ** The fragment buffer as the specification words it *)

(** The text and the tool name of the shared buffer, both empty when the
    request has no shared buffer *)
Definition shared_content (st : RequestState.t) : string :=
  match RequestState.tool_buffers st !! main_buffer_key with
  | Some b => ToolBuffer.content b
  | None => EmptyString
  end.

Definition shared_tool_name (st : RequestState.t) : string :=
  match RequestState.tool_buffers st !! main_buffer_key with
  | Some b => ToolBuffer.tool_name b
  | None => EmptyString
  end.


(** The order of the declared indices *)
Definition index_le (a b : Z * string) : Prop := fst a <= fst b.


(** The conventional form of a generated identifier: [call_] and 24
    lower-case hexadecimal digits *)
Definition is_lower_hex (c : ascii) : bool :=
  let n := N_of_ascii c in
  ((48 <=? n) && (n <=? 57) || (97 <=? n) && (n <=? 102))%N.

Fixpoint all_chars (p : ascii -> bool) (s : string) : bool :=
  match s with
  | String c s' => p c && all_chars p s'
  | EmptyString => true
  end.

Definition is_generated_call_id (id : string) : bool :=
  match Json.strip_prefix "call_" id with
  | Some digits => (String.length digits =? 24)%nat && all_chars is_lower_hex digits
  | None => false
  end.



(** The state of the request ["req"] after a call *)
Definition state_of (r : gmap string RequestState.t * outcome Event.t)
    : RequestState.t :=
  default (RequestState.make EmptyString) (r.1 !! "req").

(** ** The named continuation as the specification words it *)

(** The text accumulated for the identifier of a named call once the
    fragment [frag] is added to what its buffer held, if it had one *)
Definition accumulated (st : RequestState.t) (call_id frag : string) : string :=
  match RequestState.tool_buffers st !! call_id with
  | Some b => ToolBuffer.content b
  | None => EmptyString
  end +:+ frag.

(** The merge of a continuation into the shared text: behind it when the
    shared text begins, after leading blanks, with an opening brace or
    bracket, and in front of it otherwise *)
Definition merged (shared continuation : string) : string :=
  if Py.truthy shared && starts_with_opener_after_blanks shared
  then shared +:+ continuation else continuation +:+ shared.

(** The tool name of the shared buffer after the merge: its own name when
    it has one, or else the name of the buffer of the call, or else the name
    in the call *)
Definition merged_tool_name (st : RequestState.t) (call_id tool_name : string)
    : string :=
  if Py.truthy (shared_tool_name st) then shared_tool_name st
  else
    match RequestState.tool_buffers st !! call_id with
    | Some b =>
        if Py.truthy (ToolBuffer.tool_name b) then ToolBuffer.tool_name b
        else tool_name
    | None => tool_name
    end.

(** The named call of the split-brace example: identifier [X], tool [glob],
    arguments [{] *)
Definition example_brace_func : Func.t :=
  {| Func.name := Some "glob"; Func.arguments := Some "{"; Func.extra := [] |}.

Definition example_brace_tool : ToolCall.t :=
  {| ToolCall.index := Some 0; ToolCall.id := Some "X";
     ToolCall.function := Some example_brace_func;
     ToolCall._suppress := false; ToolCall.extra := [] |}.

Definition example_brace_work : work :=
  {| w_state := RequestState.make "req";
     w_tool_calls := [example_brace_tool];
     w_draws := O |}.

(** An event with two choices, the second of which carries a tool call *)
Definition example_two_choices : Event.t :=
  {| Event.choices :=
       Some [ {| Choice.delta :=
                   Some {| Delta.content := None; Delta.tool_calls := None;
                           Delta.extra := [] |};
                 Choice.finish_reason := None; Choice.extra := [] |};
              {| Choice.delta :=
                   Some {| Delta.content := None;
                           Delta.tool_calls :=
                             Some [example_tool (Some 0) (Some "call_1")
                                     (Some "glob") (Some "{}")];
                           Delta.extra := [] |};
                 Choice.finish_reason := None; Choice.extra := [] |} ];
     Event.extra := [] |}.

(** ** Stream end: [process_remaining_buffers] and [cleanup_request] *)

(** [cleanup_request]: the state of the request is deleted when there is
    one. *)
Definition cleanup_request (request_id : string)
    (request_states : gmap string RequestState.t) : gmap string RequestState.t :=
  delete request_id request_states.

(** The event [{"choices": [{"delta": {"tool_calls": [tool]}}]}] that
    [process_remaining_buffers] writes for a completed buffer *)
Definition completion_event (tool : ToolCall.t) : Event.t :=
  {| Event.choices :=
       Some [ {| Choice.delta :=
                   Some {| Delta.content := None;
                           Delta.tool_calls := Some [tool];
                           Delta.extra := [] |};
                 Choice.finish_reason := None;
                 Choice.extra := [] |} ];
     Event.extra := [] |}.

Section StreamEnd.

Context (cfg : config).

(** The body of the loop of [process_remaining_buffers] for one buffer: the
    buffer as the turn leaves it (the recovery may change its tool name) and
    the completion event handed to [response.write], if any. [random_bits]
    are the bits of the identifier, drawn only when an event is built. An
    exception raised in the [try] block ends the turn with nothing written. *)
Definition process_remaining_buffer (buffer : ToolBuffer.t) (random_bits : N)
    : ToolBuffer.t * option Event.t :=
  if Py.truthy (ToolBuffer.content buffer) then
    let fixed_json := try_fix_incomplete_json (ToolBuffer.content buffer) in
    let '(buffer, fixed_json) :=
      if negb (truthy_opt fixed_json) then
        let dummy_tool :=
          {| ToolCall.index := None; ToolCall.id := None;
             ToolCall.function :=
               Some {| Func.name := Some (ToolBuffer.tool_name buffer);
                       Func.arguments := Some EmptyString;
                       Func.extra := [] |};
             ToolCall._suppress := false; ToolCall.extra := [] |} in
        match try_json_recovery cfg (ToolBuffer.content buffer) dummy_tool
                (ToolBuffer.tool_name buffer) with
        | (dummy_tool, true) =>
            let f := default Func.empty (ToolCall.function dummy_tool) in
            (ToolBuffer.set_tool_name (default EmptyString (Func.name f)) buffer,
             Func.arguments f)
        | (_, false) => (buffer, fixed_json)
        end
      else (buffer, fixed_json) in
    if truthy_opt fixed_json && Py.truthy (ToolBuffer.tool_name buffer) then
      match Json.loads (default EmptyString fixed_json) with
      | Some args_obj =>
          match apply_fixes cfg (ToolBuffer.tool_name buffer) args_obj with
          | Some (final_tool_name, args_obj) =>
              let fixed_args_str := Json.dumps args_obj in
              let completion_call_id := fresh_call_id random_bits in
              (buffer,
               Some (completion_event
                       (ToolCall.synthesized completion_call_id final_tool_name
                          fixed_args_str)))
          | None => (buffer, None)
          end
      | None => (buffer, None)
      end
    else (buffer, None)
  else (buffer, None).

(** The random bits read by the [k]-th call of [uuid.uuid4] within one call
    of [process_remaining_buffers]. *)
Context (entropy : nat -> N).

(** The loop [for call_id, buffer in list(request_state.tool_buffers.items())]:
    the buffers as the loop leaves them and the events written, in order;
    [draws] counts the identifiers generated so far. *)
Fixpoint process_remaining_loop (items : list (string * ToolBuffer.t))
    (draws : nat) : list (string * ToolBuffer.t) * list Event.t :=
  match items with
  | [] => ([], [])
  | (call_id, buffer) :: rest =>
      match process_remaining_buffer buffer (entropy draws) with
      | (buffer, Some event) =>
          let '(rest, written) := process_remaining_loop rest (S draws) in
          ((call_id, buffer) :: rest, event :: written)
      | (buffer, None) =>
          let '(rest, written) := process_remaining_loop rest draws in
          ((call_id, buffer) :: rest, written)
      end
  end.

(** The order in which a dictionary of buffers is gone through (the order
    in which its keys were first inserted, which a map does not record). *)
Context (items : gmap string ToolBuffer.t -> list (string * ToolBuffer.t)).

(** [process_remaining_buffers]: the request states and the completion
    events written to the client. *)
Definition process_remaining_buffers (request_states : gmap string RequestState.t)
    (request_id : string) : gmap string RequestState.t * list Event.t :=
  match request_states !! request_id with
  | None => (request_states, [])
  | Some request_state =>
      if decide (RequestState.tool_buffers request_state = ∅) then
        (request_states, [])
      else
        let '(buffers, written) :=
          process_remaining_loop (items (RequestState.tool_buffers request_state)) O in
        (<[request_id :=
             RequestState.set_tool_buffers (list_to_map buffers) request_state]>
           request_states,
         written)
  end.

(** The branch [if payload == "[DONE]"] of the stream loop of
    [handle_request]: the completion events written before the line itself
    is relayed, and the request states after [cleanup_request]. *)
Definition relay_done (request_states : gmap string RequestState.t)
    (request_id : string) : gmap string RequestState.t * list Event.t :=
  let '(request_states, written) :=
    process_remaining_buffers request_states request_id in
  (cleanup_request request_id request_states, written).

End StreamEnd.

(** ** Auxiliary notions for the properties of the processor *)

(** A named header with blank arguments: the entry the first loop of
    [process_sse_event] marks as suppressed *)
Definition named_header (tool : ToolCall.t) : bool :=
  let func := default Func.empty (ToolCall.function tool) in
  truthy_opt (ToolCall.id tool)
  && Py.truthy (default EmptyString (Func.name func))
  && negb (Py.truthy (Py.strip (default EmptyString (Func.arguments func)))).

(** The request states of two requests just created *)
Definition example_two_states : gmap string RequestState.t :=
  <["other" := RequestState.make "other"]> example_states.

(** The rules [apply_fixes] looks up for a tool name: those of the
    lower-cased name unless tool names are case sensitive, none when the
    tool has no entry *)
Definition rules_of (cfg : config) (tool_name : string) : list fix_rule :=
  default []
    (tools cfg !! (if negb (default false (case_sensitive_tools (config_settings cfg)))
                   then Py.lower tool_name else tool_name)).

(** ** Auxiliary notions for the completeness check *)

(** A character the bracket scan of [is_json_complete] passes over when it
    is outside a string: any but the backslash, the double quote and the
    four brackets *)
Definition passed_over (c : ascii) : bool :=
  negb (Ascii.eqb c "\" || Ascii.eqb c "034" || is_opener c || is_closer c).

(** A JSON value that is an object or an array *)
Definition is_container (v : json) : bool :=
  match v with
  | JDict _ | JList _ => true
  | _ => false
  end.

(** What is known of a text a scalar was read from: the bracket scan passes
    over what was read, and the text begins with a character that is
    neither blank nor an opening bracket. *)
Definition read_scalar (s r : string) : Prop :=
  (forall stack,
     is_json_complete_loop s stack false false
     = is_json_complete_loop r stack false false)
  /\ exists c t, s = String c t /\ Py.isspace c = false /\ is_opener c = false.

(** ** Auxiliary notions for the end of the stream *)

(** A completion event as the client should find it: one choice whose
    delta carries one tool call, with index 0, an identifier of the
    generated form and a tool name that is not empty *)
Definition is_completion (event : Event.t) : Prop :=
  exists call_id tool_name args,
    event = completion_event (ToolCall.synthesized call_id tool_name args)
    /\ is_generated_call_id call_id = true
    /\ Py.truthy tool_name = true.

(** The request states with one buffer held for the request ["req"]: the
    text of a [bash] call that was cut off *)
Definition example_held_states : gmap string RequestState.t :=
  {[ "req" :=
       RequestState.set_tool_buffers
         {[ "main_tool_call" :=
              {| ToolBuffer.call_id := "main_tool_call";
                 ToolBuffer.content := Py.dq "{'command': 'ls'";
                 ToolBuffer.request_id := "req";
                 ToolBuffer.tool_name := "bash" |} ]}
         (RequestState.make "req") ]}.

(** ** Auxiliary notions for serialised arguments *)

(** What may follow a number in a JSON text without becoming part of it:
    the end of the text, or a character that is not a digit, a dot or the
    letter of an exponent *)
Definition delimited (rest : string) : bool :=
  match rest with
  | String c _ =>
      negb (Json.is_digit c || Ascii.eqb c "." || Ascii.eqb c "e" || Ascii.eqb c "E")
  | EmptyString => true
  end.

(** The lexeme of a float as [json.loads] keeps it: read again in front of
    any delimited text, it gives the same float and leaves that text. *)
Definition float_lexeme (lexeme : string) : Prop :=
  forall rest,
    delimited rest = true ->
    Json.scan_constant (lexeme +:+ rest) = Some (JFloat lexeme, rest).

(** The values that [json.loads] can return: every float has a lexeme, and
    every dictionary holds each key once. *)
Inductive wf_json : json -> Prop :=
| wf_null : wf_json JNull
| wf_bool (b : bool) : wf_json (JBool b)
| wf_int (z : Z) : wf_json (JInt z)
| wf_float (lexeme : string) : float_lexeme lexeme -> wf_json (JFloat lexeme)
| wf_str (s : string) : wf_json (JStr s)
| wf_list (l : list json) : Forall wf_json l -> wf_json (JList l)
| wf_dict (d : list (string * json)) :
    NoDup (List.map fst d) ->
    Forall (fun kv => wf_json (snd kv)) d ->
    wf_json (JDict d).

(** A configuration whose rules carry well-formed values *)
Definition wf_rule (fx : fix_rule) : Prop :=
  (forall v, fix_fallback_value fx = Some v -> wf_json v)
  /\ (forall v, fix_default_value fx = Some v -> wf_json v).

Definition wf_config (cfg : config) : Prop :=
  forall tool_name rules,
    tools cfg !! tool_name = Some rules -> Forall wf_rule rules.

(** The text that follows does not begin with a digit. *)
Definition not_digit_next (rest : string) : bool :=
  match rest with
  | String c _ => negb (Json.is_digit c)
  | EmptyString => true
  end.

(** One key and its value, as [json.dumps] writes them *)
Definition dumps_item (kv : string * json) : string :=
  Json.encode_basestring (fst kv) +:+ ": " +:+ Json.dumps (snd kv).

(** The serialised value is read back by the scanner, given fuel for the
    length of its text, in front of any delimited text. *)
Definition reads_back (v : json) : Prop :=
  forall fuel rest,
    (String.length (Json.dumps v) <= fuel)%nat ->
    delimited rest = true ->
    Json.scan_once fuel (Json.dumps v +:+ rest) = Some (v, rest).

(** The tool call carries arguments, and [validate_json_syntax] accepts
    them. *)
Definition valid_arguments (tool : ToolCall.t) : Prop :=
  exists f text,
    ToolCall.function tool = Some f
    /\ Func.arguments f = Some text
    /\ validate_json_syntax text = true.

(** A tool call that is marked as suppressed, or of which [P] holds *)
Definition suppressed_or (P : ToolCall.t -> Prop) (tool : ToolCall.t) : Prop :=
  ToolCall._suppress tool = true \/ P tool.

(** A quote of either kind *)
Definition is_quote (c : ascii) : bool := Ascii.eqb c "'" || Ascii.eqb c "034".

(** The text without its quotes *)
Fixpoint without_quotes (s : string) : string :=
  match s with
  | String c s' =>
      if is_quote c then without_quotes s' else String c (without_quotes s')
  | EmptyString => EmptyString
  end.

(** The text holds two quotes next to each other. *)
Fixpoint adjacent_quotes (s : string) : bool :=
  match s with
  | String a s' =>
      match s' with
      | String b _ => is_quote a && is_quote b || adjacent_quotes s'
      | EmptyString => false
      end
  | EmptyString => false
  end.



(** ** The tags of the XML converter, as texts

    A function tag at the start of [s]: [<function=], a name that is not
    empty and holds no [>], then [>]. *)
Definition function_tag_here (s name post : string) : Prop :=
  s = "<function=" +:+ name +:+ ">" +:+ post
  /\ name <> EmptyString /\ Py.count ">" name = 0%nat.

(** A parameter tag at the start of [s]: [<parameter=], a key that is not
    empty and holds no [>], then [>], a value that holds no [<], and
    [</parameter>]. *)
Definition parameter_tag_here (s key value post : string) : Prop :=
  s = "<parameter=" +:+ key +:+ ">" +:+ value +:+ "</parameter>" +:+ post
  /\ key <> EmptyString /\ Py.count ">" key = 0%nat
  /\ Py.count "<" value = 0%nat.

(** The parameter tags of a text from left to right, none overlapping: the
    key and the value of each, as written. A tag that begins where the text
    is read is taken, and the reading goes on behind it; where no tag begins
    one character is passed. *)
Inductive parameter_tags : string -> list (string * string) -> Prop :=
| parameter_tags_end : parameter_tags EmptyString []
| parameter_tags_here (s key value post : string)
    (params : list (string * string)) :
    parameter_tag_here s key value post ->
    parameter_tags post params ->
    parameter_tags s ((key, value) :: params)
| parameter_tags_pass (c : ascii) (s : string) (params : list (string * string)) :
    (forall key value post, ~ parameter_tag_here (String c s) key value post) ->
    parameter_tags s params ->
    parameter_tags (String c s) params.

(** * Properties *)

(** ** Completeness analyzer *)

Lemma is_json_complete_loop_scan (json_str : string) (stack : list ascii)
    (in_string escape_next : bool) :
  is_json_complete_loop json_str stack in_string escape_next =
  match CompletenessSpec.scan true
          {| CompletenessSpec.stack := stack;
             CompletenessSpec.in_string := in_string;
             CompletenessSpec.pending_escape := escape_next |} json_str with
  | Some st => CompletenessSpec.closed st
  | None => false
  end.
Proof.
  revert stack in_string escape_next.
  induction json_str as [|c rest IH]; intros stack in_string escape_next.
  - cbn. unfold CompletenessSpec.closed; cbn. by destruct stack.
  - cbn [is_json_complete_loop CompletenessSpec.scan].
    unfold CompletenessSpec.step; cbn.
    destruct escape_next; [apply IH|].
    rewrite orb_true_r, andb_true_r.
    destruct (Ascii.eqb c "\"); [apply IH|].
    destruct (Ascii.eqb c "034"); cbn; [apply IH|].
    destruct in_string; [apply IH|].
    destruct (is_opener c); [apply IH|].
    destruct (is_closer c) eqn:Hc; [|apply IH].
    destruct stack as [|last stack']; [done|].
    unfold CompletenessSpec.closes.
    unfold is_closer in Hc.
    destruct (Ascii.eqb_spec c "}") as [->|Hb]; cbn.
    + destruct (Ascii.eqb last "{"); cbn; [apply IH|done].
    + destruct (Ascii.eqb_spec c "]") as [->|]; [|done]; cbn.
      destruct (Ascii.eqb last "["); cbn; [apply IH|done].
Qed.

Lemma strip_empty_not_opener (s : string) :
  Py.truthy s = false -> Py.startswith s "{" || Py.startswith s "[" = false.
Proof. by destruct s. Qed.

(** C2, as amended. [is_json_complete] is the scan of the specification in
    which every backslash not itself escaped, inside a string or outside,
    sets the pending-escape flag: the result is true exactly when the
    stripped text begins with an opening brace or bracket and the scan ends
    with an empty stack outside a string, a closer that does not match the
    top of the stack making it false. Blank text does not begin with an
    opener, so it is never complete. *)
Theorem is_json_complete_is_scan (text : string) :
  is_json_complete text = CompletenessSpec.complete true text.
Proof.
  unfold is_json_complete, CompletenessSpec.complete.
  destruct (Py.truthy text) eqn:Ht; cbn [negb orb].
  - destruct (Py.truthy (Py.strip text)) eqn:Hs; cbn [negb].
    + destruct (Py.startswith (Py.strip text) "{" || Py.startswith (Py.strip text) "[");
        cbn [negb andb]; [|done].
      apply is_json_complete_loop_scan.
    + by rewrite strip_empty_not_opener.
  - destruct text; [|done]. done.
Qed.

(** C2, the claim as written fails: in the text [[\]]] the backslash stands
    outside any string. The program skips the bracket after it and finds
    the text complete; a scan in which only a backslash inside a string sets
    the pending-escape flag closes the bracket at once and meets the last
    bracket on an empty stack. *)
Lemma is_json_complete_backslash_outside_string :
  is_json_complete "[\]]" = true
  /\ CompletenessSpec.complete false "[\]]" = false.
Proof. split; reflexivity. Qed.

(** Empty or blank text is never complete. *)
Lemma is_json_complete_blank (text : string) :
  Py.strip text = EmptyString -> is_json_complete text = false.
Proof.
  intros H. unfold is_json_complete. rewrite H.
  cbn [Py.truthy negb]. by rewrite orb_true_r.
Qed.

(** ** JSON repair engine: bracket closing *)

Lemma append_empty_r (s : string) : s +:+ EmptyString = s.
Proof.
  induction s as [|c s IH]; [done|].
  change (String c (s +:+ EmptyString) = String c s). by rewrite IH.
Qed.

Lemma repeat_nonpositive (c : ascii) (n : Z) :
  n <= 0 -> Py.repeat c n = EmptyString.
Proof.
  intros H. unfold Py.repeat.
  replace (Z.to_nat n) with O by lia. done.
Qed.

(** C5, as amended. When the stripped text parses as JSON and holds, by raw
    count, no more opening braces than closing ones and no more opening
    brackets than closing ones, the bracket-closing repair appends nothing
    and returns the stripped text itself; it does not report failure. *)
Theorem try_fix_incomplete_json_unchanged (text : string) :
  is_Some (Json.loads (Py.strip text)) ->
  (Py.count "{" (Py.strip text) <= Py.count "}" (Py.strip text))%nat ->
  (Py.count "[" (Py.strip text) <= Py.count "]" (Py.strip text))%nat ->
  try_fix_incomplete_json text = Some (Py.strip text).
Proof.
  intros [v Hv] Hbrace Hbracket.
  unfold try_fix_incomplete_json.
  destruct (Py.strip text) as [|c s] eqn:Hs; [discriminate Hv|].
  cbn [Py.truthy negb].
  rewrite !repeat_nonpositive by lia.
  rewrite !append_empty_r.
  by rewrite Hv.
Qed.

Lemma try_fix_incomplete_json_unchanged_witness :
  is_Some (Json.loads (Py.strip (Py.dq "{'key': 'value'}")))
  /\ try_fix_incomplete_json (Py.dq "{'key': 'value'}")
     = Some (Py.dq "{'key': 'value'}").
Proof.
  split.
  - vm_compute. eexists. reflexivity.
  - apply (try_fix_incomplete_json_unchanged (Py.dq "{'key': 'value'}")).
    + vm_compute. eexists. reflexivity.
    + vm_compute. lia.
    + vm_compute. lia.
Defined.

(** C5, the claim as written fails: the text [{"a": "{"}] is valid JSON,
    but the brace inside its string is counted as an opening brace, a closing
    brace is appended, the result does not parse and the repair reports
    failure. *)
Lemma try_fix_incomplete_json_brace_in_string :
  Json.loads (Py.dq "{'a': '{'}") = Some (JDict [("a", JStr "{")])
  /\ try_fix_incomplete_json (Py.dq "{'a': '{'}") = None.
Proof. split; reflexivity. Qed.

(** ** JSON repair engine: heuristic recovery *)

Lemma try_json_recovery_loop_first_accepted (cfg : config)
    (attempts : list (string -> string)) (malformed_json : string)
    (tool : ToolCall.t) (f : Func.t) (tool_name : string) :
  ToolCall.function tool = Some f ->
  try_json_recovery_loop cfg attempts malformed_json tool tool_name =
  match first_accepted cfg tool_name
          (List.map (fun fix_func => fix_func (Py.strip malformed_json)) attempts) with
  | Some r => (recovered_tool tool f r, true)
  | None => (tool, false)
  end.
Proof.
  intros Hf. induction attempts as [|fix_func attempts IH]; [done|].
  cbn [try_json_recovery_loop List.map first_accepted].
  unfold accepted.
  destruct (Json.loads (fix_func (Py.strip malformed_json))) as [args_obj|]; cbn;
    [|apply IH].
  destruct (apply_fixes cfg tool_name args_obj) as [[final args]|]; cbn;
    [|apply IH].
  by rewrite Hf.
Qed.

Lemma try_json_recovery_loop_unchanged (cfg : config)
    (attempts : list (string -> string)) (malformed_json : string)
    (tool : ToolCall.t) (tool_name : string) :
  first_accepted cfg tool_name
    (List.map (fun fix_func => fix_func (Py.strip malformed_json)) attempts) = None ->
  try_json_recovery_loop cfg attempts malformed_json tool tool_name = (tool, false).
Proof.
  induction attempts as [|fix_func attempts IH]; [done|].
  cbn [try_json_recovery_loop List.map first_accepted].
  unfold accepted.
  destruct (Json.loads (fix_func (Py.strip malformed_json))) as [args_obj|]; cbn;
    [|apply IH].
  destruct (apply_fixes cfg tool_name args_obj) as [[final args]|]; cbn;
    [discriminate|apply IH].
Qed.

Lemma recovery_candidates_attempts (malformed_json : string) :
  List.map (fun fix_func => fix_func (Py.strip malformed_json)) recovery_attempts
  = recovery_candidates malformed_json.
Proof.
  unfold recovery_attempts, recovery_candidates; cbn [List.map].
  by destruct (Py.startswith (Py.strip malformed_json) "{").
Qed.

(** C4, as amended. The heuristic recovery tries the four candidates of
    [recovery_candidates] in their order (the fourth puts the text between an
    opening and a closing brace when it does not start with an opening
    brace). The first candidate that parses as JSON and that the fix engine
    handles without error wins: the tool gets the final name and the
    serialised fixed arguments, and no later candidate is looked at. When no
    candidate is accepted the recovery reports failure, and
    [process_complete_buffer], called on a buffer whose text does not parse,
    leaves the tool with its original name and argument text. *)
Theorem try_json_recovery_first_accepted (cfg : config)
    (buffer : ToolBuffer.t) (tool : ToolCall.t) (f : Func.t) :
  ToolCall.function tool = Some f ->
  Json.loads (ToolBuffer.content buffer) = None ->
  try_json_recovery cfg (ToolBuffer.content buffer) tool (ToolBuffer.tool_name buffer)
  = match first_accepted cfg (ToolBuffer.tool_name buffer)
            (recovery_candidates (ToolBuffer.content buffer)) with
    | Some r => (recovered_tool tool f r, true)
    | None => (tool, false)
    end
  /\ process_complete_buffer cfg buffer tool
     = match first_accepted cfg (ToolBuffer.tool_name buffer)
               (recovery_candidates (ToolBuffer.content buffer)) with
       | Some r => recovered_tool tool f r
       | None => tool
       end.
Proof.
  intros Hf Hload.
  assert (Hrec :
    try_json_recovery cfg (ToolBuffer.content buffer) tool (ToolBuffer.tool_name buffer)
    = match first_accepted cfg (ToolBuffer.tool_name buffer)
              (recovery_candidates (ToolBuffer.content buffer)) with
      | Some r => (recovered_tool tool f r, true)
      | None => (tool, false)
      end).
  { unfold try_json_recovery.
    rewrite (try_json_recovery_loop_first_accepted _ _ _ _ f) by done.
    by rewrite recovery_candidates_attempts. }
  split; [done|].
  unfold process_complete_buffer. rewrite Hload, Hrec.
  by destruct (first_accepted _ _ _).
Qed.

Lemma try_json_recovery_first_accepted_witness :
  ToolCall.function example_bash_tool = Some example_bash_func
  /\ Json.loads (ToolBuffer.content example_bash_buffer) = None
  /\ process_complete_buffer _get_default_config example_bash_buffer example_bash_tool
     = match first_accepted _get_default_config
               (ToolBuffer.tool_name example_bash_buffer)
               (recovery_candidates (ToolBuffer.content example_bash_buffer)) with
       | Some r => recovered_tool example_bash_tool example_bash_func r
       | None => example_bash_tool
       end.
Proof.
  split; [reflexivity|]. split; [reflexivity|].
  apply (try_json_recovery_first_accepted _get_default_config
           example_bash_buffer example_bash_tool example_bash_func);
    reflexivity.
Defined.

(** The recovery of the example: the second candidate is the first one
    accepted, and the fix engine adds the description. *)
Example process_complete_buffer_recovers_trailing_comma :
  process_complete_buffer _get_default_config example_bash_buffer example_bash_tool
  = example_tool (Some 0) (Some "call_1") (Some "bash")
      (Some (Py.dq "{'command': 'ls', 'description': 'Execute the given shell command'}")).
Proof. vm_compute. reflexivity. Qed.

(** The example in the comment of [_strip_malformed_trailing_duplicate_key] *)
Example strip_malformed_trailing_duplicate_key_example :
  _strip_malformed_trailing_duplicate_key
    (Py.dq "{'filePath':'good','filePath'/bad'}")
  = Py.dq "{'filePath':'good'}".
Proof. vm_compute. reflexivity. Qed.

(** C4, the claim as written fails: for the text ["a": 1] none of the four
    candidates of the specification parses (the fourth, with an opening brace
    put in front only, is [{"a": 1]), so recovery should report failure; the
    fourth candidate of the program is [{"a": 1}], and recovery succeeds. *)
Lemma try_json_recovery_wraps_in_braces :
  Forall (fun candidate => Json.loads candidate = None)
    (claimed_recovery_candidates (Py.dq "'a': 1"))
  /\ try_json_recovery _get_default_config (Py.dq "'a': 1")
       (example_tool (Some 0) (Some "call_1") (Some "glob") (Some (Py.dq "'a': 1")))
       "glob"
     = (example_tool (Some 0) (Some "call_1") (Some "glob") (Some (Py.dq "{'a': 1}")),
        true).
Proof.
  split.
  - repeat constructor.
  - vm_compute. reflexivity.
Qed.

(** ** Fix rule engine *)

Lemma lower_read : Py.lower "read" = "read".
Proof. reflexivity. Qed.

(** C6. With the conversion rule as the rule of the [read] tool, a [read]
    call with [filePath] and [content] comes back as a [write] call with both
    fields kept, and a call without [filePath] comes back as the [read] call
    it was. *)
Theorem apply_fixes_read_to_write (cfg : config) (rule : fix_rule) :
  tools cfg !! "read" = Some [rule] ->
  fix_parameter rule = "content" ->
  fix_condition rule = "exists" ->
  fix_action rule = "convert_tool_to_write" ->
  apply_fixes cfg "read" (JDict [("filePath", JStr "a.py"); ("content", JStr "x")])
  = Some ("write", JDict [("filePath", JStr "a.py"); ("content", JStr "x")])
  /\ forall args_obj : dict,
       Dict.mem args_obj "filePath" = false ->
       apply_fixes cfg "read" (JDict args_obj) = Some ("read", JDict args_obj).
Proof.
  intros Htools Hparam Hcond Haction.
  assert (Hname : (if negb (default false (case_sensitive_tools (config_settings cfg)))
                   then Py.lower "read" else "read") = "read")
    by (rewrite lower_read; by destruct (negb _)).
  unfold apply_fixes. rewrite Hname, Htools.
  cbn [from_option id apply_fixes_loop].
  unfold _apply_single_fix.
  rewrite Hparam, Hcond, Haction.
  split; [reflexivity|].
  intros args_obj Hfile.
  change (_check_condition args_obj "content" "exists" rule)
    with (Dict.mem args_obj "content").
  destruct (Dict.mem args_obj "content") eqn:Hcontent; cbn [negb]; [|done].
  change (apply_action args_obj "content" "convert_tool_to_write" rule)
    with (if Dict.mem args_obj "filePath" && Dict.mem args_obj "content"
          then (args_obj, Some (Conversion "write" true))
          else (args_obj, Some (Flag false))).
  by rewrite Hfile.
Qed.

Lemma apply_fixes_read_to_write_witness :
  tools yaml_read_config !! "read" = Some [yaml_read_rule]
  /\ apply_fixes yaml_read_config "read"
       (JDict [("filePath", JStr "a.py"); ("content", JStr "x")])
     = Some ("write", JDict [("filePath", JStr "a.py"); ("content", JStr "x")]).
Proof.
  split; [reflexivity|].
  apply (apply_fixes_read_to_write yaml_read_config yaml_read_rule); reflexivity.
Defined.

(** Under the embedded fallback configuration the rule of the [read] tool
    removes [content] instead, and the call stays a [read] call. *)
Example apply_fixes_read_default_config :
  apply_fixes _get_default_config "read"
    (JDict [("filePath", JStr "a.py"); ("content", JStr "x")])
  = Some ("read", JDict [("filePath", JStr "a.py")]).
Proof. reflexivity. Qed.

Lemma lower_char_idempotent (c : ascii) :
  Py.lower_char (Py.lower_char c) = Py.lower_char c.
Proof. by destruct c as [[] [] [] [] [] [] [] []]. Qed.

Lemma lower_idempotent (s : string) : Py.lower (Py.lower s) = Py.lower s.
Proof.
  induction s as [|c s IH]; [done|].
  cbn. by rewrite lower_char_idempotent, IH.
Qed.

Lemma apply_action_conversion (args_obj args_obj' : dict)
    (param action new_tool_name : string) (fx : fix_rule) (applied : bool) :
  apply_action args_obj param action fx
  = (args_obj', Some (Conversion new_tool_name applied)) ->
  new_tool_name = "write".
Proof.
  unfold apply_action. intros H.
  repeat case_match; by simplify_eq.
Qed.

Lemma _apply_single_fix_conversion (args_obj args_obj' : dict) (fx : fix_rule)
    (new_tool_name : string) (applied : bool) :
  _apply_single_fix args_obj fx = (args_obj', Conversion new_tool_name applied) ->
  new_tool_name = "write".
Proof.
  unfold _apply_single_fix. intros H.
  destruct (negb _); [discriminate|].
  destruct (apply_action _ _ _ _) as [d [res|]] eqn:Ha.
  - simplify_eq. by eapply apply_action_conversion.
  - by destruct (fix_fallback_value fx).
Qed.

Lemma apply_fixes_loop_name (fixes : list fix_rule) (result : dict)
    (final_tool_name : string) :
  fst (apply_fixes_loop fixes result final_tool_name) = final_tool_name
  \/ fst (apply_fixes_loop fixes result final_tool_name) = "write".
Proof.
  revert result final_tool_name.
  induction fixes as [|fx fixes IH]; intros result final_tool_name; [by left|].
  cbn [apply_fixes_loop].
  destruct (_apply_single_fix result fx) as [result' [b|n b]] eqn:Hfx.
  - apply IH.
  - apply _apply_single_fix_conversion in Hfx as ->.
    destruct (IH result' "write") as [->| ->]; by right.
Qed.

(** C9. With tool names matched without regard to case (the default), the
    name [apply_fixes] returns is the lower-cased input name or the target
    [write] of a conversion, and in either case a lower-case name. The call
    returns for every dictionary of arguments; it raises only on arguments
    that are not a dictionary when the tool has rules. *)
Theorem apply_fixes_returns_lowercase (cfg : config) (tool_name : string)
    (args_obj : json) :
  default false (case_sensitive_tools (config_settings cfg)) = false ->
  match apply_fixes cfg tool_name args_obj with
  | Some (final_tool_name, _) =>
      (final_tool_name = Py.lower tool_name \/ final_tool_name = "write")
      /\ Py.lower final_tool_name = final_tool_name
  | None =>
      forall d : dict, args_obj <> JDict d
  end.
Proof.
  intros Hcase. unfold apply_fixes. rewrite Hcase. cbn [negb].
  assert (Hlow : forall n, n = Py.lower tool_name \/ n = "write" ->
                           Py.lower n = n).
  { intros n [->| ->]; [apply lower_idempotent|reflexivity]. }
  destruct (default [] (tools cfg !! Py.lower tool_name)) as [|fx fixes].
  - split; [by left|apply lower_idempotent].
  - destruct args_obj; try (intros d; discriminate).
    destruct (apply_fixes_loop (fx :: fixes) d (Py.lower tool_name))
      as [final result] eqn:Hloop.
    pose proof (apply_fixes_loop_name (fx :: fixes) d (Py.lower tool_name)) as Hn.
    rewrite Hloop in Hn. cbn in Hn. split; [done|]. by apply Hlow.
Qed.

Lemma apply_fixes_returns_lowercase_witness :
  default false (case_sensitive_tools (config_settings _get_default_config)) = false
  /\ match apply_fixes _get_default_config "BASH" (JDict [("command", JStr "ls")]) with
     | Some (final_tool_name, _) =>
         (final_tool_name = Py.lower "BASH" \/ final_tool_name = "write")
         /\ Py.lower final_tool_name = final_tool_name
     | None =>
         forall d : dict, JDict [("command", JStr "ls")] <> JDict d
     end.
Proof.
  split; [reflexivity|].
  apply (apply_fixes_returns_lowercase _get_default_config "BASH"
           (JDict [("command", JStr "ls")])).
  reflexivity.
Defined.

(** A mixed-case name with no rules comes back lower-cased, and a name that
    has rules is matched whatever its case. *)
Example apply_fixes_mixed_case :
  apply_fixes _get_default_config "Glob" (JDict [("pattern", JStr "*")])
  = Some ("glob", JDict [("pattern", JStr "*")])
  /\ apply_fixes _get_default_config "BASH" (JDict [("command", JStr "ls")])
     = Some ("bash", JDict [("command", JStr "ls");
                            ("description", JStr "Execute the given shell command")]).
Proof. split; reflexivity. Qed.

(** ** Stream event processor: what a call leaves alone *)

Section Frame.
Context (cfg : config) (entropy : nat -> N).

Lemma process_content_sent (st : RequestState.t) (delta : Delta.t) :
  RequestState.sent_tool_signatures (process_content cfg entropy st delta).1.1
  = RequestState.sent_tool_signatures st.
Proof. unfold process_content. by repeat case_match. Qed.

Lemma process_fragments_sent (request_id : string)
    (fragments_in_event : list (Z * string)) (w : work) :
  RequestState.sent_tool_signatures
    (w_state (process_fragments cfg entropy request_id fragments_in_event w))
  = RequestState.sent_tool_signatures (w_state w).
Proof. unfold process_fragments. by repeat case_match. Qed.

Lemma process_named_call_sent (request_id : string) (attached : bool)
    (named : nat * ToolCall.t) (w : work) :
  RequestState.sent_tool_signatures
    (w_state (process_named_call cfg entropy request_id attached named w).1)
  = RequestState.sent_tool_signatures (w_state w).
Proof. unfold process_named_call. by repeat case_match. Qed.

Lemma process_named_calls_sent (request_id : string) (attached : bool)
    (named_tool_calls : list (nat * ToolCall.t)) (w : work) :
  RequestState.sent_tool_signatures
    (w_state (process_named_calls cfg entropy request_id attached named_tool_calls w).1)
  = RequestState.sent_tool_signatures (w_state w).
Proof.
  revert w. induction named_tool_calls as [|named rest IH]; intros w; [done|].
  cbn [process_named_calls].
  pose proof (process_named_call_sent request_id attached named w) as H.
  destruct (process_named_call cfg entropy request_id attached named w)
    as [w' [e|]]; cbn in H |- *; [done|].
  by rewrite IH.
Qed.

Lemma process_choice_sent (request_id : string) (st : RequestState.t)
    (choice : Choice.t) :
  RequestState.sent_tool_signatures
    (process_choice cfg entropy request_id st choice).1
  = RequestState.sent_tool_signatures st.
Proof.
  unfold process_choice.
  pose proof (process_content_sent st
    (default {| Delta.content := None; Delta.tool_calls := None; Delta.extra := [] |}
       (Choice.delta choice))) as Hc.
  destruct (process_content _ _ _ _) as [[st1 delta1] draws]; cbn in Hc.
  destruct (Delta.tool_calls delta1) as [tool_calls|].
  - destruct (classify_tool_calls 0 tool_calls) as [[marked named] frags].
    destruct frags as [|frag frags];
      match goal with
      | |- context [process_named_calls _ _ ?r ?a ?n ?w] =>
          pose proof (process_named_calls_sent r a n w) as Hn;
          destruct (process_named_calls cfg entropy r a n w) as [w'' [e|]]
      end; cbn in Hn |- *;
      rewrite ?process_fragments_sent in Hn; cbn in Hn;
      try destruct (finished_tool_calls _); cbn; congruence.
  - destruct (finished_tool_calls _); cbn; done.
Qed.

Lemma process_choice_returned (request_id : string) (st st' : RequestState.t)
    (choice choice' : Choice.t) :
  process_choice cfg entropy request_id st choice = (st', Returned choice') ->
  Choice.finish_reason choice' = Choice.finish_reason choice
  /\ Choice.extra choice' = Choice.extra choice
  /\ (Choice.delta choice = None -> choice' = choice).
Proof.
  unfold process_choice. intros H.
  repeat case_match; simplify_eq; done.
Qed.

Lemma process_sse_event_sent (request_states : gmap string RequestState.t)
    (event : Event.t) (request_id r : string) :
  sent_of (process_sse_event cfg entropy request_states event request_id).1 r
  = sent_of request_states r.
Proof.
  unfold process_sse_event, sent_of.
  destruct (request_states !! request_id) as [st|] eqn:Hst; [|done].
  destruct (Event.choices event) as [[|choice others]|]; [done| |done].
  pose proof (process_choice_sent request_id st choice) as Hc.
  destruct (process_choice _ _ _ _ _) as [st' [choice'|e]]; cbn in Hc |- *.
  - destruct (decide (request_id = r)) as [->|Hne].
    + by rewrite lookup_insert_eq, Hst.
    + by rewrite lookup_insert_ne.
  - destruct (decide (request_id = r)) as [->|Hne].
    + by rewrite lookup_insert_eq, Hst.
    + by rewrite lookup_insert_ne.
Qed.

(** C10. [process_sse_event] looks at the first choice only. An event whose
    [choices] key is missing or whose list of choices is empty is returned
    as it came, and the request states stay as they were. For any other
    event, the event returned has the same keys outside [choices], the
    first choice keeps its finish reason and its other keys, and the
    choices after the first are the ones that came in, whatever content or
    tool calls they carry. *)
Theorem process_sse_event_first_choice_only
    (request_states : gmap string RequestState.t) (event : Event.t)
    (request_id : string) :
  match Event.choices event with
  | None | Some [] =>
      process_sse_event cfg entropy request_states event request_id
      = (request_states, Returned event)
  | Some (choice :: others) =>
      match process_sse_event cfg entropy request_states event request_id with
      | (_, Returned event') =>
          exists choice',
            Event.choices event' = Some (choice' :: others)
            /\ Event.extra event' = Event.extra event
            /\ Choice.finish_reason choice' = Choice.finish_reason choice
            /\ Choice.extra choice' = Choice.extra choice
      | (_, Raised _) => True
      end
  end.
Proof.
  unfold process_sse_event.
  destruct (Event.choices event) as [[|choice others]|] eqn:Hch.
  - by destruct (request_states !! request_id).
  - destruct (request_states !! request_id) as [st|].
    + destruct (process_choice cfg entropy request_id st choice)
        as [st' [choice'|e]] eqn:Hp; [|done].
      apply process_choice_returned in Hp as (Hfr & Hex & _).
      by exists choice'.
    + exists choice. by rewrite Hch.
  - by destruct (request_states !! request_id).
Qed.

End Frame.

(** ** Duplicate detector *)

Lemma str_in_elem_of (x : string) (l : list string) :
  str_in x l = true <-> x ∈ l.
Proof.
  unfold str_in. rewrite existsb_exists. split.
  - intros (y & Hy & Heq). apply String.eqb_eq in Heq as ->.
    by apply list_elem_of_In.
  - intros H. exists x. split; [by apply list_elem_of_In|apply String.eqb_refl].
Qed.

Lemma record_signatures_detected (tool_calls : list ToolCall.t)
    (sent : list string) :
  detected sent tool_calls (record_signatures tool_calls sent).1
    (record_signatures tool_calls sent).2.
Proof.
  revert sent. induction tool_calls as [|tc rest IH]; intros sent.
  - constructor.
  - cbn [record_signatures].
    destruct (str_in (signature tc) sent) eqn:Hin.
    + specialize (IH sent).
      destruct (record_signatures rest sent) as [sent' log]; cbn in IH |- *.
      constructor; [by apply str_in_elem_of|done].
    + specialize (IH (sent ++ [signature tc])).
      destruct (record_signatures rest (sent ++ [signature tc])) as [sent' log];
        cbn in IH |- *.
      constructor; [|done].
      intros Hel. apply str_in_elem_of in Hel. congruence.
Qed.

Lemma detected_NoDup (sent sent' : list string) (tool_calls : list ToolCall.t)
    (log : list log_line) :
  detected sent tool_calls sent' log -> NoDup sent -> NoDup sent'.
Proof.
  induction 1 as [sent|sent sent' tc rest log Hin _ IH
                 |sent sent' tc rest log Hnew _ IH]; intros Hnd.
  - done.
  - by apply IH.
  - apply IH. apply NoDup_app. split; [done|]. split.
    + intros x Hx Hx'. apply list_elem_of_singleton in Hx' as ->. done.
    + apply NoDup_singleton.
Qed.

Section Relay.
Context (cfg : config) (entropy : nat -> N).

(** C8. For a request that has its state, with no signature recorded
    twice: when the rewritten event carries tool calls, the duplicate check
    goes through them as [detected] says (the signature is the name, a bar
    and the argument text; a repeat is logged as a duplicate and adds
    nothing, a first occurrence is logged as sent and appended), the rewritten
    event is written to the client whatever the check found, and afterwards
    still no signature is recorded twice. Without tool calls, or when the
    processing raised and the line is relayed as it came, the recorded
    signatures stay as they were. *)
Theorem relay_event_flags_duplicates
    (request_states : gmap string RequestState.t) (st : RequestState.t)
    (event : Event.t) (request_id : string) :
  request_states !! request_id = Some st ->
  NoDup (RequestState.sent_tool_signatures st) ->
  match relay_event cfg entropy request_states event request_id with
  | (request_states', written, log) =>
      NoDup (sent_of request_states' request_id)
      /\ match process_sse_event cfg entropy request_states event request_id with
         | (_, Returned fixed_event) =>
             match first_choice_tool_calls fixed_event with
             | Some tool_calls =>
                 written = WroteEvent fixed_event
                 /\ detected (RequestState.sent_tool_signatures st) tool_calls
                      (sent_of request_states' request_id) log
             | None =>
                 log = []
                 /\ sent_of request_states' request_id
                    = RequestState.sent_tool_signatures st
             end
         | (_, Raised _) =>
             written = WroteRawLine /\ log = []
             /\ sent_of request_states' request_id
                = RequestState.sent_tool_signatures st
         end
  end.
Proof.
  intros Hst Hnd.
  pose proof (process_sse_event_sent cfg entropy request_states event
                request_id request_id) as Hsent.
  assert (Hsome : is_Some
    ((process_sse_event cfg entropy request_states event request_id).1 !! request_id)).
  { unfold process_sse_event. rewrite Hst.
    destruct (Event.choices event) as [[|choice others]|]; cbn; [by rewrite Hst| |by rewrite Hst].
    destruct (process_choice _ _ _ _ _) as [st' [c|e]]; cbn;
      rewrite lookup_insert_eq; eauto. }
  unfold relay_event.
  destruct (process_sse_event cfg entropy request_states event request_id)
    as [states1 [fixed_event|e]]; cbn in Hsent, Hsome.
  - assert (Hs1 : sent_of states1 request_id = RequestState.sent_tool_signatures st).
    { rewrite Hsent. unfold sent_of. by rewrite Hst. }
    unfold first_choice_tool_calls.
    destruct (Event.choices fixed_event) as [[|choice others]|].
    + rewrite Hs1. done.
    + destruct (Choice.delta choice ≫= Delta.tool_calls) as [tool_calls|].
      * destruct Hsome as [req_state Hreq]. rewrite Hreq.
        assert (Hreq' : RequestState.sent_tool_signatures req_state
                        = RequestState.sent_tool_signatures st).
        { rewrite <- Hs1. unfold sent_of. by rewrite Hreq. }
        pose proof (record_signatures_detected tool_calls
                      (RequestState.sent_tool_signatures req_state)) as Hdet.
        destruct (record_signatures tool_calls
                    (RequestState.sent_tool_signatures req_state)) as [sent' log].
        cbn in Hdet. rewrite Hreq' in Hdet.
        unfold sent_of. rewrite lookup_insert_eq. cbn.
        split; [by eapply detected_NoDup|done].
      * rewrite Hs1. done.
    + cbn. rewrite Hs1. done.
  - assert (Hs1 : sent_of states1 request_id = RequestState.sent_tool_signatures st).
    { rewrite Hsent. unfold sent_of. by rewrite Hst. }
    rewrite Hs1. done.
Qed.

End Relay.

Lemma relay_event_flags_duplicates_witness :
  example_states !! "req" = Some (RequestState.make "req")
  /\ NoDup (RequestState.sent_tool_signatures (RequestState.make "req"))
  /\ match relay_event _get_default_config example_entropy example_states
             (example_event None
                (Some [example_tool (Some 0) (Some "call_1") (Some "glob") (Some "{}");
                       example_tool (Some 1) (Some "call_2") (Some "glob") (Some "{}")])
                None) "req" with
     | (request_states', written, log) =>
         NoDup (sent_of request_states' "req")
         /\ match process_sse_event _get_default_config example_entropy example_states
                    (example_event None
                       (Some [example_tool (Some 0) (Some "call_1") (Some "glob") (Some "{}");
                              example_tool (Some 1) (Some "call_2") (Some "glob") (Some "{}")])
                       None) "req" with
            | (_, Returned fixed_event) =>
                match first_choice_tool_calls fixed_event with
                | Some tool_calls =>
                    written = WroteEvent fixed_event
                    /\ detected (RequestState.sent_tool_signatures (RequestState.make "req"))
                         tool_calls (sent_of request_states' "req") log
                | None =>
                    log = []
                    /\ sent_of request_states' "req"
                       = RequestState.sent_tool_signatures (RequestState.make "req")
                end
            | (_, Raised _) =>
                written = WroteRawLine /\ log = []
                /\ sent_of request_states' "req"
                   = RequestState.sent_tool_signatures (RequestState.make "req")
            end
     end.
Proof.
  split; [reflexivity|]. split; [constructor|].
  apply (relay_event_flags_duplicates _get_default_config example_entropy
           example_states (RequestState.make "req")); [reflexivity|constructor].
Defined.

(** The same call sent twice in one event: both are written to the client,
    the first is logged as sent, the second as a duplicate, and the
    signature is recorded once. *)
Example relay_event_duplicate_in_one_event :
  match relay_event _get_default_config example_entropy example_states
          (example_event None
             (Some [example_tool (Some 0) (Some "call_1") (Some "glob") (Some "{}");
                    example_tool (Some 1) (Some "call_2") (Some "glob") (Some "{}")])
             None) "req" with
  | (request_states', written, log) =>
      sent_of request_states' "req" = ["glob|{}"]
      /\ written
         = WroteEvent
             (example_event None
                (Some [example_tool (Some 0) (Some "call_1") (Some "glob") (Some "{}");
                       example_tool (Some 1) (Some "call_2") (Some "glob") (Some "{}")])
                None)
      /\ log = [LogSending (Some "glob") (Some "call_1") "{}";
                LogDuplicate (Some "glob") "{}"]
  end.
Proof. vm_compute. done. Qed.

(** C8, the claim as written fails: the duplicate check reads the tool
    calls of the first choice only. The tool call in the second choice of
    this event is written to the client, sent twice in a row, and neither
    time is a signature computed, compared, logged or recorded. *)
Lemma relay_event_second_choice_unchecked :
  let relay states :=
    relay_event _get_default_config example_entropy states example_two_choices "req" in
  let r1 := relay example_states in
  let r2 := relay r1.1.1 in
  r1.1.2 = WroteEvent example_two_choices /\ r1.2 = []
  /\ sent_of r1.1.1 "req" = []
  /\ r2.1.2 = WroteEvent example_two_choices /\ r2.2 = []
  /\ sent_of r2.1.1 "req" = [].
Proof. repeat split; vm_compute; reflexivity. Qed.

(** ** Strings *)

Lemma append_empty_l (s : string) : EmptyString +:+ s = s.
Proof. reflexivity. Qed.

Lemma append_cons (c : ascii) (s t : string) :
  String c s +:+ t = String c (s +:+ t).
Proof. reflexivity. Qed.

Lemma append_assoc (s t u : string) : (s +:+ t) +:+ u = s +:+ (t +:+ u).
Proof.
  induction s as [|c s IH]; [done|].
  by rewrite !append_cons, IH.
Qed.

Lemma count_append (c : ascii) (s t : string) :
  Py.count c (s +:+ t) = (Py.count c s + Py.count c t)%nat.
Proof.
  induction s as [|a s IH]; [done|].
  rewrite append_cons. cbn [Py.count]. rewrite IH. lia.
Qed.

Lemma length_append (s t : string) :
  String.length (s +:+ t) = (String.length s + String.length t)%nat.
Proof.
  induction s as [|a s IH]; [done|].
  rewrite append_cons. cbn. by rewrite IH.
Qed.

Lemma lstrip_idempotent (s : string) : Py.lstrip (Py.lstrip s) = Py.lstrip s.
Proof.
  induction s as [|c s IH]; [done|].
  cbn. destruct (Py.isspace c) eqn:Hc; [done|]. cbn. by rewrite Hc.
Qed.

Lemma rstrip_idempotent (s : string) : Py.rstrip (Py.rstrip s) = Py.rstrip s.
Proof.
  induction s as [|c s IH]; [done|].
  cbn [Py.rstrip].
  destruct (Py.rstrip s) as [|a r] eqn:Hr.
  - destruct (Py.isspace c) eqn:Hc; [done|]. cbn. by rewrite Hc.
  - cbn [Py.rstrip] in IH |- *.
    change (Py.rstrip (String a r)) with
      (match Py.rstrip r with
       | EmptyString => if Py.isspace a then EmptyString else String a EmptyString
       | String _ _ as r0 => String a r0
       end) in IH.
    destruct (Py.rstrip r) as [|b r'].
    + destruct (Py.isspace a); [discriminate|]. by rewrite IH.
    + by rewrite IH.
Qed.

Lemma lstrip_rstrip_commute (s : string) :
  Py.rstrip (Py.lstrip s) = Py.lstrip (Py.rstrip s).
Proof.
  induction s as [|c s IH]; [done|].
  cbn [Py.lstrip Py.rstrip].
  destruct (Py.isspace c) eqn:Hc.
  - rewrite IH. destruct (Py.rstrip s) as [|a r]; [done|].
    cbn [Py.lstrip]. by rewrite Hc.
  - cbn [Py.rstrip].
    destruct (Py.rstrip s) as [|a r]; cbn [Py.lstrip]; by rewrite Hc.
Qed.

Lemma strip_idempotent (s : string) : Py.strip (Py.strip s) = Py.strip s.
Proof.
  unfold Py.strip.
  rewrite (lstrip_rstrip_commute (Py.rstrip s)), rstrip_idempotent.
  apply lstrip_idempotent.
Qed.

(** ** Regular expressions *)

Lemma until_Some (stop : ascii) (s run r : string) :
  Re.until stop s = Some (run, r) <->
  s = run +:+ r /\ Py.count stop run = 0%nat
  /\ Py.startswith r (String stop EmptyString) = true.
Proof.
  revert run r. induction s as [|c s IH]; intros run r; cbn [Re.until].
  - split; [done|]. intros (H & _ & Hr). destruct run; [|done].
    rewrite append_empty_l in H. subst r. done.
  - destruct (Ascii.eqb_spec c stop) as [->|Hne].
    + split.
      * intros [= <- <-]. split; [done|]. split; [done|].
        cbn. by rewrite Ascii.eqb_refl.
      * intros (H & Hcount & Hr). destruct run as [|a run].
        -- rewrite append_empty_l in H. by subst r.
        -- rewrite append_cons in H. injection H as <- _.
           cbn in Hcount. by rewrite Ascii.eqb_refl in Hcount.
    + split.
      * destruct (Re.until stop s) as [[run' r']|] eqn:Hu; [|done].
        cbn. intros [= <- <-].
        destruct (proj1 (IH run' r') eq_refl) as (-> & Hcount & Hr).
        split; [done|]. split; [|done].
        cbn. by destruct (Ascii.eqb_spec c stop).
      * intros (H & Hcount & Hr). destruct run as [|a run].
        -- rewrite append_empty_l in H. subst r. cbn in Hr.
           rewrite andb_true_r in Hr. apply Ascii.eqb_eq in Hr. by subst.
        -- rewrite append_cons in H. injection H as -> ->.
           cbn in Hcount. destruct (Ascii.eqb a stop); [done|].
           by rewrite (proj2 (IH run r)).
Qed.

Lemma until_None (stop : ascii) (s : string) :
  Re.until stop s = None <-> Py.count stop s = 0%nat.
Proof.
  induction s as [|c s IH]; [done|].
  cbn [Re.until Py.count].
  destruct (Ascii.eqb c stop); [done|].
  destruct (Re.until stop s) as [[run r]|]; cbn.
  - split; [done|]. intros H. by apply IH in H.
  - split; [|done]. intros _. by apply IH.
Qed.

Lemma startswith_char (r : string) (c : ascii) :
  Py.startswith r (String c EmptyString) = true <-> exists r', r = String c r'.
Proof.
  destruct r as [|a r]; cbn.
  - split; [done|]. by intros [r' ?].
  - rewrite andb_true_r. split.
    + intros H. apply Ascii.eqb_eq in H as ->. eauto.
    + intros [r' [= -> _]]. apply Ascii.eqb_refl.
Qed.

Lemma strip_prefix_Some (p s r : string) :
  Json.strip_prefix p s = Some r <-> s = p +:+ r.
Proof.
  revert s. induction p as [|a p IH]; intros s; cbn [Json.strip_prefix].
  - cbn. split; [by intros [= ->]|by intros ->].
  - destruct s as [|b s]; [done|].
    rewrite append_cons.
    destruct (Ascii.eqb_spec a b) as [->|Hne].
    + rewrite IH. split; [by intros ->|by intros [= ->]].
    + split; [done|]. by intros [= -> _].
Qed.

Lemma startswith_strip_prefix (s p : string) :
  Py.startswith s p = true <-> exists r, s = p +:+ r.
Proof.
  revert s. induction p as [|a p IH]; intros s; cbn [Py.startswith].
  - split; [eauto|done].
  - destruct s as [|b s].
    + split; [done|]. by intros [r ?].
    + rewrite andb_true_iff, IH. split.
      * intros [Hab [r ->]]. apply Ascii.eqb_eq in Hab as ->. by exists r.
      * intros [r H]. rewrite append_cons in H. injection H as -> ->.
        split; [apply Ascii.eqb_refl|eauto].
Qed.

Section Search.
Context {A : Type} (match_here : string -> option (A * nat)).

Lemma search_None (s : string) :
  Re.search match_here s = None <->
  forall pre suf, s = pre +:+ suf -> match_here suf = None.
Proof.
  induction s as [|c s IH]; cbn [Re.search].
  - split.
    + destruct (match_here EmptyString) as [[g n]|] eqn:Hm; [done|].
      intros _ pre suf H. destruct pre; [|done]. rewrite append_empty_l in H. by subst.
    + intros H. by rewrite (H EmptyString EmptyString).
  - split.
    + destruct (match_here (String c s)) as [[g n]|] eqn:Hm; [done|].
      intros Hs pre suf H. destruct pre as [|a pre].
      * rewrite append_empty_l in H. by subst.
      * rewrite append_cons in H. injection H as _ ->.
        by eapply (proj1 IH).
    + intros H. rewrite (H EmptyString (String c s)) by done.
      apply IH. intros pre suf ->. by apply (H (String c pre)).
Qed.

Lemma search_Some_split (s : string) (groups : A) :
  Re.search match_here s = Some groups ->
  exists pre suf len, s = pre +:+ suf /\ match_here suf = Some (groups, len).
Proof.
  induction s as [|c s IH]; cbn [Re.search].
  - destruct (match_here EmptyString) as [[g n]|] eqn:Hm; [|done].
    intros [= ->]. by exists EmptyString, EmptyString, n.
  - destruct (match_here (String c s)) as [[g n]|] eqn:Hm.
    + intros [= ->]. by exists EmptyString, (String c s), n.
    + intros H. destruct (IH H) as (pre & suf & len & -> & Hsuf).
      by exists (String c pre), suf, len.
Qed.

Lemma findall_nil (s : string) :
  Re.findall match_here s = [] <->
  forall pre c suf, s = pre +:+ String c suf -> match_here (String c suf) = None.
Proof.
  unfold Re.findall. induction s as [|c s IH]; cbn [Re.findall_from].
  - split; [|done]. intros _ pre c suf H. by destruct pre.
  - split.
    + destruct (match_here (String c s)) as [[g n]|] eqn:Hm; [done|].
      intros Hs pre a suf H. destruct pre as [|b pre].
      * rewrite append_empty_l in H. by rewrite <- H.
      * rewrite append_cons in H. injection H as _ ->.
        by eapply (proj1 IH).
    + intros H. rewrite (H EmptyString c s) by done.
      apply IH. intros pre a suf ->. by apply (H (String c pre)).
Qed.

End Search.

(** ** XML tool-call converter *)

Lemma match_function_tag_Some (s : string) :
  (exists group len, match_function_tag s = Some (group, len)) <->
  exists name post,
    s = "<function=" +:+ name +:+ ">" +:+ post
    /\ name <> EmptyString /\ Py.count ">" name = 0%nat.
Proof.
  unfold match_function_tag. split.
  - intros (group & len & H).
    destruct (Json.strip_prefix "<function=" s) as [r|] eqn:Hp; [|done].
    apply strip_prefix_Some in Hp as ->.
    destruct (Re.until ">" r) as [[[|c run] rest]|] eqn:Hu; [done| |done].
    apply until_Some in Hu as (-> & Hcount & Hrest).
    apply startswith_char in Hrest as [post ->].
    exists (String c run), post. done.
  - intros (name & post & -> & Hne & Hcount).
    destruct name as [|c name]; [done|].
    rewrite (proj2 (strip_prefix_Some "<function=" _ (String c name +:+ ">" +:+ post)))
      by done.
    rewrite (proj2 (until_Some ">" _ (String c name) (">" +:+ post))) by done.
    eauto.
Qed.

Lemma match_parameter_tag_Some (s : string) :
  (exists groups len, match_parameter_tag s = Some (groups, len)) <->
  exists key value post,
    s = "<parameter=" +:+ key +:+ ">" +:+ value +:+ "</parameter>" +:+ post
    /\ key <> EmptyString /\ Py.count ">" key = 0%nat
    /\ Py.count "<" value = 0%nat.
Proof.
  unfold match_parameter_tag. split.
  - intros (groups & len & H).
    destruct (Json.strip_prefix "<parameter=" s) as [r|] eqn:Hp; [|done].
    apply strip_prefix_Some in Hp as ->.
    destruct (Re.until ">" r) as [[[|c key] [|a r1]]|] eqn:Hu; try done.
    apply until_Some in Hu as (-> & Hcount & Hrest).
    apply startswith_char in Hrest as [r1' [= -> ->]].
    destruct (Re.until "<" r1') as [[body r2]|] eqn:Hb; [|done].
    apply until_Some in Hb as (-> & Hbody & _).
    destruct (Py.startswith r2 "</parameter>") eqn:Hclose; [|done].
    apply startswith_strip_prefix in Hclose as [post ->].
    exists (String c key), body, post. done.
  - intros (key & value & post & -> & Hne & Hcount & Hvalue).
    destruct key as [|c key]; [done|].
    rewrite (proj2 (strip_prefix_Some "<parameter=" _
      (String c key +:+ ">" +:+ value +:+ "</parameter>" +:+ post))) by done.
    rewrite (proj2 (until_Some ">" _ (String c key)
      (">" +:+ value +:+ "</parameter>" +:+ post))) by done.
    change (">" +:+ value +:+ "</parameter>" +:+ post)
      with (String ">" (value +:+ "</parameter>" +:+ post)).
    cbv beta iota.
    rewrite (proj2 (until_Some "<" _ value ("</parameter>" +:+ post))) by done.
    rewrite (proj2 (startswith_strip_prefix ("</parameter>" +:+ post) "</parameter>"))
      by eauto.
    eauto.
Qed.

Lemma search_function_tag_None (content : string) :
  Re.search match_function_tag content = None <-> ~ has_function_tag content.
Proof.
  rewrite search_None. unfold has_function_tag. split.
  - intros H (pre & name & post & -> & Hne & Hcount).
    specialize (H pre _ eq_refl).
    destruct (proj2 (match_function_tag_Some
      ("<function=" +:+ name +:+ ">" +:+ post))) as (g & n & Hm); [eauto|].
    congruence.
  - intros H pre suf ->.
    destruct (match_function_tag suf) as [[g n]|] eqn:Hm; [|done].
    destruct (proj1 (match_function_tag_Some suf)) as (name & post & -> & ? & ?);
      [eauto|].
    destruct H. by exists pre, name, post.
Qed.

Lemma findall_parameter_tag_nil (content : string) :
  Re.findall match_parameter_tag content = [] <-> ~ has_parameter_tag content.
Proof.
  rewrite findall_nil. unfold has_parameter_tag. split.
  - intros H (pre & key & value & post & -> & Hne & Hcount & Hvalue).
    specialize (H pre "<"%char ("parameter=" +:+ key +:+ ">" +:+ value
                         +:+ "</parameter>" +:+ post) eq_refl).
    destruct (proj2 (match_parameter_tag_Some
      ("<parameter=" +:+ key +:+ ">" +:+ value +:+ "</parameter>" +:+ post)))
      as (g & n & Hm); [by exists key, value, post|].
    change ("<parameter=" +:+ key +:+ ">" +:+ value +:+ "</parameter>" +:+ post)
      with (String "<" ("parameter=" +:+ key +:+ ">" +:+ value
                        +:+ "</parameter>" +:+ post)) in Hm.
    congruence.
  - intros H pre c suf ->.
    destruct (match_parameter_tag (String c suf)) as [[g n]|] eqn:Hm; [|done].
    destruct (proj1 (match_parameter_tag_Some (String c suf)))
      as (key & value & post & Heq & ? & ? & ?); [eauto|].
    destruct H. exists pre, key, value, post. by rewrite Heq.
Qed.

Lemma has_function_tag_decidable (content : string) :
  has_function_tag content \/ ~ has_function_tag content.
Proof.
  destruct (Re.search match_function_tag content) as [name|] eqn:Hs.
  - left. apply search_Some_split in Hs as (pre & suf & len & -> & Hm).
    destruct (proj1 (match_function_tag_Some suf)) as (n & post & -> & ? & ?);
      [eauto|].
    by exists pre, n, post.
  - right. by apply search_function_tag_None.
Qed.

Lemma has_parameter_tag_decidable (content : string) :
  has_parameter_tag content \/ ~ has_parameter_tag content.
Proof.
  destruct (Re.search match_parameter_tag content) as [groups|] eqn:Hs.
  - left. apply search_Some_split in Hs as (pre & suf & len & -> & Hm).
    destruct (proj1 (match_parameter_tag_Some suf))
      as (key & value & post & -> & ? & ? & ?); [eauto|].
    by exists pre, key, value, post.
  - right. intros (pre & key & value & post & -> & Hne & Hcount & Hvalue).
    pose proof (proj1 (search_None match_parameter_tag _) Hs pre _ eq_refl) as Hm.
    destruct (proj2 (match_parameter_tag_Some
      ("<parameter=" +:+ key +:+ ">" +:+ value +:+ "</parameter>" +:+ post)))
      as (g & n & Hm'); [by exists key, value, post|].
    congruence.
Qed.

Lemma dict_get_set (d : dict) (k k' : string) (v : json) :
  Dict.get (Dict.set d k v) k'
  = if String.eqb k k' then Some v else Dict.get d k'.
Proof.
  induction d as [|[k0 v0] d IH]; cbn [Dict.set Dict.get]; [done|].
  destruct (String.eqb_spec k0 k) as [->|Hne]; cbn [Dict.get].
  - by destruct (String.eqb k k').
  - destruct (String.eqb_spec k0 k') as [->|Hne'].
    + destruct (String.eqb_spec k k'); [by subst|done].
    + apply IH.
Qed.

Lemma xml_arguments_get (param_matches : list (string * string))
    (args_obj : dict) (key : string) :
  Dict.get
    (fold_left
       (fun args_obj m =>
          Dict.set args_obj (Py.strip (fst m)) (JStr (Py.strip (snd m))))
       param_matches args_obj) key
  = match last_parameter param_matches key with
    | Some v => Some v
    | None => Dict.get args_obj key
    end.
Proof.
  revert args_obj.
  induction param_matches as [|m ms IH]; intros args_obj; [done|].
  cbn [fold_left]. rewrite IH. unfold last_parameter. cbn [List.filter].
  rewrite dict_get_set.
  destruct (String.eqb (Py.strip m.1) key); [|done].
  rewrite last_cons.
  by destruct (last (List.filter _ ms)).
Qed.

Lemma xml_arguments_not_empty (m : string * string)
    (ms : list (string * string)) :
  xml_arguments (m :: ms) <> [].
Proof.
  intros H.
  pose proof (xml_arguments_get (m :: ms) []) as Hget.
  fold (xml_arguments (m :: ms)) in Hget. rewrite H in Hget.
  destruct (last (m :: ms)) as [m'|] eqn:Hlast.
  - specialize (Hget (Py.strip m'.1)).
    unfold last_parameter in Hget.
    assert (Hin : m' ∈ List.filter
                   (fun m0 => String.eqb (Py.strip m0.1) (Py.strip m'.1)) (m :: ms)).
    { apply list_elem_of_In, filter_In. split.
      - apply list_elem_of_In. by eapply last_Some_elem_of.
      - apply String.eqb_refl. }
    destruct (last (List.filter _ (m :: ms))) as [m''|] eqn:Hl; [done|].
    apply last_None in Hl. rewrite Hl in Hin. by apply not_elem_of_nil in Hin.
  - by apply last_None in Hlast.
Qed.

(** The converter returns no call exactly when the content holds no
    function tag or no parameter tag, so a call it returns never has an
    empty argument map. A call it returns carries the trimmed name of the
    leftmost function tag, and its map gives for every key the trimmed value
    of the last parameter tag with that (trimmed) name, and nothing for any
    other key; trimming a value of the map again changes nothing. *)
Theorem detect_and_convert_xml_tool_call_spec (content : string) :
  match detect_and_convert_xml_tool_call content with
  | None => ~ has_function_tag content \/ ~ has_parameter_tag content
  | Some (function_name, arguments) =>
      has_function_tag content /\ has_parameter_tag content
      /\ arguments <> []
      /\ (exists name, Re.search match_function_tag content = Some name
                       /\ function_name = Py.strip name)
      /\ (forall key,
            Dict.get arguments key
            = last_parameter (Re.findall match_parameter_tag content) key)
      /\ (forall key value,
            Dict.get arguments key = Some value ->
            exists text, value = JStr text /\ Py.strip text = text)
  end.
Proof.
  unfold detect_and_convert_xml_tool_call.
  destruct (Re.search match_function_tag content) as [name|] eqn:Hs.
  - assert (Hf : has_function_tag content).
    { destruct (has_function_tag_decidable content) as [H|H]; [done|].
      apply search_function_tag_None in H. congruence. }
    destruct (Re.findall match_parameter_tag content) as [|m ms] eqn:Hp.
    + right. by apply findall_parameter_tag_nil.
    + assert (Hget : forall key,
        Dict.get (xml_arguments (m :: ms)) key = last_parameter (m :: ms) key).
      { intros key. unfold xml_arguments. rewrite xml_arguments_get.
        by destruct (last_parameter (m :: ms) key). }
      split; [done|]. split.
      { destruct (has_parameter_tag_decidable content) as [H|H]; [done|].
        apply findall_parameter_tag_nil in H. congruence. }
      split; [apply xml_arguments_not_empty|].
      split; [by exists name|]. split; [done|].
      intros key value Hv. rewrite Hget in Hv. unfold last_parameter in Hv.
      destruct (last _) as [m'|]; [|done]. cbn in Hv. injection Hv as <-.
      eexists. split; [done|apply strip_idempotent].
  - left. by apply search_function_tag_None.
Qed.

Example detect_and_convert_xml_tool_call_glob :
  detect_and_convert_xml_tool_call
    "<function=glob><parameter=pattern>*.py</parameter></function>"
  = Some ("glob", [("pattern", JStr "*.py")]).
Proof. reflexivity. Qed.

(** The content delta of the example is cleared and the call is put in its
    place, within the same event. *)
Example process_sse_event_xml_content :
  (process_sse_event _get_default_config example_entropy example_states
     (example_event
        (Some "<function=glob><parameter=pattern>*.py</parameter></function>")
        None None) "req").2
  = Returned
      (example_event (Some EmptyString)
         (Some [ToolCall.synthesized "call_000000000000400080000000" "glob"
                  (Py.dq "{'pattern': '*.py'}")])
         None).
Proof. vm_compute. reflexivity. Qed.

(** ** Generated identifiers *)

Lemma hex_digit_lower_nat (n : nat) :
  (n < 16)%nat -> is_lower_hex (Json.hex_digit (N.of_nat n)) = true.
Proof.
  intros H. do 16 (destruct n as [|n]; [reflexivity|]). lia.
Qed.

Lemma hex_digit_lower (d : N) :
  (d < 16)%N -> is_lower_hex (Json.hex_digit d) = true.
Proof.
  intros H. rewrite <- (N2Nat.id d). apply hex_digit_lower_nat. lia.
Qed.

Lemma all_chars_append (p : ascii -> bool) (s t : string) :
  all_chars p (s +:+ t) = all_chars p s && all_chars p t.
Proof.
  induction s as [|c s IH]; [done|].
  rewrite append_cons. cbn [all_chars]. by rewrite IH, andb_assoc.
Qed.

Lemma hex_digits_form (digits : nat) (n : N) :
  String.length (hex_digits digits n) = digits
  /\ all_chars is_lower_hex (hex_digits digits n) = true.
Proof.
  revert n. induction digits as [|k IH]; intros n; [done|].
  cbn [hex_digits]. destruct (IH (n / 16)%N) as [Hlen Hall].
  rewrite length_append, all_chars_append, Hlen, Hall. cbn.
  rewrite hex_digit_lower by (apply N.mod_lt; lia). split; [lia|done].
Qed.

Lemma str_take_form (p : ascii -> bool) (k : nat) (s : string) :
  (k <= String.length s)%nat ->
  all_chars p s = true ->
  String.length (str_take k s) = k /\ all_chars p (str_take k s) = true.
Proof.
  revert s. induction k as [|k IH]; intros s Hlen Hall; [done|].
  destruct s as [|c s]; cbn in Hlen; [lia|].
  cbn in Hall. apply andb_true_iff in Hall as [Hc Hs].
  destruct (IH s) as [Hl Ha]; [lia|done|].
  cbn. by rewrite Hl, Hc, Ha.
Qed.

Lemma fresh_call_id_form (random_bits : N) :
  is_generated_call_id (fresh_call_id random_bits) = true.
Proof.
  unfold is_generated_call_id, fresh_call_id.
  rewrite (proj2 (strip_prefix_Some "call_" _ (str_take 24 (uuid4_hex random_bits))))
    by done.
  destruct (hex_digits_form 32 (uuid4_int random_bits)) as [Hlen Hall].
  destruct (str_take_form is_lower_hex 24 (uuid4_hex random_bits)) as [Hl Ha].
  - unfold uuid4_hex. rewrite Hlen. lia.
  - done.
  - by rewrite Hl, Ha.
Qed.

(** ** Sorting the fragments of an event *)

Lemma insert_by_index_perm (x : Z * string) (l : list (Z * string)) :
  insert_by_index x l ≡ₚ x :: l.
Proof.
  induction l as [|y l IH]; [done|].
  cbn. destruct (x.1 <=? y.1); [done|].
  rewrite IH. apply Permutation_swap.
Qed.


Lemma insert_by_index_sorted (x : Z * string) (l : list (Z * string)) :
  StronglySorted index_le l -> StronglySorted index_le (insert_by_index x l).
Proof.
  induction 1 as [|y l Hl IH Hy]; cbn.
  - repeat constructor.
  - destruct (Z.leb_spec x.1 y.1) as [Hle|Hgt].
    + constructor; [by constructor|].
      constructor; [done|].
      eapply Forall_impl; [exact Hy|]. unfold index_le. intros z Hz. lia.
    + constructor; [done|].
      rewrite insert_by_index_perm. constructor; [|done].
      unfold index_le. lia.
Qed.

Lemma sort_by_index_sorted (l : list (Z * string)) :
  StronglySorted index_le (sort_by_index l).
Proof.
  induction l as [|x l IH]; [constructor|].
  cbn. by apply insert_by_index_sorted.
Qed.

(** The sort is stable: the fragments of one index keep the order they have
    in the event. *)
Lemma insert_by_index_stable (i : Z) (x : Z * string) (l : list (Z * string)) :
  StronglySorted index_le l ->
  List.filter (fun f => f.1 =? i) (insert_by_index x l)
  = List.filter (fun f => f.1 =? i) (x :: l).
Proof.
  induction 1 as [|y l Hl IH Hy]; [done|].
  cbn [insert_by_index].
  destruct (Z.leb_spec x.1 y.1) as [Hle|Hgt]; [done|].
  cbn [List.filter] in IH |- *. rewrite IH.
  destruct (Z.eqb_spec x.1 i) as [Hx|Hx]; [|done].
  destruct (Z.eqb_spec y.1 i) as [Hy'|Hy']; [lia|done].
Qed.

Lemma sort_by_index_stable (i : Z) (l : list (Z * string)) :
  List.filter (fun f => f.1 =? i) (sort_by_index l)
  = List.filter (fun f => f.1 =? i) l.
Proof.
  induction l as [|x l IH]; [done|].
  cbn [sort_by_index].
  rewrite insert_by_index_stable by apply sort_by_index_sorted.
  cbn [List.filter]. by rewrite IH.
Qed.

(** ** Stream event processor: anonymous fragments *)


Lemma is_json_complete_empty : is_json_complete EmptyString = false.
Proof. reflexivity. Qed.

Lemma truthy_and_complete (text : string) :
  Py.truthy text && is_json_complete text = is_json_complete text.
Proof. by destruct text. Qed.

Section Fragments.
Context (cfg : config) (entropy : nat -> N).

Lemma get_fixed_arguments_accepted (buffer : ToolBuffer.t) :
  get_fixed_arguments cfg buffer
  = match accepted cfg (ToolBuffer.tool_name buffer) (ToolBuffer.content buffer) with
    | Some r => r
    | None => (ToolBuffer.tool_name buffer, EmptyString)
    end.
Proof.
  unfold get_fixed_arguments, accepted.
  destruct (Json.loads (ToolBuffer.content buffer)) as [args_obj|]; cbn; [|done].
  by destruct (apply_fixes cfg (ToolBuffer.tool_name buffer) args_obj) as [[? ?]|].
Qed.


End Fragments.


Section FragmentEvents.
Context (cfg : config) (entropy : nat -> N).



End FragmentEvents.


(** Two fragments of one event, given out of order, are joined by index and
    replaced by one synthesized call. *)
Example process_sse_event_fragments_by_index :
  (process_sse_event _get_default_config example_entropy example_states
     (example_event None
        (Some [example_tool (Some 1) None None (Some (Py.dq "ttern': '*'}"));
               example_tool (Some 0) None None (Some (Py.dq "{'pa"))])
        None) "req").2
  = Returned
      (example_event None
         (Some [ToolCall.synthesized "call_000000000000400080000000" "glob"
                  (Py.dq "{'pattern': '*'}")])
         None).
Proof. vm_compute. reflexivity. Qed.

(** The three fragments of the specification, one event each: nothing is
    sent for the first two, the third completes the call. *)
Example process_sse_event_three_fragments :
  let fragment text :=
    example_event None (Some [example_tool (Some 0) None None (Some text)]) None in
  let run states event :=
    process_sse_event _get_default_config example_entropy states event "req" in
  let r1 := run example_states (fragment "{") in
  let r2 := run r1.1 (fragment (Py.dq "'pattern': '**/*.py'")) in
  let r3 := run r2.1 (fragment "}") in
  r1.2 = Returned (example_event None None None)
  /\ r2.2 = Returned (example_event None None None)
  /\ shared_content (state_of r2) = Py.dq "{'pattern': '**/*.py'"
  /\ r3.2 = Returned
       (example_event None
          (Some [ToolCall.synthesized "call_000000000000400080000000" "glob"
                   (Py.dq "{'pattern': '**/*.py'}")])
          None)
  /\ RequestState.tool_buffers (state_of r3) !! main_buffer_key = None.
Proof. repeat split; vm_compute; reflexivity. Qed.

(** ** Stream event processor: named continuations *)

Lemma ensure_buffer_lookup (request_id key tool_name : string)
    (m : gmap string ToolBuffer.t) :
  ensure_buffer request_id key tool_name m !! key
  = Some (default (ToolBuffer.make key request_id tool_name) (m !! key)).
Proof.
  unfold ensure_buffer. destruct (m !! key) as [b|] eqn:Hb; [done|].
  by rewrite lookup_insert_eq.
Qed.

Lemma ensure_buffer_lookup_ne (request_id key key' tool_name : string)
    (m : gmap string ToolBuffer.t) :
  key <> key' ->
  ensure_buffer request_id key tool_name m !! key' = m !! key'.
Proof.
  intros Hne. unfold ensure_buffer. destruct (m !! key); [done|].
  by rewrite lookup_insert_ne.
Qed.

Lemma truthy_append_r (s t : string) :
  Py.truthy t = true -> Py.truthy (s +:+ t) = true.
Proof. destruct s; [done|]. by rewrite append_cons. Qed.

Lemma truthy_strip (s : string) :
  Py.truthy (Py.strip s) = true -> Py.truthy s = true.
Proof. by destruct s. Qed.

Section Continuation.
Context (cfg : config) (entropy : nat -> N).

(** One turn of the loop over the named tool calls of
    [process_sse_event]. A tool call with an identifier other than the key of
    the shared buffer and with non-blank argument text, whose accumulated text
    is not syntactically complete, is marked as suppressed, its own buffer is
    dropped, and its text is merged into the shared buffer: behind the shared
    text when that text begins, after leading blanks, with an opening brace
    or bracket, in front of it otherwise. The merged text is checked at
    once: when it is complete, parses as JSON and comes out of the fix engine
    with a non-empty argument text and tool name, one synthesized call is
    appended to [delta["tool_calls"]] and the shared buffer is deleted;
    otherwise nothing is emitted and the shared buffer holds the merged
    text. No exception is raised and no other buffer changes. *)
Theorem process_named_call_continuation (request_id : string) (attached : bool)
    (pos : nat) (tool : ToolCall.t) (f : Func.t) (call_id frag : string)
    (w : work) :
  ToolCall.id tool = Some call_id ->
  call_id <> main_buffer_key ->
  ToolCall.function tool = Some f ->
  Func.arguments f = Some frag ->
  Py.truthy (Py.strip frag) = true ->
  is_json_complete (accumulated (w_state w) call_id frag) = false ->
  let st := w_state w in
  let text := merged (shared_content st) (accumulated st call_id frag) in
  let name := merged_tool_name st call_id (default EmptyString (Func.name f)) in
  let marked :=
    if attached then <[pos := ToolCall.suppress tool]> (w_tool_calls w)
    else w_tool_calls w in
  let fixed_call_id := fresh_call_id (entropy (w_draws w)) in
  let r := process_named_call cfg entropy request_id attached (pos, tool) w in
  let buffers := RequestState.tool_buffers (w_state r.1) in
  let held :=
    w_tool_calls r.1 = marked
    /\ is_Some (buffers !! main_buffer_key)
    /\ shared_content (w_state r.1) = text
    /\ shared_tool_name (w_state r.1) = name in
  r.2 = None
  /\ buffers !! call_id = None
  /\ (forall key, key <> main_buffer_key -> key <> call_id ->
        buffers !! key = RequestState.tool_buffers st !! key)
  /\ match (if is_json_complete text then accepted cfg name text else None) with
     | Some (final_tool_name, fixed_args) =>
         if Py.truthy fixed_args && Py.truthy final_tool_name then
           w_tool_calls r.1
           = marked ++ [ToolCall.synthesized fixed_call_id final_tool_name fixed_args]
           /\ buffers !! main_buffer_key = None
         else held
     | None => held
     end.
Proof.
  intros Hid Hmain Hf Hfrag Hblank Hincomplete. cbv zeta.
  unfold process_named_call.
  rewrite Hid, Hf. cbn [default from_option id]. rewrite Hfrag.
  set (bufs := RequestState.tool_buffers (w_state w)).
  set (tool_name := from_option id EmptyString (Func.name f)).
  rewrite ensure_buffer_lookup. cbn [default from_option id].
  set (buffer0 := from_option id (ToolBuffer.make call_id request_id tool_name)
                    (bufs !! call_id)).
  set (buffer := ToolBuffer.update_content frag buffer0).
  assert (Hacc : ToolBuffer.content buffer = accumulated (w_state w) call_id frag).
  { unfold buffer, buffer0, accumulated. fold bufs. by destruct (bufs !! call_id). }
  assert (Htruthy : Py.truthy (ToolBuffer.content buffer) = true).
  { rewrite Hacc. apply truthy_append_r. by apply truthy_strip. }
  assert (Hinc : is_json_complete (ToolBuffer.content buffer) = false)
    by (by rewrite Hacc).
  rewrite Hinc, Htruthy. cbn [andb].
  rewrite ensure_buffer_lookup.
  rewrite lookup_insert_ne by done.
  rewrite ensure_buffer_lookup_ne by done.
  cbn [default from_option id].
  set (main0 := from_option id (ToolBuffer.make main_buffer_key request_id EmptyString)
                  (bufs !! main_buffer_key)).
  assert (Hshared : ToolBuffer.content main0 = shared_content (w_state w)).
  { unfold main0, shared_content. fold bufs. by destruct (bufs !! main_buffer_key). }
  assert (Hsname : ToolBuffer.tool_name main0 = shared_tool_name (w_state w)).
  { unfold main0, shared_tool_name. fold bufs. by destruct (bufs !! main_buffer_key). }
  set (main1 :=
    if Py.truthy (ToolBuffer.content main0)
       && starts_with_opener_after_blanks (ToolBuffer.content main0)
    then ToolBuffer.set_content
           (ToolBuffer.content main0 +:+ ToolBuffer.content buffer) main0
    else ToolBuffer.set_content
           (ToolBuffer.content buffer +:+ ToolBuffer.content main0) main0).
  assert (Hm1c : ToolBuffer.content main1
                 = merged (shared_content (w_state w))
                     (accumulated (w_state w) call_id frag)).
  { unfold main1, merged. rewrite Hshared, Hacc.
    by destruct (Py.truthy (shared_content (w_state w))
                 && starts_with_opener_after_blanks (shared_content (w_state w))). }
  assert (Hm1n : ToolBuffer.tool_name main1 = ToolBuffer.tool_name main0).
  { unfold main1. by destruct (_ && _). }
  set (main2 :=
    if negb (Py.truthy (ToolBuffer.tool_name main1)) then
      ToolBuffer.set_tool_name
        (if Py.truthy (ToolBuffer.tool_name buffer)
         then ToolBuffer.tool_name buffer else tool_name) main1
    else main1).
  assert (Hm2c : ToolBuffer.content main2 = ToolBuffer.content main1).
  { unfold main2. by destruct (negb _). }
  assert (Hm2n : ToolBuffer.tool_name main2
                 = merged_tool_name (w_state w) call_id tool_name).
  { unfold main2, merged_tool_name. rewrite Hm1n, Hsname. fold bufs.
    destruct (Py.truthy (shared_tool_name (w_state w))) eqn:Ht; cbn [negb].
    - by rewrite Hm1n, Hsname.
    - unfold buffer, buffer0. cbn.
      destruct (bufs !! call_id) as [b|]; cbn; [done|].
      by destruct (Py.truthy tool_name). }
  set (bufs5 := delete call_id
                  (<[main_buffer_key := main2]>
                     (ensure_buffer request_id main_buffer_key EmptyString
                        (<[call_id := buffer]>
                           (ensure_buffer request_id call_id tool_name bufs))))).
  assert (Hb5main : bufs5 !! main_buffer_key = Some main2).
  { unfold bufs5. rewrite lookup_delete_ne by done. by rewrite lookup_insert_eq. }
  assert (Hb5id : bufs5 !! call_id = None).
  { unfold bufs5. by rewrite lookup_delete_eq. }
  assert (Hb5other : forall key, key <> main_buffer_key -> key <> call_id ->
                       bufs5 !! key = bufs !! key).
  { intros key H1 H2. unfold bufs5.
    rewrite lookup_delete_ne by done. rewrite lookup_insert_ne by done.
    rewrite ensure_buffer_lookup_ne by done. rewrite lookup_insert_ne by done.
    by rewrite ensure_buffer_lookup_ne. }
  rewrite Hm2c, Hm1c, get_fixed_arguments_accepted, Hm2c, Hm1c, Hm2n.
  set (text := merged (shared_content (w_state w))
                 (accumulated (w_state w) call_id frag)).
  set (name := merged_tool_name (w_state w) call_id tool_name).
  assert (Hheld : forall tool_calls draws,
    let w' := {| w_state := RequestState.set_tool_buffers bufs5 (w_state w);
                 w_tool_calls := tool_calls; w_draws := draws |} in
    is_Some (RequestState.tool_buffers (w_state w') !! main_buffer_key)
    /\ shared_content (w_state w') = text
    /\ shared_tool_name (w_state w') = name).
  { intros tool_calls draws. unfold shared_content, shared_tool_name. cbn.
    rewrite Hb5main. rewrite Hm2c, Hm1c, Hm2n. eauto. }
  destruct (is_json_complete text).
  - destruct (accepted cfg name text) as [[final_tool_name fixed_args]|].
    + destruct (Py.truthy fixed_args && Py.truthy final_tool_name).
      * rewrite Hb5main. cbn.
        split; [done|]. split; [by rewrite lookup_delete_ne|].
        split.
        { intros key H1 H2. rewrite lookup_delete_ne by done. by apply Hb5other. }
        split; [done|by rewrite lookup_delete_eq].
      * cbn. split; [done|]. split; [done|]. split; [done|].
        split; [done|]. apply (Hheld [] O).
    + cbn [Py.truthy andb]. cbn.
      split; [done|]. split; [done|]. split; [done|].
      split; [done|]. apply (Hheld [] O).
  - cbn. split; [done|]. split; [done|]. split; [done|].
    split; [done|]. apply (Hheld [] O).
Qed.

End Continuation.

Lemma process_named_call_continuation_witness :
  is_json_complete (accumulated (w_state example_brace_work) "X" "{") = false
  /\ (process_named_call _get_default_config example_entropy "req" true
        (O, example_brace_tool) example_brace_work).2 = None
  /\ RequestState.tool_buffers
       (w_state (process_named_call _get_default_config example_entropy "req" true
                   (O, example_brace_tool) example_brace_work).1) !! "X" = None.
Proof.
  split; [reflexivity|].
  pose proof (process_named_call_continuation _get_default_config example_entropy
                "req" true O example_brace_tool example_brace_func "X" "{"
                example_brace_work) as H.
  cbv zeta in H.
  destruct H as (H1 & H2 & _); [reflexivity|discriminate|reflexivity|reflexivity
                               |reflexivity|reflexivity|].
  split; [exact H1|exact H2].
Defined.

(** The split-brace example of the specification, the named call and the
    fragment in two events: the named call is held back and the fragment
    completes it. *)
Example process_sse_event_split_brace_two_events :
  let run states event :=
    process_sse_event _get_default_config example_entropy states event "req" in
  let r1 := run example_states (example_event None (Some [example_brace_tool]) None) in
  let r2 :=
    run r1.1
      (example_event None
         (Some [example_tool (Some 0) None None (Some (Py.dq "'pattern': '**/*.py'}"))])
         None) in
  r1.2 = Returned (example_event None None None)
  /\ shared_content (state_of r1) = "{"
  /\ shared_tool_name (state_of r1) = "glob"
  /\ r2.2 = Returned
       (example_event None
          (Some [ToolCall.synthesized "call_000000000000400080000000" "glob"
                   (Py.dq "{'pattern': '**/*.py'}")])
          None)
  /\ RequestState.tool_buffers (state_of r2) !! main_buffer_key = None.
Proof. repeat split; vm_compute; reflexivity. Qed.

(** The same example with the named call and the fragment in one event: the
    fragment is buffered first, the named call is put in front of it, and the
    merged call is emitted within the event. *)
Example process_sse_event_split_brace_one_event :
  let r :=
    process_sse_event _get_default_config example_entropy example_states
      (example_event None
         (Some [example_brace_tool;
                example_tool (Some 0) None None (Some (Py.dq "'pattern': '**/*.py'}"))])
         None) "req" in
  r.2 = Returned
      (example_event None
         (Some [ToolCall.synthesized "call_000000000000400080000000" "glob"
                  (Py.dq "{'pattern': '**/*.py'}")])
         None)
  /\ RequestState.tool_buffers (state_of r) !! main_buffer_key = None.
Proof. repeat split; vm_compute; reflexivity. Qed.


(** The shared text is taken as the prefix also when blanks come before its
    opening brace. *)
Example process_sse_event_merge_after_blanks :
  let run states event :=
    process_sse_event _get_default_config example_entropy states event "req" in
  let r1 :=
    run example_states
      (example_event None (Some [example_tool (Some 0) None None (Some " {")]) None) in
  let r2 :=
    run r1.1
      (example_event None
         (Some [example_tool (Some 0) (Some "X") (Some "glob")
                  (Some (Py.dq "'pattern': '*'}"))])
         None) in
  Py.startswith (shared_content (state_of r1)) "{" = false
  /\ r2.2 = Returned
       (example_event None
          (Some [ToolCall.synthesized "call_000000000000400080000000" "glob"
                   (Py.dq "{'pattern': '*'}")])
          None).
Proof. repeat split; vm_compute; reflexivity. Qed.

(** A named call whose identifier is the key of the shared buffer: the
    buffer of the call and the shared buffer are one object, the text is
    doubled, and the [del] of the shared buffer raises [KeyError]. *)
Example process_sse_event_main_key_identifier :
  (process_sse_event _get_default_config example_entropy example_states
     (example_event None
        (Some [example_tool (Some 0) (Some "main_tool_call") (Some "glob")
                 (Some (Py.dq "[']"))])
        None) "req").2
  = Raised (KeyError "main_tool_call").
Proof. vm_compute. reflexivity. Qed.

(** C9, the claim as written fails: [apply_fixes] lower-cases every name it
    is given, but a call does not always pass through it. The arguments
    [{x}] of this named [Glob] call are balanced but not JSON and none of the
    recovery candidates parses, so [apply_fixes] is never called and the call
    is written to the client with the name as it came. *)
Lemma relay_event_unrecoverable_named_call :
  (relay_event _get_default_config example_entropy example_states
     (example_event None
        (Some [example_tool (Some 0) (Some "call_1") (Some "Glob") (Some "{x}")])
        None) "req").1.2
  = WroteEvent
      (example_event None
         (Some [example_tool (Some 0) (Some "call_1") (Some "Glob") (Some "{x}")])
         None).
Proof. vm_compute. reflexivity. Qed.

(** * Further properties of the code *)

(** ** Buffers at the end of the tool calls: [process_all_buffers] *)

Lemma process_all_buffers_lookup (cfg : config) (st : RequestState.t)
    (key : string) :
  RequestState.tool_buffers (process_all_buffers cfg st) !! key
  = RequestState.tool_buffers st !! key ≫= process_one_buffer cfg key.
Proof. unfold process_all_buffers. cbn. apply map_lookup_imap. Qed.

(** ** Stream event processor: isolation of the requests *)

(** An event of one request leaves the state of every other request as it
    was, in [process_sse_event] and in the relay of [handle_request]; and no
    request gains or loses its state. *)
Theorem process_sse_event_other_requests (cfg : config) (entropy : nat -> N)
    (request_states : gmap string RequestState.t) (event : Event.t)
    (request_id other : string) :
  other <> request_id ->
  (process_sse_event cfg entropy request_states event request_id).1 !! other
  = request_states !! other
  /\ (relay_event cfg entropy request_states event request_id).1.1 !! other
     = request_states !! other
  /\ (is_Some ((relay_event cfg entropy request_states event request_id).1.1
               !! request_id)
      <-> is_Some (request_states !! request_id)).
Proof.
  intros Hne.
  assert (Hp : forall k,
    (k <> request_id ->
     (process_sse_event cfg entropy request_states event request_id).1 !! k
     = request_states !! k)
    /\ (is_Some ((process_sse_event cfg entropy request_states event request_id).1
                 !! request_id)
        <-> is_Some (request_states !! request_id))).
  { intros k. unfold process_sse_event.
    destruct (request_states !! request_id) as [st|] eqn:Hst;
      [|cbn; by rewrite Hst].
    destruct (Event.choices event) as [[|choice others]|]; cbn;
      [by rewrite Hst| |by rewrite Hst].
    destruct (process_choice _ _ _ _ _) as [st' [c|e]]; cbn;
      (split; [intros Hk; by rewrite lookup_insert_ne|]);
      rewrite lookup_insert_eq; split; eauto. }
  split; [by apply Hp|].
  unfold relay_event.
  destruct (process_sse_event cfg entropy request_states event request_id)
    as [states1 [fixed_event|e]]; cbn in Hp |- *.
  - destruct (Event.choices fixed_event) as [[|choice others]|];
      [split; [by apply Hp|apply (Hp other)]| |].
    + destruct (Choice.delta choice ≫= Delta.tool_calls) as [tool_calls|];
        [|split; [by apply Hp|apply (Hp other)]].
      destruct (states1 !! request_id) as [req_state|] eqn:Hreq;
        [|cbn; split; [by apply Hp|rewrite Hreq; apply (Hp other)]].
      destruct (record_signatures _ _) as [sent log]. cbn.
      split.
      * rewrite lookup_insert_ne by done. by apply Hp.
      * rewrite lookup_insert_eq. destruct (Hp other) as [_ [H1 H2]].
        split; eauto.
    + cbn. split; [by apply Hp|apply (Hp other)].
  - split; [by apply Hp|apply (Hp other)].
Qed.

Lemma process_sse_event_other_requests_witness :
  "other" <> "req"
  /\ (relay_event _get_default_config example_entropy example_two_states
        (example_event None
           (Some [example_tool (Some 0) (Some "call_1") (Some "glob") (Some "{}")])
           None) "req").1.1 !! "other"
     = Some (RequestState.make "other").
Proof.
  split; [done|].
  change (Some (RequestState.make "other")) with (example_two_states !! "other").
  apply (process_sse_event_other_requests _get_default_config example_entropy
           example_two_states
           (example_event None
              (Some [example_tool (Some 0) (Some "call_1") (Some "glob") (Some "{}")])
              None) "req" "other").
  done.
Defined.

(** ** Stream event processor: what reaches the client *)

Section Outgoing.
Context (cfg : config) (entropy : nat -> N).

Lemma process_choice_tool_calls (request_id : string) (st st' : RequestState.t)
    (choice choice' : Choice.t) :
  process_choice cfg entropy request_id st choice = (st', Returned choice') ->
  match Choice.delta choice' ≫= Delta.tool_calls with
  | Some tool_calls =>
      tool_calls <> []
      /\ Forall (fun tool => ToolCall._suppress tool = false) tool_calls
  | None => True
  end.
Proof.
  unfold process_choice.
  destruct (Choice.delta choice) as [delta|] eqn:Hd; cbn [default from_option id].
  - destruct (process_content _ _ _ _) as [[st1 delta1] draws].
    destruct (Delta.tool_calls delta1) as [tool_calls|] eqn:Ht.
    + destruct (classify_tool_calls 0 tool_calls) as [[marked named] frags].
      destruct frags as [|frag frags];
        destruct (process_named_calls _ _ _ _ _ _) as [w' [e|]];
        try discriminate;
        intros [= <- <-]; cbn;
        (destruct (List.filter _ (w_tool_calls w')) as [|tool rest] eqn:Hf;
          cbn; [done|]);
        (split; [done|]);
        rewrite <- Hf; apply Forall_forall; intros x Hx;
        apply list_elem_of_In, filter_In in Hx as [_ Hx];
        by apply negb_true_iff in Hx.
    + intros [= <- <-]. cbn. by rewrite Ht.
  - cbn. intros [= _ <-]. by rewrite Hd.
Qed.

(** Whenever the request has its state, an event that [process_sse_event]
    returns never carries an empty [tool_calls] list in its first choice,
    nor a tool call marked as suppressed. *)
Theorem process_sse_event_no_suppressed
    (request_states : gmap string RequestState.t) (event : Event.t)
    (request_id : string) :
  is_Some (request_states !! request_id) ->
  match process_sse_event cfg entropy request_states event request_id with
  | (_, Returned event') =>
      match first_choice_tool_calls event' with
      | Some tool_calls =>
          tool_calls <> []
          /\ Forall (fun tool => ToolCall._suppress tool = false) tool_calls
      | None => True
      end
  | (_, Raised _) => True
  end.
Proof.
  intros [st Hst]. unfold process_sse_event. rewrite Hst.
  unfold first_choice_tool_calls.
  destruct (Event.choices event) as [[|choice others]|] eqn:Hch;
    [by rewrite Hch| |by rewrite Hch].
  destruct (process_choice cfg entropy request_id st choice)
    as [st' [choice'|e]] eqn:Hp; [|done].
  cbn. by eapply process_choice_tool_calls.
Qed.

End Outgoing.

Lemma process_sse_event_no_suppressed_witness :
  is_Some (example_states !! "req")
  /\ match process_sse_event _get_default_config example_entropy example_states
             (example_event None
                (Some [example_tool (Some 0) (Some "call_1") (Some "glob") (Some " ");
                       example_tool (Some 1) (Some "call_2") (Some "glob") (Some "{}")])
                None) "req" with
     | (_, Returned event') =>
         match first_choice_tool_calls event' with
         | Some tool_calls =>
             tool_calls <> []
             /\ Forall (fun tool => ToolCall._suppress tool = false) tool_calls
         | None => True
         end
     | (_, Raised _) => True
     end.
Proof.
  split; [by eexists|].
  apply (process_sse_event_no_suppressed _get_default_config example_entropy
           example_states
           (example_event None
              (Some [example_tool (Some 0) (Some "call_1") (Some "glob") (Some " ");
                     example_tool (Some 1) (Some "call_2") (Some "glob") (Some "{}")])
              None) "req").
  by eexists.
Defined.

(** ** Stream event processor: when it raises *)

Lemma classify_tool_calls_named (pos : nat) (tool_calls : list ToolCall.t)
    (p : nat) (tool : ToolCall.t) :
  (p, tool) ∈ (classify_tool_calls pos tool_calls).1.2 -> tool ∈ tool_calls.
Proof.
  revert pos. induction tool_calls as [|t rest IH]; intros pos.
  - cbn. by intros ?%not_elem_of_nil.
  - cbn [classify_tool_calls].
    specialize (IH (S pos)).
    destruct (classify_tool_calls (S pos) rest) as [[marked named] frags].
    cbn in IH.
    repeat case_match; cbn; intros Hel;
      try (apply elem_of_cons in Hel as [[= _ ->]|Hel]; [by left|]);
      right; by apply IH.
Qed.

Section Returns.
Context (cfg : config) (entropy : nat -> N).





End Returns.


(** ** Stream event processor: named headers *)

Lemma classify_named_headers (pos : nat) (tool_calls : list ToolCall.t) :
  forallb named_header tool_calls = true ->
  classify_tool_calls pos tool_calls
  = (List.map ToolCall.suppress tool_calls, [], []).
Proof.
  revert pos. induction tool_calls as [|tool rest IH]; intros pos H; [done|].
  cbn [forallb] in H. apply andb_true_iff in H as [Htool Hrest].
  cbn [classify_tool_calls List.map]. rewrite (IH (S pos) Hrest).
  unfold named_header in Htool.
  apply andb_true_iff in Htool as [Htool Hargs].
  apply andb_true_iff in Htool as [Hid Hname].
  apply negb_true_iff in Hargs.
  by rewrite Hid, Hname, Hargs.
Qed.

Lemma filter_suppressed (tool_calls : list ToolCall.t) :
  List.filter (fun tool => negb (ToolCall._suppress tool))
    (List.map ToolCall.suppress tool_calls) = [].
Proof. induction tool_calls as [|tool rest IH]; [done|]. cbn. apply IH. Qed.

(** An event that does not end the tool calls and whose first choice
    carries, without content, only named headers (an identifier, a tool name
    and blank or missing arguments): the headers are swallowed. The event
    goes out without the [tool_calls] key, the state of the request is as it
    was, no buffer created or changed, and nothing else of the event
    changes. *)
Theorem process_sse_event_named_headers (cfg : config) (entropy : nat -> N)
    (request_states : gmap string RequestState.t) (st : RequestState.t)
    (event : Event.t) (choice : Choice.t) (others : list Choice.t)
    (delta : Delta.t) (tool_calls : list ToolCall.t) (request_id : string) :
  request_states !! request_id = Some st ->
  Event.choices event = Some (choice :: others) ->
  Choice.delta choice = Some delta ->
  Py.truthy (default EmptyString (Delta.content delta)) = false ->
  Delta.tool_calls delta = Some tool_calls ->
  forallb named_header tool_calls = true ->
  finished_tool_calls (Choice.finish_reason choice) = false ->
  process_sse_event cfg entropy request_states event request_id
  = (<[request_id := st]> request_states,
     Returned
       (Event.set_choices
          (Choice.set_delta (Delta.set_tool_calls None delta) choice :: others)
          event)).
Proof.
  intros Hst Hch Hdelta Hcontent Hcalls Hheaders Hfinish.
  unfold process_sse_event. rewrite Hst, Hch.
  unfold process_choice, process_content.
  rewrite Hdelta. cbn [default from_option id].
  rewrite Hcontent, Hcalls.
  rewrite (classify_named_headers O _ Hheaders).
  cbn [process_named_calls w_state w_tool_calls].
  by rewrite filter_suppressed, Hfinish.
Qed.

Lemma process_sse_event_named_headers_witness :
  let tool_calls :=
    [example_tool (Some 0) (Some "call_1") (Some "glob") (Some " ");
     example_tool (Some 1) (Some "call_2") (Some "bash") None] in
  forallb named_header tool_calls = true
  /\ process_sse_event _get_default_config example_entropy example_states
       (example_event None (Some tool_calls) None) "req"
     = (<["req" := RequestState.make "req"]> example_states,
        Returned (example_event None None None)).
Proof.
  cbv zeta. split; [reflexivity|].
  apply (process_sse_event_named_headers _get_default_config example_entropy
           example_states (RequestState.make "req")
           (example_event None
              (Some [example_tool (Some 0) (Some "call_1") (Some "glob") (Some " ");
                     example_tool (Some 1) (Some "call_2") (Some "bash") None])
              None)
           {| Choice.delta :=
                Some {| Delta.content := None;
                        Delta.tool_calls :=
                          Some [example_tool (Some 0) (Some "call_1") (Some "glob")
                                  (Some " ");
                                example_tool (Some 1) (Some "call_2") (Some "bash")
                                  None];
                        Delta.extra := [] |};
              Choice.finish_reason := None; Choice.extra := [] |}
           []
           {| Delta.content := None;
              Delta.tool_calls :=
                Some [example_tool (Some 0) (Some "call_1") (Some "glob") (Some " ");
                      example_tool (Some 1) (Some "call_2") (Some "bash") None];
              Delta.extra := [] |}
           [example_tool (Some 0) (Some "call_1") (Some "glob") (Some " ");
            example_tool (Some 1) (Some "call_2") (Some "bash") None]
           "req");
    reflexivity.
Defined.

(** ** Stream event processor: the bound on the content buffer *)

Section ContentBuffer.
Context (cfg : config) (entropy : nat -> N).

Lemma process_fragments_content_buffer (request_id : string)
    (fragments_in_event : list (Z * string)) (w : work) :
  RequestState.content_buffer
    (w_state (process_fragments cfg entropy request_id fragments_in_event w))
  = RequestState.content_buffer (w_state w).
Proof. unfold process_fragments. by repeat case_match. Qed.

Lemma process_named_call_content_buffer (request_id : string) (attached : bool)
    (named : nat * ToolCall.t) (w : work) :
  RequestState.content_buffer
    (w_state (process_named_call cfg entropy request_id attached named w).1)
  = RequestState.content_buffer (w_state w).
Proof. unfold process_named_call. by repeat case_match. Qed.

Lemma process_named_calls_content_buffer (request_id : string) (attached : bool)
    (named_tool_calls : list (nat * ToolCall.t)) (w : work) :
  RequestState.content_buffer
    (w_state (process_named_calls cfg entropy request_id attached named_tool_calls w).1)
  = RequestState.content_buffer (w_state w).
Proof.
  revert w. induction named_tool_calls as [|named rest IH]; intros w; [done|].
  cbn [process_named_calls].
  pose proof (process_named_call_content_buffer request_id attached named w) as H.
  destruct (process_named_call cfg entropy request_id attached named w)
    as [w' [e|]]; cbn in H |- *; [done|].
  by rewrite IH.
Qed.

Lemma process_content_bound (st : RequestState.t) (delta : Delta.t) :
  0 <= get_max_buffer_size cfg ->
  Z.of_nat (String.length (RequestState.content_buffer st))
  <= get_max_buffer_size cfg ->
  Z.of_nat (String.length
              (RequestState.content_buffer (process_content cfg entropy st delta).1.1))
  <= get_max_buffer_size cfg.
Proof.
  intros Hmax Hst. unfold process_content.
  repeat case_match; cbn; try done; lia.
Qed.

Lemma process_choice_content_buffer (request_id : string) (st : RequestState.t)
    (choice : Choice.t) :
  RequestState.content_buffer (process_choice cfg entropy request_id st choice).1
  = RequestState.content_buffer
      (process_content cfg entropy st
         (default {| Delta.content := None; Delta.tool_calls := None;
                     Delta.extra := [] |} (Choice.delta choice))).1.1.
Proof.
  unfold process_choice.
  destruct (process_content _ _ _ _) as [[st1 delta1] draws]; cbn.
  destruct (Delta.tool_calls delta1) as [tool_calls|].
  - destruct (classify_tool_calls 0 tool_calls) as [[marked named] frags].
    destruct frags as [|frag frags];
      match goal with
      | |- context [process_named_calls _ _ ?r ?a ?n ?w] =>
          pose proof (process_named_calls_content_buffer r a n w) as Hn;
          destruct (process_named_calls cfg entropy r a n w) as [w'' [e|]]
      end; cbn in Hn |- *;
      rewrite ?process_fragments_content_buffer in Hn; cbn in Hn;
      try destruct (finished_tool_calls _); cbn; congruence.
  - destruct (finished_tool_calls _); cbn; done.
Qed.

(** The content buffer of a request, in which the text of the deltas is
    accumulated for the XML converter, stays within [max_buffer_size]
    characters: if it is within the limit before an event, it is within the
    limit after it, whether the event is returned or an exception is raised.
    (The limit must not be negative.) *)
Theorem process_sse_event_content_buffer_bound
    (request_states : gmap string RequestState.t) (st : RequestState.t)
    (event : Event.t) (request_id : string) :
  0 <= get_max_buffer_size cfg ->
  request_states !! request_id = Some st ->
  Z.of_nat (String.length (RequestState.content_buffer st))
  <= get_max_buffer_size cfg ->
  exists st',
    (process_sse_event cfg entropy request_states event request_id).1 !! request_id
    = Some st'
    /\ Z.of_nat (String.length (RequestState.content_buffer st'))
       <= get_max_buffer_size cfg.
Proof.
  intros Hmax Hst Hbound. unfold process_sse_event. rewrite Hst.
  destruct (Event.choices event) as [[|choice others]|];
    [by exists st| |by exists st].
  pose proof (process_choice_content_buffer request_id st choice) as Hc.
  pose proof (process_content_bound st
    (default {| Delta.content := None; Delta.tool_calls := None;
                Delta.extra := [] |} (Choice.delta choice)) Hmax Hbound) as Hb.
  rewrite <- Hc in Hb.
  destruct (process_choice cfg entropy request_id st choice) as [st' [c|e]];
    cbn in Hb |- *; exists st'; by rewrite lookup_insert_eq.
Qed.

End ContentBuffer.

Lemma process_sse_event_content_buffer_bound_witness :
  0 <= get_max_buffer_size _get_default_config
  /\ exists st',
       (process_sse_event _get_default_config example_entropy example_states
          (example_event (Some "<function=glob>") None None) "req").1 !! "req"
       = Some st'
       /\ Z.of_nat (String.length (RequestState.content_buffer st'))
          <= get_max_buffer_size _get_default_config.
Proof.
  split; [done|].
  apply (process_sse_event_content_buffer_bound _get_default_config
           example_entropy example_states (RequestState.make "req")
           (example_event (Some "<function=glob>") None None) "req");
    [done|reflexivity|done].
Defined.

(** ** Fix rule engine: what a rule may touch *)

Lemma dict_get_del_ne (d : dict) (k k' : string) :
  k <> k' -> Dict.get (Dict.del d k) k' = Dict.get d k'.
Proof.
  intros Hne. induction d as [|[k0 v0] d IH]; [done|].
  cbn [Dict.del Dict.get].
  destruct (String.eqb_spec k0 k) as [->|Hk].
  - destruct (String.eqb_spec k k'); [done|done].
  - cbn [Dict.get]. by rewrite IH.
Qed.

Lemma dict_get_None (d : dict) (k : string) :
  k ∉ List.map fst d -> Dict.get d k = None.
Proof.
  induction d as [|[k0 v0] d IH]; [done|].
  cbn. intros Hk. apply not_elem_of_cons in Hk as [Hne Hk].
  destruct (String.eqb_spec k0 k); [congruence|]. by apply IH.
Qed.

Lemma dict_get_del_eq (d : dict) (k : string) :
  NoDup (List.map fst d) -> Dict.get (Dict.del d k) k = None.
Proof.
  induction d as [|[k0 v0] d IH]; [done|].
  cbn [List.map fst]. intros [Hk0 Hd]%NoDup_cons.
  cbn [Dict.del].
  destruct (String.eqb_spec k0 k) as [->|Hk].
  - by apply dict_get_None.
  - cbn [Dict.get]. destruct (String.eqb_spec k0 k); [done|]. by apply IH.
Qed.

Lemma apply_action_frame (args_obj : dict) (param action : string)
    (fx : fix_rule) (k : string) :
  param <> k ->
  Dict.get (apply_action args_obj param action fx).1 k = Dict.get args_obj k.
Proof.
  intros Hne. unfold apply_action.
  assert (Hset : forall v, Dict.get (Dict.set args_obj param v) k
                           = Dict.get args_obj k).
  { intros v. rewrite dict_get_set. by destruct (String.eqb_spec param k). }
  repeat case_match; cbn; rewrite ?Hset, ?dict_get_del_ne by done; done.
Qed.

Lemma _apply_single_fix_frame (args_obj : dict) (fx : fix_rule) (k : string) :
  fix_parameter fx <> k ->
  Dict.get (_apply_single_fix args_obj fx).1 k = Dict.get args_obj k.
Proof.
  intros Hne. unfold _apply_single_fix.
  destruct (negb _); [done|].
  pose proof (apply_action_frame args_obj (fix_parameter fx) (fix_action fx) fx k Hne)
    as Ha.
  destruct (apply_action _ _ _ _) as [d [res|]]; cbn in Ha |- *; [done|].
  destruct (fix_fallback_value fx); cbn; [|done].
  rewrite dict_get_set. by destruct (String.eqb_spec (fix_parameter fx) k).
Qed.

Lemma apply_fixes_loop_frame (fixes : list fix_rule) (result : dict)
    (final_tool_name k : string) :
  Forall (fun fx => fix_parameter fx <> k) fixes ->
  Dict.get (apply_fixes_loop fixes result final_tool_name).2 k = Dict.get result k.
Proof.
  intros H. revert result final_tool_name.
  induction H as [|fx fixes Hfx _ IH]; intros result final_tool_name; [done|].
  cbn [default from_option id apply_fixes_loop].
  pose proof (_apply_single_fix_frame result fx k Hfx) as Hs.
  destruct (_apply_single_fix result fx) as [result' [b|n b]]; cbn in Hs;
    by rewrite IH.
Qed.

(** The fix engine changes only what its rules name: an argument that is
    not the parameter of any rule of the tool comes back from [apply_fixes]
    with the value it had, or absent as it was. *)
Theorem apply_fixes_untouched_arguments (cfg : config) (tool_name : string)
    (args_obj : dict) (k : string) :
  Forall (fun fx => fix_parameter fx <> k) (rules_of cfg tool_name) ->
  exists final_tool_name result,
    apply_fixes cfg tool_name (JDict args_obj) = Some (final_tool_name, JDict result)
    /\ Dict.get result k = Dict.get args_obj k.
Proof.
  unfold rules_of, apply_fixes. intros H.
  destruct (default [] _) as [|fx fixes]; [by eexists _, _|].
  pose proof (apply_fixes_loop_frame (fx :: fixes) args_obj
                (if negb (default false (case_sensitive_tools (config_settings cfg)))
                 then Py.lower tool_name else tool_name) k H) as Hl.
  destruct (apply_fixes_loop _ _ _) as [final result]. by eexists _, _.
Qed.

Lemma apply_fixes_untouched_arguments_witness :
  Forall (fun fx => fix_parameter fx <> "command")
    (rules_of _get_default_config "Bash")
  /\ exists final_tool_name result,
       apply_fixes _get_default_config "Bash" (JDict [("command", JStr "ls")])
       = Some (final_tool_name, JDict result)
       /\ Dict.get result "command" = Some (JStr "ls").
Proof.
  assert (H : Forall (fun fx => fix_parameter fx <> "command")
                (rules_of _get_default_config "Bash")).
  { vm_compute. repeat constructor. discriminate. }
  split; [exact H|].
  apply (apply_fixes_untouched_arguments _get_default_config "Bash"
           [("command", JStr "ls")] "command" H).
Defined.

(** ** Fix rule engine: the fallback configuration *)

(** Under the fallback configuration a [bash] call, whatever the case of
    its name, comes back named [bash]. A [description] that is missing or
    falsy ([null], [""], [0], a float that is zero, [false], an empty list
    or object) is replaced by the default text, [Execute the given shell
    command]; a truthy one leaves the arguments as they are. No other
    argument changes. *)
Theorem apply_fixes_default_bash_description (tool_name : string)
    (args_obj : dict) :
  Py.lower tool_name = "bash" ->
  exists result,
    apply_fixes _get_default_config tool_name (JDict args_obj)
    = Some ("bash", JDict result)
    /\ (forall k, k <> "description" -> Dict.get result k = Dict.get args_obj k)
    /\ if match Dict.get args_obj "description" with
          | Some v => truthy_json v
          | None => false
          end
       then result = args_obj
       else result = Dict.set args_obj "description"
                       (JStr "Execute the given shell command")
            /\ Dict.get result "description"
               = Some (JStr "Execute the given shell command").
Proof.
  intros Hname. unfold apply_fixes. cbn [_get_default_config config_settings
    case_sensitive_tools default from_option id negb].
  rewrite Hname.
  change (tools _get_default_config !! "bash")
    with (Some [{| fix_name := "missing_description";
                   fix_parameter := "description";
                   fix_condition := "missing_or_empty";
                   fix_action := "set_default";
                   fix_fallback_value := None;
                   fix_default_value := Some (JStr "Execute the given shell command");
                   fix_valid_values := None |}]).
  cbn [default from_option id apply_fixes_loop].
  match goal with
  | |- context [_apply_single_fix args_obj ?rule] =>
      assert (Hfix : _apply_single_fix args_obj rule
                     = if match Dict.get args_obj "description" with
                          | Some v => truthy_json v | None => false end
                       then (args_obj, Flag false)
                       else (Dict.set args_obj "description"
                               (JStr "Execute the given shell command"), Flag true))
  end.
  { unfold _apply_single_fix. cbn [fix_parameter fix_condition fix_action].
    change (_check_condition args_obj "description" "missing_or_empty" _)
      with (negb (match Dict.get args_obj "description" with
                  | Some v => truthy_json v | None => false end)).
    by destruct (match Dict.get args_obj "description" with
                 | Some v => truthy_json v | None => false end). }
  rewrite Hfix. clear Hfix.
  destruct (match Dict.get args_obj "description" with
            | Some v => truthy_json v | None => false end).
  - by exists args_obj.
  - eexists. split; [done|]. split; [|split; [done|]].
    + intros k Hk. rewrite dict_get_set.
      by destruct (String.eqb_spec "description" k).
    + by rewrite dict_get_set.
Qed.

Lemma apply_fixes_default_bash_description_witness :
  Py.lower "BASH" = "bash"
  /\ exists result,
       apply_fixes _get_default_config "BASH"
         (JDict [("command", JStr "ls"); ("description", JFloat "0.0")])
       = Some ("bash", JDict result)
       /\ Dict.get result "description"
          = Some (JStr "Execute the given shell command").
Proof.
  split; [reflexivity|].
  destruct (apply_fixes_default_bash_description "BASH"
              [("command", JStr "ls"); ("description", JFloat "0.0")] eq_refl)
    as (result & H1 & _ & H2).
  exists result. split; [exact H1|].
  change (match Dict.get [("command", JStr "ls"); ("description", JFloat "0.0")]
                  "description" with
          | Some v => truthy_json v | None => false end) with false in H2.
  exact (proj2 H2).
Defined.

(** Under the fallback configuration a [read] call leaves the fix engine
    without a [content] argument and stays a [read] call; no other argument
    changes. (The dictionary holds each key once.) *)
Theorem apply_fixes_default_read_content (tool_name : string) (args_obj : dict) :
  Py.lower tool_name = "read" ->
  NoDup (List.map fst args_obj) ->
  exists result,
    apply_fixes _get_default_config tool_name (JDict args_obj)
    = Some ("read", JDict result)
    /\ Dict.get result "content" = None
    /\ (forall k, k <> "content" -> Dict.get result k = Dict.get args_obj k).
Proof.
  intros Hname Hnd. unfold apply_fixes. cbn [_get_default_config config_settings
    case_sensitive_tools default from_option id negb].
  rewrite Hname.
  change (tools _get_default_config !! "read")
    with (Some [{| fix_name := "remove_content_parameter";
                   fix_parameter := "content";
                   fix_condition := "exists";
                   fix_action := "remove_parameter";
                   fix_fallback_value := None;
                   fix_default_value := None;
                   fix_valid_values := None |}]).
  cbn [default from_option id apply_fixes_loop].
  match goal with
  | |- context [_apply_single_fix args_obj ?rule] =>
      assert (Hfix : _apply_single_fix args_obj rule
                     = if Dict.mem args_obj "content"
                       then (Dict.del args_obj "content", Flag true)
                       else (args_obj, Flag false))
  end.
  { unfold _apply_single_fix. cbn [fix_parameter fix_condition fix_action].
    change (_check_condition args_obj "content" "exists" _)
      with (Dict.mem args_obj "content").
    change (apply_action args_obj "content" "remove_parameter" _)
      with (if Dict.mem args_obj "content"
            then (Dict.del args_obj "content", Some (Flag true))
            else (args_obj, Some (Flag true))).
    by destruct (Dict.mem args_obj "content"). }
  rewrite Hfix. clear Hfix.
  destruct (Dict.mem args_obj "content") eqn:Hmem.
  - eexists. split; [done|]. split.
    + by apply dict_get_del_eq.
    + intros k Hk. by apply dict_get_del_ne.
  - exists args_obj. split; [done|]. split; [|done].
    unfold Dict.mem in Hmem. by destruct (Dict.get args_obj "content").
Qed.

Lemma apply_fixes_default_read_content_witness :
  Py.lower "Read" = "read"
  /\ NoDup (List.map fst [("filePath", JStr "a.py"); ("content", JStr "x")])
  /\ exists result,
       apply_fixes _get_default_config "Read"
         (JDict [("filePath", JStr "a.py"); ("content", JStr "x")])
       = Some ("read", JDict result)
       /\ Dict.get result "content" = None.
Proof.
  assert (Hnd : NoDup (List.map fst [("filePath", JStr "a.py"); ("content", JStr "x")])).
  { cbn. apply NoDup_cons. split; [|apply NoDup_singleton].
    intros Hin%list_elem_of_singleton. discriminate. }
  split; [reflexivity|]. split; [exact Hnd|].
  destruct (apply_fixes_default_read_content "Read"
              [("filePath", JStr "a.py"); ("content", JStr "x")] eq_refl Hnd)
    as (result & H1 & H2 & _).
  by exists result.
Defined.



(** ** Completing a buffer: what [process_complete_buffer] leaves alone *)

Lemma try_json_recovery_loop_frame (cfg : config)
    (attempts : list (string -> string)) (malformed_json : string)
    (tool : ToolCall.t) (tool_name : string) :
  let tool' := (try_json_recovery_loop cfg attempts malformed_json tool tool_name).1 in
  ToolCall.index tool' = ToolCall.index tool
  /\ ToolCall.id tool' = ToolCall.id tool
  /\ ToolCall._suppress tool' = ToolCall._suppress tool
  /\ ToolCall.extra tool' = ToolCall.extra tool
  /\ Func.extra <$> ToolCall.function tool' = Func.extra <$> ToolCall.function tool.
Proof.
  induction attempts as [|fix_func attempts IH]; [done|].
  cbn [try_json_recovery_loop].
  destruct (Json.loads _) as [args_obj|]; [|apply IH].
  destruct (apply_fixes _ _ _) as [[final args]|]; [|apply IH].
  destruct (ToolCall.function tool) as [f|] eqn:Hf; [|apply IH].
  cbn. by rewrite ?Hf.
Qed.

(** [process_complete_buffer] writes to the name and the arguments of the
    function of a tool call and to nothing else: the index, the
    identifier, the suppression mark and the other keys of the tool call
    and of its function stay, whether the text of the buffer parsed, was
    recovered or was given up; and a tool call without a function stays
    without one. *)
Theorem process_complete_buffer_frame (cfg : config) (buffer : ToolBuffer.t)
    (tool : ToolCall.t) :
  let tool' := process_complete_buffer cfg buffer tool in
  ToolCall.index tool' = ToolCall.index tool
  /\ ToolCall.id tool' = ToolCall.id tool
  /\ ToolCall._suppress tool' = ToolCall._suppress tool
  /\ ToolCall.extra tool' = ToolCall.extra tool
  /\ Func.extra <$> ToolCall.function tool' = Func.extra <$> ToolCall.function tool.
Proof.
  unfold process_complete_buffer.
  destruct (Json.loads (ToolBuffer.content buffer)) as [args_obj|].
  - destruct (apply_fixes _ _ _) as [[final args]|]; [|done].
    destruct (ToolCall.function tool) as [f|] eqn:Hf; cbn; [|by rewrite ?Hf].
    rewrite ?Hf. by destruct (negb _).
  - apply try_json_recovery_loop_frame.
Qed.

(** ** Substitution by a regular expression *)

Section Sub.
Context {A : Type} (match_here : string -> option (A * nat)) (repl : A -> string).

Lemma sub_from_skip (a b : string) :
  Re.sub_from match_here repl (String.length a) (a +:+ b)
  = Re.sub_from match_here repl O b.
Proof.
  induction a as [|c a IH]; [done|].
  rewrite append_cons. cbn [String.length Re.sub_from]. apply IH.
Qed.

Lemma sub_from_skip_all (a : string) :
  Re.sub_from match_here repl (String.length a) a = EmptyString.
Proof.
  rewrite <- (append_empty_r a) at 2. by rewrite sub_from_skip.
Qed.

Lemma sub_match (s m rest : string) (groups : A) :
  match_here s = Some (groups, String.length m) ->
  s = m +:+ rest ->
  m <> EmptyString ->
  Re.sub match_here repl s = repl groups +:+ Re.sub match_here repl rest.
Proof.
  intros Hm -> Hne. destruct m as [|c m]; [done|].
  unfold Re.sub. rewrite append_cons in Hm |- *.
  cbn [Re.sub_from]. rewrite Hm. cbn [String.length Nat.pred].
  by rewrite sub_from_skip.
Qed.

Lemma sub_no_match (c : ascii) (s : string) :
  match_here (String c s) = None ->
  Re.sub match_here repl (String c s) = String c (Re.sub match_here repl s).
Proof. intros Hm. unfold Re.sub. cbn [Re.sub_from]. by rewrite Hm. Qed.

End Sub.

Ltac bits c := destruct c as [[] [] [] [] [] [] [] []].

(** ** Heuristic recovery: the cut of a malformed trailing key *)

Lemma lstrip_split (s : string) :
  exists a, s = a +:+ Py.lstrip s /\ all_chars Py.isspace a = true.
Proof.
  induction s as [|c s (a & IH & Ha)]; [by exists EmptyString|].
  cbn [Py.lstrip]. destruct (Py.isspace c) eqn:Hc.
  - exists (String c a). rewrite append_cons. split; [by rewrite <- IH|].
    cbn. by rewrite Hc.
  - by exists EmptyString.
Qed.

Lemma ends_at_first_brace_split (s : string) (after : nat) :
  ends_at_first_brace s = Some after ->
  exists t newline,
    s = t +:+ "}" +:+ newline
    /\ Py.count "}" t = 0%nat
    /\ (newline = EmptyString \/ newline = String "010" EmptyString)
    /\ String.length newline = after.
Proof.
  induction s as [|c s IH]; [done|].
  cbn [ends_at_first_brace]. destruct (Ascii.eqb_spec c "}") as [->|Hc].
  - destruct s as [|c' [|c'' s'']].
    + intros [= <-]. exists EmptyString, EmptyString. eauto.
    + destruct (Ascii.eqb_spec c' "010") as [->|Hn]; [|by bits c'].
      intros [= <-]. exists EmptyString, (String "010" EmptyString). eauto.
    + by bits c'.
  - intros H. destruct (IH H) as (t & newline & -> & Ht & Hn & Hl).
    exists (String c t), newline. split; [done|]. split; [|done].
    cbn. by destruct (Ascii.eqb_spec c "}").
Qed.

Lemma match_trailing_duplicate_key_Some (s : string) (len : nat) :
  match_trailing_duplicate_key s = Some (tt, len) ->
  exists blanks key tail newline,
    s = "," +:+ blanks +:+ String "034" (key +:+ String "034" (tail +:+ "}" +:+ newline))
    /\ all_chars Py.isspace blanks = true
    /\ key <> EmptyString /\ Py.count "034" key = 0%nat
    /\ Py.count "}" tail = 0%nat
    /\ Py.startswith (tail +:+ "}") ":" = false
    /\ (newline = EmptyString \/ newline = String "010" EmptyString)
    /\ len = (String.length s - String.length newline)%nat.
Proof.
  unfold match_trailing_duplicate_key.
  destruct s as [|c r]; [done|].
  destruct (Ascii.eqb_spec c ",") as [->|Hc]; [|by bits c].
  destruct (lstrip_split r) as (a & Ha & Hblank).
  destruct (Py.lstrip r) as [|q r1]; [done|].
  destruct (Ascii.eqb_spec q "034") as [->|Hq]; [|by bits q].
  destruct (Re.until "034" r1) as [[run r2]|] eqn:Hu; [|done].
  apply until_Some in Hu as (Hr1 & Hcount & Hstart).
  destruct run as [|k key]; [done|].
  apply startswith_char in Hstart as [tail ->].
  destruct (ends_at_first_brace tail) as [after|] eqn:Hends; [|done].
  destruct (negb (Py.startswith tail ":")) eqn:Hcolon; [|done].
  intros [= <-].
  destruct (ends_at_first_brace_split tail after Hends)
    as (t & newline & -> & Ht & Hn & Hl).
  exists a, (String k key), t, newline.
  split; [by rewrite Ha, Hr1|]. split; [done|]. split; [done|]. split; [done|].
  split; [done|]. split; [|by rewrite Hl].
  apply negb_true_iff in Hcolon.
  destruct t as [|c t]; [|by rewrite !append_cons in Hcolon |- *].
  reflexivity.
Qed.

(** [_strip_malformed_trailing_duplicate_key] returns the text as it is,
    or it cuts it at one of its commas: what follows that comma is white
    space, a quoted key that is not empty, a text without closing brace that
    does not begin with a colon, a closing brace and the end of the text,
    or the newline that ends the text. The text before the comma is kept,
    the cut is replaced by a closing brace, and the final newline stays. A
    text without a comma, or without a closing brace as its last character
    (a final newline apart), is therefore never changed. *)
Theorem _strip_malformed_trailing_duplicate_key_cut (s : string) :
  _strip_malformed_trailing_duplicate_key s = s
  \/ exists pre blanks key tail newline,
       s = pre +:+ "," +:+ blanks
           +:+ String "034" (key +:+ String "034" (tail +:+ "}" +:+ newline))
       /\ all_chars Py.isspace blanks = true
       /\ key <> EmptyString /\ Py.count "034" key = 0%nat
       /\ Py.count "}" tail = 0%nat
       /\ Py.startswith (tail +:+ "}") ":" = false
       /\ (newline = EmptyString \/ newline = String "010" EmptyString)
       /\ _strip_malformed_trailing_duplicate_key s = pre +:+ "}" +:+ newline.
Proof.
  unfold _strip_malformed_trailing_duplicate_key.
  induction s as [|c s IH]; [by left|].
  destruct (match_trailing_duplicate_key (String c s)) as [[[] len]|] eqn:Hm.
  - right.
    destruct (match_trailing_duplicate_key_Some _ _ Hm)
      as (blanks & key & tail & newline & Hs & Hb & Hk & Hq & Ht & Hc & Hn & Hlen).
    exists EmptyString, blanks, key, tail, newline.
    rewrite append_empty_l. do 7 (split; [done|]).
    set (m := "," +:+ blanks
              +:+ String "034" (key +:+ String "034" (tail +:+ "}"))).
    assert (Hsplit : String c s = m +:+ newline).
    { rewrite Hs. unfold m.
      rewrite !append_assoc, !append_cons, !append_assoc, !append_cons,
        !append_assoc. done. }
    rewrite (sub_match match_trailing_duplicate_key (fun _ => "}")
               (String c s) m newline tt).
    + by destruct Hn as [-> | ->].
    + rewrite Hm, Hlen, Hsplit, length_append. do 2 f_equal. lia.
    + done.
    + done.
  - rewrite sub_no_match by done.
    destruct IH as [->|(pre & blanks & key & tail & newline & Hs & Hb & Hk & Hq
                        & Ht & Hc & Hn & ->)]; [by left|].
    right. exists (String c pre), blanks, key, tail, newline.
    rewrite Hs. by rewrite !append_cons.
Qed.

(** ** Fix rule engine: the repair of the quotes *)

Lemma match_overquoted_Some (s run : string) (len : nat) :
  match_overquoted s = Some (run, len) ->
  exists rest,
    s = String "034" (String "034" (run +:+ String "034" (String "034" rest)))
    /\ len = (4 + String.length run)%nat.
Proof.
  unfold match_overquoted.
  destruct s as [|a [|b r]];
    [done|by destruct a as [[] [] [] [] [] [] [] []]|].
  destruct (Ascii.eqb_spec a "034") as [->|Ha];
    [|by destruct a as [[] [] [] [] [] [] [] []]].
  destruct (Ascii.eqb_spec b "034") as [->|Hb];
    [|by destruct b as [[] [] [] [] [] [] [] []]].
  destruct (Re.until "034" r) as [[run' r2]|] eqn:Hu; [|done].
  apply until_Some in Hu as (-> & _ & _).
  destruct r2 as [|x [|y rest]];
    [done|by destruct x as [[] [] [] [] [] [] [] []]|].
  destruct (Ascii.eqb_spec x "034") as [->|Hx];
    [|by destruct x as [[] [] [] [] [] [] [] []]].
  destruct (Ascii.eqb_spec y "034") as [->|Hy];
    [|by destruct y as [[] [] [] [] [] [] [] []]].
  intros [= <- <-]. by exists rest.
Qed.

Lemma count_replace_char (a b : ascii) (s : string) :
  a <> b -> Py.count a (Py.replace_char a b s) = 0%nat.
Proof.
  intros Hne. induction s as [|c s IH]; [done|].
  cbn. rewrite IH.
  destruct (Ascii.eqb_spec c a) as [->|Hc].
  - by destruct (Ascii.eqb_spec b a); [congruence|].
  - by destruct (Ascii.eqb_spec c a).
Qed.

Lemma sub_overquoted_count (c : ascii) (s : string) :
  c <> "034"%char ->
  Py.count c
    (Re.sub match_overquoted
       (fun run => String "034" (run +:+ String "034" EmptyString)) s)
  = Py.count c s.
Proof.
  intros Hc.
  assert (Hq : Ascii.eqb "034" c = false) by (by destruct (Ascii.eqb_spec "034" c)).
  remember (String.length s) as n eqn:Hn. revert s Hn.
  induction n as [n IH] using lt_wf_ind. intros s Hn.
  destruct s as [|a s']; [done|].
  destruct (match_overquoted (String a s')) as [[run len]|] eqn:Hm.
  - destruct (match_overquoted_Some _ _ _ Hm) as (rest & Hs & ->).
    rewrite (sub_match _ _ (String a s')
               (String "034" (String "034" (run +:+ String "034" (String "034" EmptyString))))
               rest run).
    + specialize (IH (String.length rest)).
      rewrite Hs in Hn |- *. cbn [String.length] in Hn.
      rewrite length_append in Hn. cbn [String.length] in Hn.
      specialize (IH ltac:(lia) rest eq_refl).
      cbn [Py.count]. rewrite !count_append. cbn [Py.count].
      rewrite !count_append. cbn [Py.count]. rewrite Hq. lia.
    + rewrite Hm. do 2 f_equal. cbn [String.length].
      rewrite length_append. cbn [String.length]. lia.
    + rewrite Hs. rewrite !append_cons. do 2 f_equal.
      by rewrite append_assoc.
    + done.
  - rewrite sub_no_match by done. cbn [Py.count].
    by rewrite (IH (String.length s') ltac:(subst n; cbn; lia) s' eq_refl).
Qed.

Lemma without_quotes_append (s t : string) :
  without_quotes (s +:+ t) = without_quotes s +:+ without_quotes t.
Proof.
  induction s as [|c s IH]; [done|].
  rewrite append_cons. cbn. rewrite IH. by destruct (is_quote c).
Qed.

Lemma without_quotes_replace_char (s : string) :
  without_quotes (Py.replace_char "'" "034" s) = without_quotes s.
Proof.
  induction s as [|c s IH]; [done|].
  cbn. rewrite IH. by destruct (Ascii.eqb_spec c "'") as [->|Hc].
Qed.

Lemma adjacent_quotes_replace_char (s : string) :
  adjacent_quotes (Py.replace_char "'" "034" s) = adjacent_quotes s.
Proof.
  assert (Hq : forall c,
    is_quote (if Ascii.eqb c "'" then "034"%char else c) = is_quote c).
  { intros c. by destruct (Ascii.eqb_spec c "'") as [->|Hc]. }
  induction s as [|a s IH]; [done|].
  destruct s as [|b s']; [done|].
  change (adjacent_quotes (String a (String b s')))
    with (is_quote a && is_quote b || adjacent_quotes (String b s')).
  rewrite <- IH. cbn [Py.replace_char adjacent_quotes]. by rewrite !Hq.
Qed.

Lemma count_quotes_replace_char (s : string) :
  Py.count "034" (Py.replace_char "'" "034" s)
  = (Py.count "'" s + Py.count "034" s)%nat.
Proof.
  induction s as [|c s IH]; [done|].
  cbn. rewrite IH.
  destruct (Ascii.eqb_spec c "'") as [->|Hc]; [done|].
  destruct (Ascii.eqb c "034"); lia.
Qed.

Lemma sub_overquoted_without_quotes (s : string) :
  without_quotes
    (Re.sub match_overquoted
       (fun run => String "034" (run +:+ String "034" EmptyString)) s)
  = without_quotes s
  /\ exists repaired,
       (Py.count "034"
          (Re.sub match_overquoted
             (fun run => String "034" (run +:+ String "034" EmptyString)) s)
        + 2 * repaired = Py.count "034" s)%nat.
Proof.
  remember (String.length s) as n eqn:Hn. revert s Hn.
  induction n as [n IH] using lt_wf_ind. intros s Hn.
  destruct s as [|a s']; [split; [done|by exists O]|].
  destruct (match_overquoted (String a s')) as [[run len]|] eqn:Hm.
  - destruct (match_overquoted_Some _ _ _ Hm) as (rest & Hs & ->).
    rewrite (sub_match _ _ (String a s')
               (String "034" (String "034" (run +:+ String "034" (String "034" EmptyString))))
               rest run).
    + specialize (IH (String.length rest)).
      rewrite Hs in Hn |- *. cbn [String.length] in Hn.
      rewrite length_append in Hn. cbn [String.length] in Hn.
      destruct (IH ltac:(lia) rest eq_refl) as [IH1 [k IH2]].
      split.
      * do 3 (rewrite ?without_quotes_append; cbn [without_quotes];
              change (is_quote "034") with true; cbv iota).
        by rewrite IH1, append_empty_r.
      * exists (S k). cbn [Py.count]. rewrite !count_append. cbn [Py.count].
        rewrite !count_append. cbn [Py.count]. cbn. lia.
    + rewrite Hm. do 2 f_equal. cbn [String.length].
      rewrite length_append. cbn [String.length]. lia.
    + rewrite Hs. rewrite !append_cons. do 2 f_equal.
      by rewrite append_assoc.
    + done.
  - rewrite sub_no_match by done.
    destruct (IH (String.length s') ltac:(subst n; cbn; lia) s' eq_refl)
      as [IH1 [k IH2]].
    split.
    + cbn. by rewrite IH1.
    + exists k. cbn [Py.count]. destruct (Ascii.eqb "034" a); lia.
Qed.

Lemma sub_overquoted_none (s : string) :
  adjacent_quotes s = false ->
  Re.sub match_overquoted
    (fun run => String "034" (run +:+ String "034" EmptyString)) s = s.
Proof.
  induction s as [|a s IH]; [done|]. intros Hadj.
  assert (Hm : match_overquoted (String a s) = None).
  { destruct (match_overquoted (String a s)) as [[run len]|] eqn:Hm; [|done].
    destruct (match_overquoted_Some _ _ _ Hm) as (rest & Hs & _).
    rewrite Hs in Hadj. discriminate Hadj. }
  rewrite sub_no_match by done. f_equal. apply IH.
  destruct s as [|b s']; [done|].
  change (adjacent_quotes (String a (String b s')))
    with (is_quote a && is_quote b || adjacent_quotes (String b s')) in Hadj.
  by apply orb_false_iff in Hadj as [_ ?].
Qed.

(** [_fix_malformed_json] changes the quotes of a text and nothing else:
    the result holds no single quote, and without its quotes it is the text
    without its quotes. Each quote of the text, single or double, is a double
    quote of the result, except for the pairs removed around the runs it
    repairs (two quotes, a run without quotes, two quotes: one quote is
    dropped at either end). So when no two quotes of the text stand next to
    each other, the result is the text with each single quote made a double
    quote. *)
Theorem _fix_malformed_json_quotes (json_str : string) :
  Py.count "'" (_fix_malformed_json json_str) = 0%nat
  /\ without_quotes (_fix_malformed_json json_str) = without_quotes json_str
  /\ (exists repaired,
        (Py.count "034" (_fix_malformed_json json_str) + 2 * repaired
         = Py.count "'" json_str + Py.count "034" json_str)%nat)
  /\ (adjacent_quotes json_str = false ->
      _fix_malformed_json json_str = Py.replace_char "'" "034" json_str).
Proof.
  unfold _fix_malformed_json.
  destruct json_str as [|a s]; [repeat split; by exists O|].
  cbn [Py.truthy negb].
  destruct (sub_overquoted_without_quotes (Py.replace_char "'" "034" (String a s)))
    as [Hw [k Hk]].
  split; [|split; [|split]].
  - rewrite sub_overquoted_count by done. by apply count_replace_char.
  - by rewrite Hw, without_quotes_replace_char.
  - exists k. by rewrite Hk, count_quotes_replace_char.
  - intros Hadj. apply sub_overquoted_none.
    by rewrite adjacent_quotes_replace_char.
Qed.

(** ** Completeness analyzer and the JSON parser *)


Lemma loop_passed_over (c : ascii) (s : string) (stack : list ascii) :
  passed_over c = true ->
  is_json_complete_loop (String c s) stack false false
  = is_json_complete_loop s stack false false.
Proof.
  unfold passed_over. intros H. apply negb_true_iff in H.
  apply orb_false_iff in H as [H Hcl]. apply orb_false_iff in H as [H Hop].
  apply orb_false_iff in H as [Hb Hq].
  cbn [is_json_complete_loop]. by rewrite Hb, Hq, Hop, Hcl.
Qed.

Lemma loop_in_string (c : ascii) (s : string) (stack : list ascii) :
  Ascii.eqb c "\" = false -> Ascii.eqb c "034" = false ->
  is_json_complete_loop (String c s) stack true false
  = is_json_complete_loop s stack true false.
Proof. intros Hb Hq. cbn [is_json_complete_loop]. by rewrite Hb, Hq. Qed.

Lemma loop_all_passed_over (p s : string) (stack : list ascii) :
  all_chars passed_over p = true ->
  is_json_complete_loop (p +:+ s) stack false false
  = is_json_complete_loop s stack false false.
Proof.
  induction p as [|c p IH]; [done|].
  cbn [all_chars]. intros [Hc Hp]%andb_true_iff.
  rewrite append_cons, loop_passed_over by done. by apply IH.
Qed.

Lemma isspace_passed_over (c : ascii) :
  Py.isspace c = true -> passed_over c = true.
Proof. by bits c. Qed.

Lemma is_ws_isspace (c : ascii) : Json.is_ws c = true -> Py.isspace c = true.
Proof. by bits c. Qed.

Lemma is_digit_passed_over (c : ascii) :
  Json.is_digit c = true -> passed_over c = true /\ Py.isspace c = false.
Proof. by bits c. Qed.

Lemma loop_skip_ws (s : string) (stack : list ascii) :
  is_json_complete_loop (Json.skip_ws s) stack false false
  = is_json_complete_loop s stack false false.
Proof.
  induction s as [|c s IH]; [done|].
  cbn [Json.skip_ws]. destruct (Json.is_ws c) eqn:Hc; [|done].
  rewrite IH. symmetry. apply loop_passed_over.
  by apply isspace_passed_over, is_ws_isspace.
Qed.

Lemma loop_lstrip (s : string) (stack : list ascii) :
  is_json_complete_loop (Py.lstrip s) stack false false
  = is_json_complete_loop s stack false false.
Proof.
  induction s as [|c s IH]; [done|].
  cbn [Py.lstrip]. destruct (Py.isspace c) eqn:Hc; [|done].
  rewrite IH. symmetry. by apply loop_passed_over, isspace_passed_over.
Qed.

Lemma loop_blank (s : string) (stack : list ascii) (in_string escape_next : bool) :
  Py.rstrip s = EmptyString ->
  is_json_complete_loop s stack in_string escape_next
  = is_json_complete_loop EmptyString stack in_string false.
Proof.
  revert escape_next. induction s as [|c s IH]; intros escape_next; [done|].
  cbn [Py.rstrip].
  destruct (Py.rstrip s) as [|a r]; [|done].
  destruct (Py.isspace c) eqn:Hc; [|done]. intros _.
  apply isspace_passed_over in Hc. unfold passed_over in Hc.
  apply negb_true_iff in Hc.
  apply orb_false_iff in Hc as [Hc Hcl]. apply orb_false_iff in Hc as [Hc Hop].
  apply orb_false_iff in Hc as [Hb Hq].
  cbn [is_json_complete_loop]. rewrite Hb, Hq, Hop, Hcl. cbn [andb].
  destruct escape_next; [by apply IH|].
  destruct in_string; by apply IH.
Qed.

Lemma loop_tail (c : ascii) (t t' : string) :
  (forall stack in_string escape_next,
     is_json_complete_loop t stack in_string escape_next
     = is_json_complete_loop t' stack in_string escape_next) ->
  forall stack in_string escape_next,
    is_json_complete_loop (String c t) stack in_string escape_next
    = is_json_complete_loop (String c t') stack in_string escape_next.
Proof.
  intros H stack in_string escape_next. cbn [is_json_complete_loop].
  repeat case_match; try done; apply H.
Qed.

Lemma loop_rstrip (s : string) (stack : list ascii) (in_string escape_next : bool) :
  is_json_complete_loop (Py.rstrip s) stack in_string escape_next
  = is_json_complete_loop s stack in_string escape_next.
Proof.
  revert stack in_string escape_next.
  induction s as [|c s IH]; intros stack in_string escape_next; [done|].
  cbn [Py.rstrip].
  destruct (Py.rstrip s) as [|a r] eqn:Hr.
  - destruct (Py.isspace c) eqn:Hc.
    + symmetry. rewrite loop_blank; [done|]. cbn [Py.rstrip]. by rewrite Hr, Hc.
    + apply loop_tail. intros st i e. symmetry. rewrite loop_blank by done.
      by destruct e.
  - by apply loop_tail.
Qed.

(** The completeness check strips the text only to look at its first
    character: the bracket scan gives the same result on the text as it
    came. *)
Lemma is_json_complete_unstripped (s : string) :
  is_json_complete s
  = (Py.startswith (Py.strip s) "{" || Py.startswith (Py.strip s) "[")
    && is_json_complete_loop s [] false false.
Proof.
  unfold is_json_complete.
  assert (Hloop : is_json_complete_loop (Py.strip s) [] false false
                  = is_json_complete_loop s [] false false).
  { unfold Py.strip. by rewrite loop_lstrip, loop_rstrip. }
  destruct (Py.truthy s) eqn:Hs; cbn [negb orb].
  - destruct (Py.truthy (Py.strip s)) eqn:Hst; cbn [negb].
    + rewrite Hloop. by destruct (_ || _).
    + by rewrite strip_empty_not_opener.
  - by destruct s.
Qed.

(** *** What the parser consumes, as the bracket scan sees it *)

Lemma hex_val_in_string (c : ascii) (n : N) :
  Json.hex_val c = Some n ->
  Ascii.eqb c "\" = false /\ Ascii.eqb c "034" = false.
Proof. by bits c. Qed.

Lemma scanstring_loop_bounded (n : nat) (s str r : string) :
  (String.length s <= n)%nat ->
  Json.scanstring s = Some (str, r) ->
  forall stack,
    is_json_complete_loop s stack true false
    = is_json_complete_loop r stack false false.
Proof.
  revert s str r. induction n as [|n IH]; intros s str r Hn Hs stack.
  { destruct s; [done|]. cbn in Hn. lia. }
  destruct s as [|c s1]; [done|]. cbn [String.length] in Hn.
  destruct (Ascii.eqb_spec c "\") as [->|Hb].
  - destruct s1 as [|e r1]; [done|]. cbn [String.length] in Hn.
    change (is_json_complete_loop (String "\" (String e r1)) stack true false)
      with (is_json_complete_loop r1 stack true false).
    destruct (Ascii.eqb_spec e "u") as [->|Hu].
    + destruct r1 as [|h1 [|h2 [|h3 [|h4 r2]]]]; try done.
      cbn [String.length] in Hn.
      cbn [Json.scanstring] in Hs.
      destruct (Json.hex_val h1) as [a1|] eqn:H1; [|done].
      destruct (Json.hex_val h2) as [a2|] eqn:H2; [|done].
      destruct (Json.hex_val h3) as [a3|] eqn:H3; [|done].
      destruct (Json.hex_val h4) as [a4|] eqn:H4; [|done].
      cbn [mbind option_bind] in Hs.
      destruct (_ <? 256)%N; [|done].
      destruct (Json.scanstring r2) as [[str' r']|] eqn:Hr2; [|done].
      cbn in Hs. injection Hs as <- <-.
      apply hex_val_in_string in H1 as [? ?], H2 as [? ?], H3 as [? ?], H4 as [? ?].
      rewrite !loop_in_string by done.
      eapply IH; [|exact Hr2]. lia.
    + assert (Hs' : (ch ← Json.backslash e;
                     '(str, r') ← Json.scanstring r1; Some (String ch str, r'))
                    = Some (str, r)).
      { rewrite <- Hs. clear -Hu. bits e; try reflexivity. done. }
      destruct (Json.backslash e) as [ch|]; [|done]. cbn in Hs'.
      destruct (Json.scanstring r1) as [[str' r']|] eqn:Hr1; [|done].
      cbn in Hs'. injection Hs' as <- <-.
      eapply IH; [|exact Hr1]. lia.
  - destruct (Ascii.eqb_spec c "034") as [->|Hq].
    + cbn in Hs. by injection Hs as <- <-.
    + assert (Hs' : (if (N_of_ascii c <? 32)%N then None
                     else '(str, r') ← Json.scanstring s1; Some (String c str, r'))
                    = Some (str, r)).
      { rewrite <- Hs. clear -Hb Hq. bits c; try reflexivity; done. }
      destruct (N_of_ascii c <? 32)%N; [done|].
      destruct (Json.scanstring s1) as [[str' r']|] eqn:Hr1; [|done].
      cbn in Hs'. injection Hs' as <- <-.
      rewrite loop_in_string.
      * eapply IH; [|exact Hr1]. lia.
      * by destruct (Ascii.eqb_spec c "\").
      * by destruct (Ascii.eqb_spec c "034").
Qed.

Lemma scanstring_loop (s str r : string) :
  Json.scanstring s = Some (str, r) ->
  forall stack,
    is_json_complete_loop s stack true false
    = is_json_complete_loop r stack false false.
Proof. by apply (scanstring_loop_bounded (String.length s)). Qed.

Lemma take_digits_loop (s ds r : string) :
  Json.take_digits s = (ds, r) ->
  forall stack,
    is_json_complete_loop s stack false false
    = is_json_complete_loop r stack false false.
Proof.
  revert ds r. induction s as [|c s IH]; intros ds r; cbn [Json.take_digits].
  - by intros [= <- <-].
  - destruct (Json.is_digit c) eqn:Hc; [|by intros [= <- <-]].
    destruct (Json.take_digits s) as [ds' r'] eqn:Ht.
    intros [= <- <-] stack.
    rewrite loop_passed_over by by apply is_digit_passed_over.
    by eapply IH.
Qed.

Lemma strip_prefix_loop (p s r : string) :
  all_chars passed_over p = true ->
  Json.strip_prefix p s = Some r ->
  forall stack,
    is_json_complete_loop s stack false false
    = is_json_complete_loop r stack false false.
Proof.
  intros Hp ->%strip_prefix_Some stack. by apply loop_all_passed_over.
Qed.

Lemma strip_prefix_scalar (p s r : string) (c : ascii) (p' : string) :
  p = String c p' ->
  all_chars passed_over p = true ->
  Py.isspace c = false -> is_opener c = false ->
  Json.strip_prefix p s = Some r -> read_scalar s r.
Proof.
  intros -> Hp Hc Ho Hs. split; [by eapply strip_prefix_loop|].
  apply strip_prefix_Some in Hs as ->. rewrite append_cons. by eexists _, _.
Qed.

Lemma match_integer_scalar (s lexeme r : string) :
  Json.match_integer s = Some (lexeme, r) -> read_scalar s r.
Proof.
  unfold Json.match_integer, read_scalar.
  destruct s as [|c t]; [done|].
  destruct (Ascii.eqb_spec c "-") as [->|Hm].
  - destruct t as [|d t']; [done|].
    destruct (Ascii.eqb_spec d "0") as [->|Hz].
    + intros [= <- <-]. split; [done|]. by eexists _, _.
    + destruct (Json.is_digit d) eqn:Hdig.
      * intros H.
        assert (H' : (let '(ds, r0) := Json.take_digits (String d t') in
                      Some ("-" +:+ ds, r0)) = Some (lexeme, r)).
        { rewrite <- H. clear -Hz Hdig. bits d; try reflexivity; done. }
        destruct (Json.take_digits (String d t')) as [ds r0] eqn:Ht.
        injection H' as <- <-. split; [|by eexists _, _].
        intros stack. rewrite loop_passed_over by done.
        by eapply take_digits_loop.
      * intros H. exfalso.
        assert (H' : (None : option (string * string)) = Some (lexeme, r)).
        { rewrite <- H. clear -Hz Hdig. bits d; try reflexivity; done. }
        done.
  - destruct (Ascii.eqb_spec c "0") as [->|Hz].
    + intros [= <- <-]. split; [done|]. by eexists _, _.
    + destruct (Json.is_digit c) eqn:Hdig.
      * intros H.
        assert (H' : (let '(ds, r0) := Json.take_digits (String c t) in
                      Some (EmptyString +:+ ds, r0)) = Some (lexeme, r)).
        { rewrite <- H. clear -Hm Hz Hdig. bits c; try reflexivity; done. }
        destruct (Json.take_digits (String c t)) as [ds r0] eqn:Ht.
        injection H' as <- <-.
        destruct (is_digit_passed_over c Hdig) as [Hp Hsp].
        split; [by eapply take_digits_loop|].
        eexists _, _. split; [done|]. split; [done|].
        clear -Hdig. by bits c.
      * intros H. exfalso.
        assert (H' : (None : option (string * string)) = Some (lexeme, r)).
        { rewrite <- H. clear -Hm Hz Hdig. bits c; try reflexivity; done. }
        done.
Qed.

Lemma match_frac_loop (s : string) (frac : option string) (r : string) :
  Json.match_frac s = (frac, r) ->
  forall stack,
    is_json_complete_loop s stack false false
    = is_json_complete_loop r stack false false.
Proof.
  unfold Json.match_frac.
  destruct s as [|c t]; [by intros [= <- <-]|].
  destruct (Ascii.eqb_spec c ".") as [->|Hc].
  - destruct (Json.take_digits t) as [ds r'] eqn:Ht.
    destruct ds as [|d ds]; [by intros [= <- <-]|].
    intros [= <- <-] stack. rewrite loop_passed_over by done.
    by eapply take_digits_loop.
  - intros H.
    assert (H' : (None : option string, String c t) = (frac, r)).
    { rewrite <- H. clear -Hc. bits c; try reflexivity; done. }
    by injection H' as <- <-.
Qed.

Lemma match_exp_loop (s : string) (exp : option string) (r : string) :
  Json.match_exp s = (exp, r) ->
  forall stack,
    is_json_complete_loop s stack false false
    = is_json_complete_loop r stack false false.
Proof.
  unfold Json.match_exp.
  destruct s as [|e t]; [by intros [= <- <-]|].
  destruct (Ascii.eqb e "e" || Ascii.eqb e "E") eqn:He; [|by intros [= <- <-]].
  assert (Hp : passed_over e = true) by (clear -He; by bits e).
  destruct t as [|c t'].
  - cbn. by intros [= <- <-].
  - destruct (Ascii.eqb_spec c "-") as [->|Hm];
      [|destruct (Ascii.eqb_spec c "+") as [->|Hpl]].
    + destruct (Json.take_digits t') as [ds r'] eqn:Ht.
      destruct ds as [|d ds]; [by intros [= <- <-]|].
      intros [= <- <-] stack. rewrite !loop_passed_over by done.
      by eapply take_digits_loop.
    + destruct (Json.take_digits t') as [ds r'] eqn:Ht.
      destruct ds as [|d ds]; [by intros [= <- <-]|].
      intros [= <- <-] stack. rewrite !loop_passed_over by done.
      by eapply take_digits_loop.
    + intros H.
      assert (H' : match Json.take_digits (String c t') with
                   | (EmptyString, _) => (None, String e (String c t'))
                   | (ds, r') => (Some (String e (EmptyString +:+ ds)), r')
                   end = (exp, r)).
      { rewrite <- H. clear -Hm Hpl. bits c; try reflexivity; done. }
      destruct (Json.take_digits (String c t')) as [ds r'] eqn:Ht.
      destruct ds as [|d ds]; [by injection H' as <- <-|].
      injection H' as <- <-. intros stack. rewrite loop_passed_over by done.
      by eapply take_digits_loop.
Qed.

Lemma match_number_scalar (s : string) (v : json) (r : string) :
  Json.match_number s = Some (v, r) ->
  read_scalar s r /\ is_container v = false.
Proof.
  unfold Json.match_number.
  destruct (Json.match_integer s) as [[integer r0]|] eqn:Hi; [|done].
  cbn [mbind option_bind].
  destruct (Json.match_frac r0) as [frac r1] eqn:Hf.
  destruct (Json.match_exp r1) as [exp r2] eqn:He.
  intros H.
  assert (Hr : r = r2 /\ is_container v = false).
  { destruct frac, exp; by injection H as <- <-. }
  destruct Hr as [-> Hv]. split; [|done].
  destruct (match_integer_scalar _ _ _ Hi) as [Hloop Hfirst].
  split; [|done].
  intros stack. rewrite Hloop.
  rewrite (match_frac_loop _ _ _ Hf). by apply (match_exp_loop _ _ _ He).
Qed.

Lemma scan_constant_scalar (s : string) (v : json) (r : string) :
  Json.scan_constant s = Some (v, r) ->
  read_scalar s r /\ is_container v = false.
Proof.
  unfold Json.scan_constant.
  destruct (Json.strip_prefix "null" s) as [r0|] eqn:H1.
  { intros [= <- <-]. split; [|done]. apply (strip_prefix_scalar "null" s r0 "n" "ull"); [reflexivity..|done]. }
  destruct (Json.strip_prefix "true" s) as [r0|] eqn:H2.
  { intros [= <- <-]. split; [|done]. apply (strip_prefix_scalar "true" s r0 "t" "rue"); [reflexivity..|done]. }
  destruct (Json.strip_prefix "false" s) as [r0|] eqn:H3.
  { intros [= <- <-]. split; [|done]. apply (strip_prefix_scalar "false" s r0 "f" "alse"); [reflexivity..|done]. }
  destruct (Json.match_number s) as [[v0 r0]|] eqn:H4.
  { intros [= <- <-]. by apply match_number_scalar. }
  destruct (Json.strip_prefix "NaN" s) as [r0|] eqn:H5.
  { intros [= <- <-]. split; [|done]. apply (strip_prefix_scalar "NaN" s r0 "N" "aN"); [reflexivity..|done]. }
  destruct (Json.strip_prefix "Infinity" s) as [r0|] eqn:H6.
  { intros [= <- <-]. split; [|done]. apply (strip_prefix_scalar "Infinity" s r0 "I" "nfinity"); [reflexivity..|done]. }
  destruct (Json.strip_prefix "-Infinity" s) as [r0|] eqn:H7; [|done].
  intros [= <- <-]. split; [|done]. apply (strip_prefix_scalar "-Infinity" s r0 "-" "Infinity"); [reflexivity..|done].
Qed.

(** *** The three functions of the scanner, case by case *)

Lemma scan_once_inv (fuel : nat) (s : string) (v : json) (r : string) :
  Json.scan_once (S fuel) s = Some (v, r) ->
  (exists r0 str,
     s = String "034" r0 /\ Json.scanstring r0 = Some (str, r) /\ v = JStr str)
  \/ (exists r0,
        s = String "{" r0
        /\ (Json.skip_ws r0 = String "}" r /\ v = JDict []
            \/ exists r1, Json.skip_ws r0 = String "034" r1
                          /\ Json.parse_pairs fuel r1 [] = Some (v, r)))
  \/ (exists r0,
        s = String "[" r0
        /\ (Json.skip_ws r0 = String "]" r /\ v = JList []
            \/ Json.parse_items fuel (Json.skip_ws r0) [] = Some (v, r)))
  \/ Json.scan_constant s = Some (v, r).
Proof.
  destruct s as [|c r0]; [by do 3 right|].
  destruct (Ascii.eqb_spec c "034") as [->|Hq].
  { cbn [Json.scan_once]. destruct (Json.scanstring r0) as [[str r']|] eqn:Hs; [|done].
    cbn. intros [= <- <-]. left. by eexists _, _. }
  destruct (Ascii.eqb_spec c "{") as [->|Hbrace].
  { cbn [Json.scan_once]. intros H. right. left. exists r0. split; [done|].
    destruct (Json.skip_ws r0) as [|d r1]; [done|].
    destruct (Ascii.eqb_spec d "}") as [->|Hd1]; [left; by injection H as <- <-|].
    destruct (Ascii.eqb_spec d "034") as [->|Hd2]; [right; by exists r1|].
    exfalso. clear -H Hd1 Hd2. bits d; try done. }
  destruct (Ascii.eqb_spec c "[") as [->|Hbracket].
  { cbn [Json.scan_once]. intros H. right. right. left. exists r0. split; [done|].
    destruct (Json.skip_ws r0) as [|d r1]; [by right|].
    destruct (Ascii.eqb_spec d "]") as [->|Hd1]; [left; by injection H as <- <-|].
    right. rewrite <- H. clear -Hd1. bits d; try reflexivity. done. }
  intros H. do 3 right. rewrite <- H.
  clear -Hq Hbrace Hbracket. bits c; try reflexivity; done.
Qed.

Lemma parse_pairs_inv (fuel : nat) (s : string) (pairs : list (string * json))
    (v : json) (r : string) :
  Json.parse_pairs (S fuel) s pairs = Some (v, r) ->
  exists key r0 r1 value r2,
    Json.scanstring s = Some (key, r0)
    /\ Json.skip_ws r0 = String ":" r1
    /\ Json.scan_once fuel (Json.skip_ws r1) = Some (value, r2)
    /\ (Json.skip_ws r2 = String "}" r
        /\ v = JDict (Dict.of_pairs (pairs ++ [(key, value)]))
        \/ exists r3 r4,
             Json.skip_ws r2 = String "," r3
             /\ Json.skip_ws r3 = String "034" r4
             /\ Json.parse_pairs fuel r4 (pairs ++ [(key, value)]) = Some (v, r)).
Proof.
  cbn [Json.parse_pairs].
  destruct (Json.scanstring s) as [[key r0]|] eqn:Hs; [|done].
  cbn [mbind option_bind].
  destruct (Json.skip_ws r0) as [|c r1] eqn:Hr0; [done|].
  destruct (Ascii.eqb_spec c ":") as [->|Hc];
    [|intros H; exfalso; clear -H Hc; bits c; done].
  destruct (Json.scan_once fuel (Json.skip_ws r1)) as [[value r2]|] eqn:Hv; [|done].
  cbn [mbind option_bind].
  intros H. exists key, r0, r1, value, r2.
  split; [done|]. split; [done|]. split; [done|].
  destruct (Json.skip_ws r2) as [|d r3] eqn:Hr2; [done|].
  destruct (Ascii.eqb_spec d "}") as [->|Hd1]; [left; by injection H as <- <-|].
  destruct (Ascii.eqb_spec d ",") as [->|Hd2];
    [|exfalso; clear -H Hd1 Hd2; bits d; done].
  right. exists r3.
  destruct (Json.skip_ws r3) as [|e r4] eqn:Hr3; [done|].
  destruct (Ascii.eqb_spec e "034") as [->|He];
    [|exfalso; clear -H He; bits e; done].
  by exists r4.
Qed.

Lemma parse_items_inv (fuel : nat) (s : string) (values : list json)
    (v : json) (r : string) :
  Json.parse_items (S fuel) s values = Some (v, r) ->
  exists value r0,
    Json.scan_once fuel s = Some (value, r0)
    /\ (Json.skip_ws r0 = String "]" r /\ v = JList (values ++ [value])
        \/ exists r1,
             Json.skip_ws r0 = String "," r1
             /\ Json.parse_items fuel (Json.skip_ws r1) (values ++ [value])
                = Some (v, r)).
Proof.
  cbn [Json.parse_items].
  destruct (Json.scan_once fuel s) as [[value r0]|] eqn:Hv; [|done].
  cbn [mbind option_bind].
  intros H. exists value, r0. split; [done|].
  destruct (Json.skip_ws r0) as [|d r1] eqn:Hr0; [done|].
  destruct (Ascii.eqb_spec d "]") as [->|Hd1]; [left; by injection H as <- <-|].
  destruct (Ascii.eqb_spec d ",") as [->|Hd2];
    [|exfalso; clear -H Hd1 Hd2; bits d; done].
  right. by exists r1.
Qed.

Lemma scanner_loop (fuel : nat) :
  (forall s v r,
     Json.scan_once fuel s = Some (v, r) ->
     forall stack,
       is_json_complete_loop s stack false false
       = is_json_complete_loop r stack false false)
  /\ (forall s pairs v r,
        Json.parse_pairs fuel s pairs = Some (v, r) ->
        forall stack,
          is_json_complete_loop s ("{"%char :: stack) true false
          = is_json_complete_loop r stack false false)
  /\ (forall s values v r,
        Json.parse_items fuel s values = Some (v, r) ->
        forall stack,
          is_json_complete_loop s ("["%char :: stack) false false
          = is_json_complete_loop r stack false false).
Proof.
  induction fuel as [|fuel (IHs & IHp & IHi)]; [by repeat split|].
  split; [|split].
  - intros s v r H stack.
    apply scan_once_inv in H
      as [(r0 & str & -> & Hs & ->)
         |[(r0 & -> & [[Hr0 ->]|(r1 & Hr0 & Hp)])
          |[(r0 & -> & [[Hr0 ->]|Hi])|Hc]]].
    + change (is_json_complete_loop (String "034" r0) stack false false)
        with (is_json_complete_loop r0 stack true false).
      by eapply scanstring_loop.
    + change (is_json_complete_loop (String "{" r0) stack false false)
        with (is_json_complete_loop r0 ("{"%char :: stack) false false).
      by rewrite <- (loop_skip_ws r0), Hr0.
    + change (is_json_complete_loop (String "{" r0) stack false false)
        with (is_json_complete_loop r0 ("{"%char :: stack) false false).
      rewrite <- (loop_skip_ws r0), Hr0.
      change (is_json_complete_loop (String "034" r1) ("{"%char :: stack) false false)
        with (is_json_complete_loop r1 ("{"%char :: stack) true false).
      by eapply IHp.
    + change (is_json_complete_loop (String "[" r0) stack false false)
        with (is_json_complete_loop r0 ("["%char :: stack) false false).
      by rewrite <- (loop_skip_ws r0), Hr0.
    + change (is_json_complete_loop (String "[" r0) stack false false)
        with (is_json_complete_loop r0 ("["%char :: stack) false false).
      rewrite <- (loop_skip_ws r0). by eapply IHi.
    + by apply scan_constant_scalar in Hc as [[Hl _] _].
  - intros s pairs v r H stack.
    apply parse_pairs_inv in H
      as (key & r0 & r1 & value & r2 & Hs & Hr0 & Hv & Hrest).
    rewrite (scanstring_loop _ _ _ Hs).
    rewrite <- (loop_skip_ws r0), Hr0, loop_passed_over by done.
    rewrite <- (loop_skip_ws r1), (IHs _ _ _ Hv), <- (loop_skip_ws r2).
    destruct Hrest as [[Hr2 ->]|(r3 & r4 & Hr2 & Hr3 & Hp)]; rewrite Hr2; [done|].
    rewrite loop_passed_over by done.
    rewrite <- (loop_skip_ws r3), Hr3.
    change (is_json_complete_loop (String "034" r4) ("{"%char :: stack) false false)
      with (is_json_complete_loop r4 ("{"%char :: stack) true false).
    by eapply IHp.
  - intros s values v r H stack.
    apply parse_items_inv in H as (value & r0 & Hv & Hrest).
    rewrite (IHs _ _ _ Hv), <- (loop_skip_ws r0).
    destruct Hrest as [[Hr0 ->]|(r1 & Hr0 & Hi)]; rewrite Hr0; [done|].
    rewrite loop_passed_over by done.
    rewrite <- (loop_skip_ws r1). by eapply IHi.
Qed.

Lemma parse_pairs_container (fuel : nat) (s : string)
    (pairs : list (string * json)) (v : json) (r : string) :
  Json.parse_pairs fuel s pairs = Some (v, r) -> is_container v = true.
Proof.
  revert s pairs. induction fuel as [|fuel IH]; intros s pairs H; [done|].
  apply parse_pairs_inv in H
    as (key & r0 & r1 & value & r2 & _ & _ & _ & [[_ ->]|(r3 & r4 & _ & _ & Hp)]);
    [done|by eapply IH].
Qed.

Lemma parse_items_container (fuel : nat) (s : string) (values : list json)
    (v : json) (r : string) :
  Json.parse_items fuel s values = Some (v, r) -> is_container v = true.
Proof.
  revert s values. induction fuel as [|fuel IH]; intros s values H; [done|].
  apply parse_items_inv in H as (value & r0 & _ & [[_ ->]|(r1 & _ & Hi)]);
    [done|by eapply IH].
Qed.

Lemma scan_once_first (fuel : nat) (s : string) (v : json) (r : string) :
  Json.scan_once fuel s = Some (v, r) ->
  exists c t, s = String c t /\ Py.isspace c = false
              /\ is_opener c = is_container v.
Proof.
  destruct fuel as [|fuel]; [done|]. intros H.
  apply scan_once_inv in H
    as [(r0 & str & -> & Hs & ->)
       |[(r0 & -> & [[Hr0 ->]|(r1 & Hr0 & Hp)])
        |[(r0 & -> & [[Hr0 ->]|Hi])|Hc]]].
  - by eexists _, _.
  - by eexists _, _.
  - apply parse_pairs_container in Hp. rewrite Hp. by eexists _, _.
  - by eexists _, _.
  - apply parse_items_container in Hi. rewrite Hi. by eexists _, _.
  - apply scan_constant_scalar in Hc as [[_ (c & t & -> & Hsp & Hop)] Hv].
    rewrite Hv. by eexists _, _.
Qed.

Lemma lstrip_skip_ws (s : string) : Py.lstrip (Json.skip_ws s) = Py.lstrip s.
Proof.
  induction s as [|c s IH]; [done|].
  cbn [Json.skip_ws Py.lstrip].
  destruct (Json.is_ws c) eqn:Hc; [|done].
  by rewrite (is_ws_isspace c Hc).
Qed.

Lemma strip_first (s : string) (c : ascii) (t : string) :
  Py.lstrip s = String c t -> Py.isspace c = false ->
  exists t', Py.strip s = String c t'.
Proof.
  intros Hl Hc. unfold Py.strip. rewrite <- lstrip_rstrip_commute, Hl.
  cbn [Py.rstrip]. rewrite Hc. destruct (Py.rstrip t); by eexists.
Qed.

(** A text that [json.loads] accepts passes the completeness check exactly
    when the value it holds is an object or an array: every JSON object or
    array is complete, whatever white space surrounds it, and a text that
    holds a string, a number, [true], [false] or [null] is not. So the
    check never holds back a buffer whose text is already valid JSON
    arguments. *)
Theorem is_json_complete_of_loads (s : string) (v : json) :
  Json.loads s = Some v -> is_json_complete s = is_container v.
Proof.
  unfold Json.loads. intros H.
  destruct (Json.scan_once _ (Json.skip_ws s)) as [[obj r]|] eqn:Hs; [|done].
  cbn [mbind option_bind] in H.
  destruct (Json.skip_ws r) as [|x r'] eqn:Hr; [|done].
  injection H as ->.
  rewrite is_json_complete_unstripped.
  destruct (scan_once_first _ _ _ _ Hs) as (c & t & Hc & Hsp & Hop).
  assert (Hl : Py.lstrip s = String c t).
  { rewrite <- lstrip_skip_ws, Hc. cbn. by rewrite Hsp. }
  destruct (strip_first _ _ _ Hl Hsp) as [t' ->].
  assert (Hstart : Py.startswith (String c t') "{" || Py.startswith (String c t') "["
                   = is_opener c).
  { unfold is_opener. cbn [Py.startswith]. rewrite !andb_true_r.
    by rewrite (Ascii.eqb_sym "{" c), (Ascii.eqb_sym "[" c). }
  rewrite Hstart, Hop.
  destruct (is_container v); [|done]. cbn [andb].
  rewrite <- (loop_skip_ws s), (proj1 (scanner_loop _) _ _ _ Hs).
  by rewrite <- (loop_skip_ws r), Hr.
Qed.

Lemma is_json_complete_of_loads_witness :
  Json.loads (Py.dq " {'todos': [{'id': 1, 'text': 'a]b'}]} ")
  = Some (JDict [("todos", JList [JDict [("id", JInt 1); ("text", JStr "a]b")]])])
  /\ is_json_complete (Py.dq " {'todos': [{'id': 1, 'text': 'a]b'}]} ") = true.
Proof.
  split; [reflexivity|].
  apply (is_json_complete_of_loads (Py.dq " {'todos': [{'id': 1, 'text': 'a]b'}]} ")
           (JDict [("todos", JList [JDict [("id", JInt 1); ("text", JStr "a]b")]])])).
  reflexivity.
Defined.

(** ** The end of the stream *)

Lemma lower_truthy (s : string) : Py.truthy (Py.lower s) = Py.truthy s.
Proof. by destruct s. Qed.

Lemma apply_fixes_name_truthy (cfg : config) (tool_name : string)
    (args_obj args_obj' : json) (final_tool_name : string) :
  apply_fixes cfg tool_name args_obj = Some (final_tool_name, args_obj') ->
  Py.truthy tool_name = true -> Py.truthy final_tool_name = true.
Proof.
  unfold apply_fixes. intros H Ht.
  assert (Hn : Py.truthy (if negb (default false (case_sensitive_tools (config_settings cfg)))
                          then Py.lower tool_name else tool_name) = true).
  { destruct (negb _); [by rewrite lower_truthy|done]. }
  destruct (default [] _) as [|fx fixes]; [by injection H as <- <-|].
  destruct args_obj; try done.
  pose proof (apply_fixes_loop_name (fx :: fixes) d
                (if negb (default false (case_sensitive_tools (config_settings cfg)))
                 then Py.lower tool_name else tool_name)) as Hl.
  destruct (apply_fixes_loop _ _ _) as [final result]. injection H as <- <-.
  cbn in Hl. by destruct Hl as [-> | ->].
Qed.

Section StreamEndProperties.
Context (cfg : config).

Lemma process_remaining_buffer_completion (buffer buffer' : ToolBuffer.t)
    (random_bits : N) (event : Event.t) :
  process_remaining_buffer cfg buffer random_bits = (buffer', Some event) ->
  is_completion event.
Proof.
  unfold process_remaining_buffer.
  destruct (Py.truthy (ToolBuffer.content buffer)); [|done].
  destruct (if negb (truthy_opt (try_fix_incomplete_json (ToolBuffer.content buffer)))
            then _ else _) as [b fixed_json].
  destruct (truthy_opt fixed_json && Py.truthy (ToolBuffer.tool_name b)) eqn:Ht;
    [|done].
  apply andb_true_iff in Ht as [_ Hname].
  destruct (Json.loads _) as [args_obj|]; [|done].
  destruct (apply_fixes cfg (ToolBuffer.tool_name b) args_obj)
    as [[final_tool_name args_obj']|] eqn:Hfix; [|done].
  intros [= _ <-]. eexists _, _, _. split; [done|].
  split; [apply fresh_call_id_form|by eapply apply_fixes_name_truthy].
Qed.

Context (entropy : nat -> N).

Lemma process_remaining_loop_written (items : list (string * ToolBuffer.t))
    (draws : nat) :
  Forall is_completion (process_remaining_loop cfg entropy items draws).2
  /\ (length (process_remaining_loop cfg entropy items draws).2 <= length items)%nat.
Proof.
  revert draws. induction items as [|[call_id buffer] rest IH]; intros draws.
  - cbn. split; [constructor|lia].
  - cbn [process_remaining_loop].
    destruct (process_remaining_buffer cfg buffer (entropy draws))
      as [buffer' [event|]] eqn:Hb.
    + destruct (IH (S draws)) as [Hall Hlen].
      destruct (process_remaining_loop cfg entropy rest (S draws)) as [rest' written].
      cbn in Hall, Hlen |- *. split; [|lia].
      constructor; [by eapply process_remaining_buffer_completion|done].
    + destruct (IH draws) as [Hall Hlen].
      destruct (process_remaining_loop cfg entropy rest draws) as [rest' written].
      cbn in Hall, Hlen |- *. split; [done|lia].
Qed.

Context (items : gmap string ToolBuffer.t -> list (string * ToolBuffer.t)).

(** Every event written to the client at the end of the stream is a
    completion event of the expected shape: one choice, one tool call with
    index 0, an identifier [call_] and 24 lower-case hexadecimal digits, and
    a tool name that is not empty; a buffer of unknown tool is never turned
    into a call. At most one event is written for each buffer gone through,
    and none for a request without state. *)
Theorem relay_done_written (request_states : gmap string RequestState.t)
    (request_id : string) :
  let written := (relay_done cfg entropy items request_states request_id).2 in
  Forall is_completion written
  /\ match request_states !! request_id with
     | Some st =>
         (length written <= length (items (RequestState.tool_buffers st)))%nat
     | None => written = []
     end.
Proof.
  cbv zeta. unfold relay_done, process_remaining_buffers.
  destruct (request_states !! request_id) as [st|]; [|by split].
  destruct (decide (RequestState.tool_buffers st = ∅)).
  - cbn. split; [constructor|lia].
  - pose proof (process_remaining_loop_written
                  (items (RequestState.tool_buffers st)) O) as [Hall Hlen].
    by destruct (process_remaining_loop cfg entropy _ O) as [buffers written].
Qed.

(** After the line [[DONE]] the state of the request is gone and the
    states of the other requests are as they were; an event of that request
    that comes afterwards is returned as it came, with nothing recorded and
    nothing logged by the duplicate check. *)
Theorem relay_done_cleanup (request_states : gmap string RequestState.t)
    (request_id : string) (event : Event.t) :
  let request_states' :=
    (relay_done cfg entropy items request_states request_id).1 in
  request_states' = delete request_id request_states
  /\ process_sse_event cfg entropy request_states' event request_id
     = (request_states', Returned event)
  /\ (relay_event cfg entropy request_states' event request_id).1.1
     = request_states'
  /\ (relay_event cfg entropy request_states' event request_id).2 = [].
Proof.
  cbv zeta.
  assert (Hrs : (relay_done cfg entropy items request_states request_id).1
                = delete request_id request_states).
  { unfold relay_done, process_remaining_buffers, cleanup_request.
    destruct (request_states !! request_id) as [st|]; [|done].
    destruct (decide (RequestState.tool_buffers st = ∅)); [done|].
    destruct (process_remaining_loop cfg entropy _ O) as [buffers written].
    cbn. apply delete_insert_eq. }
  rewrite Hrs. split; [done|].
  assert (Hp : process_sse_event cfg entropy (delete request_id request_states)
                 event request_id
               = (delete request_id request_states, Returned event)).
  { unfold process_sse_event. by rewrite lookup_delete_eq. }
  split; [done|].
  unfold relay_event. rewrite Hp.
  destruct (Event.choices event) as [[|choice others]|]; [done| |done].
  destruct (Choice.delta choice ≫= Delta.tool_calls); [|done].
  by rewrite lookup_delete_eq.
Qed.

End StreamEndProperties.

(** The buffer of the example is closed and written as one [bash] call, to
    which the fix engine has added the description. *)
Example relay_done_example :
  relay_done _get_default_config example_entropy map_to_list
    example_held_states "req"
  = (∅,
     [completion_event
        (ToolCall.synthesized "call_000000000000400080000000" "bash"
           (Py.dq "{'command': 'ls', 'description': 'Execute the given shell command'}"))]).
Proof. vm_compute. reflexivity. Qed.

(** ** Bracket closing: a repaired text needs no repair *)

Lemma count_repeat (a c : ascii) (n : Z) :
  Py.count a (Py.repeat c n) = if Ascii.eqb c a then Z.to_nat n else 0%nat.
Proof.
  unfold Py.repeat. induction (Z.to_nat n) as [|k IH]; cbn.
  - by destruct (Ascii.eqb c a).
  - rewrite IH. by destruct (Ascii.eqb c a).
Qed.

Lemma rstrip_no_space (s : string) :
  all_chars (fun c => negb (Py.isspace c)) s = true -> Py.rstrip s = s.
Proof.
  induction s as [|c s IH]; [done|].
  cbn [all_chars Py.rstrip]. intros [Hc Hs]%andb_true_iff.
  rewrite (IH Hs). apply negb_true_iff in Hc. rewrite Hc. by destruct s.
Qed.

Lemma all_chars_repeat (p : ascii -> bool) (c : ascii) (n : Z) :
  p c = true -> all_chars p (Py.repeat c n) = true.
Proof.
  intros Hc. unfold Py.repeat. induction (Z.to_nat n) as [|k IH]; [done|].
  cbn. by rewrite Hc, IH.
Qed.

Lemma rstrip_append (s t : string) :
  Py.rstrip t <> EmptyString -> Py.rstrip (s +:+ t) = s +:+ Py.rstrip t.
Proof.
  intros Ht. induction s as [|c s IH]; [done|].
  rewrite !append_cons. cbn [Py.rstrip]. rewrite IH.
  destruct (s +:+ Py.rstrip t) as [|a r] eqn:Hs; [|done].
  destruct s; [|done]. rewrite append_empty_l in Hs. done.
Qed.

Lemma length_lstrip (s : string) :
  (String.length (Py.lstrip s) <= String.length s)%nat.
Proof.
  induction s as [|c s IH]; [done|].
  cbn [Py.lstrip]. destruct (Py.isspace c); cbn; lia.
Qed.

Lemma lstrip_append (s t : string) :
  Py.lstrip s = s -> s <> EmptyString -> Py.lstrip (s +:+ t) = s +:+ t.
Proof.
  destruct s as [|c s]; [done|]. intros H _.
  rewrite append_cons. cbn [Py.lstrip] in H |- *.
  destruct (Py.isspace c); [|done].
  pose proof (length_lstrip s) as Hl. rewrite H in Hl. cbn in Hl. lia.
Qed.

Lemma strip_append_closers (s closers : string) :
  Py.strip s <> EmptyString ->
  all_chars (fun c => negb (Py.isspace c)) closers = true ->
  Py.strip (Py.strip s +:+ closers) = Py.strip s +:+ closers.
Proof.
  intros Hs Hc. unfold Py.strip at 1.
  assert (Hr : Py.rstrip (Py.strip s +:+ closers) = Py.strip s +:+ closers).
  { destruct closers as [|c cl].
    - rewrite append_empty_r. unfold Py.strip.
      by rewrite <- lstrip_rstrip_commute, rstrip_idempotent.
    - rewrite rstrip_append; rewrite rstrip_no_space by done; done. }
  rewrite Hr. apply lstrip_append; [|done].
  unfold Py.strip. apply lstrip_idempotent.
Qed.

(** What the bracket-closing repair returns is a fixed point of the
    repair: given its own result again, [try_fix_incomplete_json] appends
    nothing and returns it unchanged. *)
Theorem try_fix_incomplete_json_fixed_point (json_str result : string) :
  try_fix_incomplete_json json_str = Some result ->
  try_fix_incomplete_json result = Some result.
Proof.
  unfold try_fix_incomplete_json at 1.
  destruct (Py.truthy (Py.strip json_str)) eqn:Ht; cbn [negb];
    [|by intros [= <-]].
  set (t := Py.strip json_str) in *.
  set (cl1 := Py.repeat "]" (Z.of_nat (Py.count "[" t) - Z.of_nat (Py.count "]" t))).
  set (cl2 := Py.repeat "}" (Z.of_nat (Py.count "{" t) - Z.of_nat (Py.count "}" t))).
  destruct (Json.loads ((t +:+ cl1) +:+ cl2)) as [v|] eqn:Hv; [|done].
  intros [= <-].
  assert (Hne : t <> EmptyString) by (by destruct t).
  assert (Hstrip : Py.strip ((t +:+ cl1) +:+ cl2) = (t +:+ cl1) +:+ cl2).
  { rewrite append_assoc. apply strip_append_closers; [done|].
    rewrite all_chars_append. unfold cl1, cl2.
    by rewrite !all_chars_repeat. }
  unfold try_fix_incomplete_json. rewrite Hstrip.
  assert (Htr : Py.truthy ((t +:+ cl1) +:+ cl2) = true).
  { destruct t; [done|]. by rewrite !append_cons. }
  rewrite Htr. cbn [negb].
  assert (Hcount : forall a,
    Py.count a ((t +:+ cl1) +:+ cl2)
    = (Py.count a t
       + (if Ascii.eqb "]" a
          then Z.to_nat (Z.of_nat (Py.count "[" t) - Z.of_nat (Py.count "]" t))
          else 0)
       + (if Ascii.eqb "}" a
          then Z.to_nat (Z.of_nat (Py.count "{" t) - Z.of_nat (Py.count "}" t))
          else 0))%nat).
  { intros a. rewrite !count_append. unfold cl1, cl2. by rewrite !count_repeat. }
  rewrite (Hcount "["%char), (Hcount "]"%char), (Hcount "{"%char),
    (Hcount "}"%char).
  change (Ascii.eqb "]" "[") with false. change (Ascii.eqb "}" "[") with false.
  change (Ascii.eqb "]" "]") with true. change (Ascii.eqb "}" "]") with false.
  change (Ascii.eqb "]" "{") with false. change (Ascii.eqb "}" "{") with false.
  change (Ascii.eqb "]" "}") with false. change (Ascii.eqb "}" "}") with true.
  cbv iota.
  rewrite !repeat_nonpositive by lia.
  rewrite !append_empty_r. by rewrite Hv.
Qed.

Lemma try_fix_incomplete_json_fixed_point_witness :
  try_fix_incomplete_json (Py.dq " {'todos': [1, 2")
  = Some (Py.dq "{'todos': [1, 2]}")
  /\ try_fix_incomplete_json (Py.dq "{'todos': [1, 2]}")
     = Some (Py.dq "{'todos': [1, 2]}").
Proof.
  split; [reflexivity|].
  apply (try_fix_incomplete_json_fixed_point (Py.dq " {'todos': [1, 2")).
  reflexivity.
Defined.

(** ** Completeness analyzer: white space around the text *)

(** [is_json_complete] strips the text only to look at its first
    character: the bracket scan gives the same verdict on the text as it
    came, white space around it included, as on the stripped text. So the
    result is the verdict of the scan of the unstripped text for a text
    that starts, after white space, with an opening brace or bracket, and
    stripping a text beforehand does not change the result. *)
Theorem is_json_complete_white_space (s : string) :
  is_json_complete_loop (Py.strip s) [] false false
  = is_json_complete_loop s [] false false
  /\ is_json_complete s
     = (Py.startswith (Py.strip s) "{" || Py.startswith (Py.strip s) "[")
       && is_json_complete_loop s [] false false
  /\ is_json_complete (Py.strip s) = is_json_complete s.
Proof.
  assert (Hloop : forall t, is_json_complete_loop (Py.strip t) [] false false
                            = is_json_complete_loop t [] false false).
  { intros t. unfold Py.strip. by rewrite loop_lstrip, loop_rstrip. }
  assert (Hscan : forall t,
    is_json_complete t
    = (Py.startswith (Py.strip t) "{" || Py.startswith (Py.strip t) "[")
      && is_json_complete_loop t [] false false).
  { intros t. unfold is_json_complete.
    destruct (Py.truthy t) eqn:Ht; cbn [negb orb].
    - destruct (Py.truthy (Py.strip t)) eqn:Hst; cbn [negb].
      + rewrite Hloop. by destruct (_ || _).
      + by rewrite strip_empty_not_opener.
    - by destruct t. }
  split; [apply Hloop|]. split; [apply Hscan|].
  by rewrite !Hscan, strip_idempotent, Hloop.
Qed.

(** ** Stream event processor: a named call with complete arguments *)

Section NamedComplete.
Context (cfg : config) (entropy : nat -> N).

(** A named call whose accumulated argument text passes the completeness
    check is answered in place, whatever its identifier: the tool call
    becomes what [process_complete_buffer] makes of it (same index and
    identifier), the buffer under its identifier is deleted, no other buffer
    changes, no identifier is generated and nothing is raised. The change
    shows in [delta["tool_calls"]] when that list is still the one the tool
    call sits in, that is, when the event carried no anonymous fragment. The
    name the buffer carries is the one it had, or the one of the call when
    the buffer is new. *)
Theorem process_named_call_complete (request_id : string) (attached : bool)
    (pos : nat)
    (tool : ToolCall.t) (f : Func.t) (call_id frag : string) (w : work) :
  ToolCall.id tool = Some call_id ->
  ToolCall.function tool = Some f ->
  Func.arguments f = Some frag ->
  is_json_complete (accumulated (w_state w) call_id frag) = true ->
  exists buffer,
    ToolBuffer.content buffer = accumulated (w_state w) call_id frag
    /\ ToolBuffer.tool_name buffer
       = match RequestState.tool_buffers (w_state w) !! call_id with
         | Some b => ToolBuffer.tool_name b
         | None => default EmptyString (Func.name f)
         end
    /\ process_named_call cfg entropy request_id attached (pos, tool) w
       = ({| w_state :=
               RequestState.set_tool_buffers
                 (delete call_id (RequestState.tool_buffers (w_state w)))
                 (w_state w);
             w_tool_calls :=
               if attached
               then <[pos := process_complete_buffer cfg buffer tool]>
                      (w_tool_calls w)
               else w_tool_calls w;
             w_draws := w_draws w |}, None).
Proof.
  intros Hid Hf Hfrag Hcomplete.
  unfold process_named_call. rewrite Hid, Hf. cbn [default from_option id].
  rewrite Hfrag, ensure_buffer_lookup. cbn [default from_option id].
  set (base := default (ToolBuffer.make call_id request_id
                          (default EmptyString (Func.name f)))
                 (RequestState.tool_buffers (w_state w) !! call_id)).
  assert (Hcontent : ToolBuffer.content (ToolBuffer.update_content frag base)
                     = accumulated (w_state w) call_id frag).
  { unfold base, accumulated.
    by destruct (RequestState.tool_buffers (w_state w) !! call_id). }
  rewrite Hcontent, truthy_and_complete, Hcomplete.
  exists (ToolBuffer.update_content frag base).
  split; [done|]. split.
  - unfold base. by destruct (RequestState.tool_buffers (w_state w) !! call_id).
  - do 3 f_equal. rewrite delete_insert_eq. unfold ensure_buffer.
    destruct (RequestState.tool_buffers (w_state w) !! call_id); [done|].
    apply delete_insert_eq.
Qed.

End NamedComplete.

Lemma process_named_call_complete_witness :
  let tool := example_tool (Some 0) (Some "call_1") (Some "Bash")
                (Some (Py.dq "{'command': 'ls'}")) in
  let w := {| w_state := RequestState.make "req"; w_tool_calls := [tool];
              w_draws := O |} in
  is_json_complete (accumulated (w_state w) "call_1" (Py.dq "{'command': 'ls'}"))
  = true
  /\ exists buffer,
       ToolBuffer.content buffer = Py.dq "{'command': 'ls'}"
       /\ process_named_call _get_default_config example_entropy "req" true
            (O, tool) w
          = ({| w_state :=
                  RequestState.set_tool_buffers
                    (delete "call_1" (RequestState.tool_buffers (w_state w)))
                    (w_state w);
                w_tool_calls :=
                  <[O := process_complete_buffer _get_default_config buffer tool]>
                    (w_tool_calls w);
                w_draws := w_draws w |}, None).
Proof.
  cbv zeta. split; [reflexivity|].
  destruct (process_named_call_complete _get_default_config example_entropy
              "req" true O
              (example_tool (Some 0) (Some "call_1") (Some "Bash")
                 (Some (Py.dq "{'command': 'ls'}")))
              {| Func.name := Some "Bash";
                 Func.arguments := Some (Py.dq "{'command': 'ls'}");
                 Func.extra := [] |}
              "call_1" (Py.dq "{'command': 'ls'}")
              {| w_state := RequestState.make "req";
                 w_tool_calls :=
                   [example_tool (Some 0) (Some "call_1") (Some "Bash")
                      (Some (Py.dq "{'command': 'ls'}"))];
                 w_draws := O |}
              eq_refl eq_refl eq_refl eq_refl)
    as (buffer & Hc & _ & Hp).
  exists buffer. split; [exact Hc|exact Hp].
Defined.

(** ** Serialised arguments parse again *)

(** *** Strings *)

Lemma scanstring_escape (c : ascii) (t : string) :
  Json.scanstring (Json.escape c +:+ t)
  = '(str, r) ← Json.scanstring t; Some (String c str, r).
Proof. bits c; reflexivity. Qed.

Lemma scanstring_escape_all (s rest : string) :
  Json.scanstring (Json.escape_all s +:+ String "034" rest) = Some (s, rest).
Proof.
  induction s as [|c s IH]; [done|].
  cbn [Json.escape_all]. rewrite append_assoc, scanstring_escape, IH. done.
Qed.

Lemma scan_once_string (fuel : nat) (s rest : string) :
  Json.scan_once (S fuel) (Json.encode_basestring s +:+ rest) = Some (JStr s, rest).
Proof.
  unfold Json.encode_basestring. rewrite append_cons, append_assoc, append_cons.
  cbn [Json.scan_once]. rewrite append_empty_l, scanstring_escape_all. done.
Qed.

(** *** Numbers *)

Lemma delimited_not_digit_next (rest : string) :
  delimited rest = true -> not_digit_next rest = true.
Proof.
  destruct rest as [|c t]; [done|]. cbn.
  by destruct (Json.is_digit c).
Qed.

Lemma take_digits_all (s ds r : string) :
  Json.take_digits s = (ds, r) -> all_chars Json.is_digit ds = true.
Proof.
  revert ds r. induction s as [|c s IH]; intros ds r; cbn [Json.take_digits].
  - by intros [= <- <-].
  - destruct (Json.is_digit c) eqn:Hc; [|by intros [= <- <-]].
    destruct (Json.take_digits s) as [ds' r'] eqn:Ht.
    intros [= <- <-]. cbn. rewrite Hc. by eapply IH.
Qed.

Lemma take_digits_app (ds rest : string) :
  all_chars Json.is_digit ds = true -> not_digit_next rest = true ->
  Json.take_digits (ds +:+ rest) = (ds, rest).
Proof.
  intros Hds Hrest. induction ds as [|c ds IH].
  - rewrite append_empty_l. destruct rest as [|c t]; [done|].
    cbn in Hrest |- *. apply negb_true_iff in Hrest. by rewrite Hrest.
  - cbn in Hds. apply andb_true_iff in Hds as [Hc Hds].
    rewrite append_cons. cbn [Json.take_digits]. by rewrite Hc, IH.
Qed.

Lemma match_frac_none (s : string) :
  Py.startswith s "." = false -> Json.match_frac s = (None, s).
Proof.
  destruct s as [|c t]; [done|]. cbn [Py.startswith]. rewrite andb_true_r.
  intros Hc. unfold Json.match_frac. bits c; try reflexivity. done.
Qed.

Lemma match_exp_none (s : string) :
  Py.startswith s "e" = false -> Py.startswith s "E" = false ->
  Json.match_exp s = (None, s).
Proof.
  destruct s as [|c t]; [done|]. cbn [Py.startswith]. rewrite !andb_true_r.
  intros He HE. unfold Json.match_exp.
  by rewrite (Ascii.eqb_sym c "e"), (Ascii.eqb_sym c "E"), He, HE.
Qed.

Lemma delimited_starts (rest : string) :
  delimited rest = true ->
  Py.startswith rest "." = false /\ Py.startswith rest "e" = false
  /\ Py.startswith rest "E" = false.
Proof.
  destruct rest as [|c t]; [done|]. cbn [delimited Py.startswith].
  rewrite !andb_true_r.
  rewrite (Ascii.eqb_sym "." c), (Ascii.eqb_sym "e" c), (Ascii.eqb_sym "E" c).
  intros H. apply negb_true_iff in H.
  apply orb_false_iff in H as [H HE]. apply orb_false_iff in H as [H He].
  apply orb_false_iff in H as [_ Hdot]. done.
Qed.

(** The shape of the integer part of a number: a sign, then a single zero
    or digits that do not begin with a zero *)
Lemma match_integer_shape (s lexeme r : string) :
  Json.match_integer s = Some (lexeme, r) ->
  exists sign ds c t,
    lexeme = sign +:+ ds /\ (sign = EmptyString \/ sign = "-")
    /\ ds = String c t /\ Json.is_digit c = true
    /\ all_chars Json.is_digit ds = true
    /\ (c = "0"%char -> t = EmptyString).
Proof.
  unfold Json.match_integer.
  destruct s as [|c t]; [done|].
  destruct (Ascii.eqb_spec c "-") as [->|Hm].
  - destruct t as [|d t']; [done|].
    destruct (Ascii.eqb_spec d "0") as [->|Hz].
    + intros [= <- <-]. exists "-", "0", "0"%char, EmptyString. by repeat split; eauto.
    + destruct (Json.is_digit d) eqn:Hdig.
      * intros H.
        assert (H' : (let '(ds, r0) := Json.take_digits (String d t') in
                      Some ("-" +:+ ds, r0)) = Some (lexeme, r)).
        { rewrite <- H. clear -Hz Hdig. bits d; try reflexivity; done. }
        destruct (Json.take_digits (String d t')) as [ds r0] eqn:Ht.
        injection H' as <- <-.
        pose proof (take_digits_all _ _ _ Ht) as Hall.
        cbn [Json.take_digits] in Ht. rewrite Hdig in Ht.
        destruct (Json.take_digits t') as [ds' r']. injection Ht as <- <-.
        exists "-", (String d ds'), d, ds'. repeat split; eauto. done.
      * intros H. exfalso.
        assert (H' : (None : option (string * string)) = Some (lexeme, r)).
        { rewrite <- H. clear -Hz Hdig. bits d; try reflexivity; done. }
        done.
  - destruct (Ascii.eqb_spec c "0") as [->|Hz].
    + intros [= <- <-].
      exists EmptyString, "0", "0"%char, EmptyString. by repeat split; eauto.
    + destruct (Json.is_digit c) eqn:Hdig.
      * intros H.
        assert (H' : (let '(ds, r0) := Json.take_digits (String c t) in
                      Some (EmptyString +:+ ds, r0)) = Some (lexeme, r)).
        { rewrite <- H. clear -Hm Hz Hdig. bits c; try reflexivity; done. }
        destruct (Json.take_digits (String c t)) as [ds r0] eqn:Ht.
        injection H' as <- <-.
        pose proof (take_digits_all _ _ _ Ht) as Hall.
        cbn [Json.take_digits] in Ht. rewrite Hdig in Ht.
        destruct (Json.take_digits t) as [ds' r']. injection Ht as <- <-.
        exists EmptyString, (String c ds'), c, ds'. repeat split; eauto. done.
      * intros H. exfalso.
        assert (H' : (None : option (string * string)) = Some (lexeme, r)).
        { rewrite <- H. clear -Hm Hz Hdig. bits c; try reflexivity; done. }
        done.
Qed.

(** An integer part of that shape is read again as it is, in front of any
    text that does not begin with a digit. *)
Lemma match_integer_app (sign ds : string) (c : ascii) (t rest : string) :
  sign = EmptyString \/ sign = "-" ->
  ds = String c t -> Json.is_digit c = true ->
  all_chars Json.is_digit ds = true ->
  (c = "0"%char -> t = EmptyString) ->
  not_digit_next rest = true ->
  Json.match_integer ((sign +:+ ds) +:+ rest) = Some (sign +:+ ds, rest).
Proof.
  intros Hsign -> Hc Hall Hzero Hrest.
  assert (Hcore : forall sg : string,
    match String c (t +:+ rest) with
    | String "0" r => Some (sg +:+ "0", r)
    | String c0 _ =>
        if Json.is_digit c0
        then let '(ds, r) := Json.take_digits (String c (t +:+ rest)) in
             Some (sg +:+ ds, r)
        else None
    | EmptyString => None
    end = Some (sg +:+ String c t, rest)).
  { intros sg. destruct (Ascii.eqb_spec c "0") as [->|Hz].
    - rewrite (Hzero eq_refl). by rewrite append_empty_l.
    - assert (Hd : match String c (t +:+ rest) with
                   | String "0" r => Some (sg +:+ "0", r)
                   | String c0 _ =>
                       if Json.is_digit c0
                       then let '(ds, r) := Json.take_digits (String c (t +:+ rest)) in
                            Some (sg +:+ ds, r)
                       else None
                   | EmptyString => None
                   end
                   = let '(ds, r) := Json.take_digits (String c (t +:+ rest)) in
                     Some (sg +:+ ds, r)).
      { clear -Hz Hc. bits c; try reflexivity; done. }
      rewrite Hd. rewrite <- append_cons, take_digits_app by done. done. }
  unfold Json.match_integer.
  destruct Hsign as [-> | ->].
  - rewrite append_empty_l, append_cons.
    assert (Hnm : c <> "-"%char) by (intros ->; done).
    etrans; [|exact (Hcore EmptyString)].
    clear -Hnm. bits c; try reflexivity. done.
  - change (("-" +:+ String c t) +:+ rest) with (String "-" (String c (t +:+ rest))).
    apply (Hcore "-").
Qed.

Lemma match_frac_shape (s f r : string) :
  Json.match_frac s = (Some f, r) ->
  exists ds, f = String "." ds /\ ds <> EmptyString
             /\ all_chars Json.is_digit ds = true.
Proof.
  unfold Json.match_frac.
  destruct s as [|c t]; [done|].
  destruct (Ascii.eqb_spec c ".") as [->|Hc].
  - destruct (Json.take_digits t) as [ds r'] eqn:Ht.
    destruct ds as [|d ds]; [done|].
    intros [= <- <-]. exists (String d ds). split; [done|]. split; [done|].
    by eapply take_digits_all.
  - intros H.
    assert (H' : (None : option string, String c t) = (Some f, r)).
    { rewrite <- H. clear -Hc. bits c; try reflexivity; done. }
    done.
Qed.

Lemma match_frac_app (ds rest : string) :
  ds <> EmptyString -> all_chars Json.is_digit ds = true ->
  not_digit_next rest = true ->
  Json.match_frac (String "." ds +:+ rest) = (Some (String "." ds), rest).
Proof.
  intros Hne Hall Hrest. rewrite append_cons. cbn [Json.match_frac].
  rewrite take_digits_app by done. by destruct ds.
Qed.

Lemma match_exp_shape (s e r : string) :
  Json.match_exp s = (Some e, r) ->
  exists c sign ds,
    e = String c (sign +:+ ds)
    /\ (c = "e"%char \/ c = "E"%char)
    /\ (sign = EmptyString \/ sign = "-" \/ sign = "+")
    /\ ds <> EmptyString /\ all_chars Json.is_digit ds = true.
Proof.
  unfold Json.match_exp.
  destruct s as [|c t]; [done|].
  destruct (Ascii.eqb c "e" || Ascii.eqb c "E") eqn:He; [|done].
  assert (Hc : c = "e"%char \/ c = "E"%char).
  { apply orb_true_iff in He as [H|H]; apply Ascii.eqb_eq in H; eauto. }
  destruct t as [|d t'].
  - done.
  - destruct (Ascii.eqb_spec d "-") as [->|Hm];
      [|destruct (Ascii.eqb_spec d "+") as [->|Hpl]].
    + destruct (Json.take_digits t') as [ds r'] eqn:Ht.
      destruct ds as [|x ds]; [done|].
      intros [= <- <-]. exists c, "-", (String x ds).
      repeat split; eauto. by eapply take_digits_all.
    + destruct (Json.take_digits t') as [ds r'] eqn:Ht.
      destruct ds as [|x ds]; [done|].
      intros [= <- <-]. exists c, "+", (String x ds).
      repeat split; eauto. by eapply take_digits_all.
    + intros H.
      assert (H' : match Json.take_digits (String d t') with
                   | (EmptyString, _) => (None, String c (String d t'))
                   | (ds, r') => (Some (String c (EmptyString +:+ ds)), r')
                   end = (Some e, r)).
      { rewrite <- H. clear -Hm Hpl. bits d; try reflexivity; done. }
      destruct (Json.take_digits (String d t')) as [ds r'] eqn:Ht.
      destruct ds as [|x ds]; [done|].
      injection H' as <- <-. exists c, EmptyString, (String x ds).
      repeat split; eauto. by eapply take_digits_all.
Qed.

Lemma match_exp_app (c : ascii) (sign ds rest : string) :
  c = "e"%char \/ c = "E"%char ->
  sign = EmptyString \/ sign = "-" \/ sign = "+" ->
  ds <> EmptyString -> all_chars Json.is_digit ds = true ->
  not_digit_next rest = true ->
  Json.match_exp (String c (sign +:+ ds) +:+ rest)
  = (Some (String c (sign +:+ ds)), rest).
Proof.
  intros Hc Hsign Hne Hall Hrest.
  rewrite append_cons, append_assoc. unfold Json.match_exp.
  assert (He : Ascii.eqb c "e" || Ascii.eqb c "E" = true)
    by (by destruct Hc as [-> | ->]).
  rewrite He.
  destruct Hsign as [-> | [-> | ->]].
  - rewrite !append_empty_l.
    destruct ds as [|x ds]; [done|].
    cbn in Hall. apply andb_true_iff in Hall as [Hx Hds].
    rewrite append_cons.
    assert (Hmatch : match String x (ds +:+ rest) with
                     | String "-" r1 => ("-", r1)
                     | String "+" r1 => ("+", r1)
                     | _ => (EmptyString, String x (ds +:+ rest))
                     end = (EmptyString, String x (ds +:+ rest))).
    { clear -Hx. bits x; try reflexivity; done. }
    rewrite Hmatch. rewrite <- append_cons, take_digits_app; [done| |done].
    cbn. by rewrite Hx, Hds.
  - change ("-" +:+ (ds +:+ rest)) with (String "-" (ds +:+ rest)).
    cbv iota. rewrite take_digits_app by done. by destruct ds.
  - change ("+" +:+ (ds +:+ rest)) with (String "+" (ds +:+ rest)).
    cbv iota. rewrite take_digits_app by done. by destruct ds.
Qed.

Lemma scan_constant_match_number (s : string) (res : json * string) :
  Json.match_number s = Some res -> Json.scan_constant s = Some res.
Proof.
  intros H. unfold Json.scan_constant. rewrite H.
  assert (Hfirst : exists c t, s = String c t
                               /\ (c = "-"%char \/ Json.is_digit c = true)).
  { unfold Json.match_number in H.
    destruct (Json.match_integer s) as [[lexeme r]|] eqn:Hi; [|done].
    destruct (match_integer_shape _ _ _ Hi)
      as (sign & ds & c & t & -> & Hsign & -> & Hc & _).
    unfold Json.match_integer in Hi.
    destruct s as [|a s']; [done|].
    exists a, s'. split; [done|].
    destruct (Ascii.eqb_spec a "-") as [->|Hm]; [by left|right].
    destruct (Json.is_digit a) eqn:Ha; [done|]. exfalso.
    assert (H' : (None : option (string * string))
                 = Some (sign +:+ String c t, r)).
    { rewrite <- Hi. clear -Hm Ha. bits a; try reflexivity; done. }
    done. }
  destruct Hfirst as (c & t & -> & Hc).
  assert (Hn : Json.strip_prefix "null" (String c t) = None
               /\ Json.strip_prefix "true" (String c t) = None
               /\ Json.strip_prefix "false" (String c t) = None).
  { cbn [Json.strip_prefix].
    destruct Hc as [->|Hc]; [done|]. clear -Hc. by bits c. }
  destruct Hn as (-> & -> & ->). done.
Qed.

(** A float that [json.loads] has read has a lexeme. *)
Lemma match_number_float (s lexeme r : string) :
  Json.match_number s = Some (JFloat lexeme, r) -> float_lexeme lexeme.
Proof.
  unfold Json.match_number.
  destruct (Json.match_integer s) as [[integer r0]|] eqn:Hi; [|done].
  cbn [mbind option_bind].
  destruct (Json.match_frac r0) as [frac r1] eqn:Hf.
  destruct (Json.match_exp r1) as [exp r2] eqn:He.
  destruct (match_integer_shape _ _ _ Hi)
    as (sign & ds & c & t & -> & Hsign & Hds & Hc & Hall & Hzero).
  intros H rest Hrest.
  pose proof (delimited_not_digit_next _ Hrest) as Hnd.
  destruct (delimited_starts _ Hrest) as (Hdot & Hse & HsE).
  apply scan_constant_match_number. unfold Json.match_number.
  destruct frac as [f|], exp as [e|]; try done; injection H as <- <-;
    cbn [default from_option id].
  - destruct (match_frac_shape _ _ _ Hf) as (fds & -> & Hfne & Hfall).
    destruct (match_exp_shape _ _ _ He)
      as (ec & esign & eds & -> & Hec & Hes & Hene & Heall).
    rewrite !append_assoc.
    rewrite <- (append_assoc sign ds), (match_integer_app sign ds c t) by done.
    cbn [mbind option_bind].
    rewrite match_frac_app; [|done|done|by destruct Hec as [-> | ->]].
    rewrite match_exp_app by done.
    cbn [default from_option id]. by rewrite !append_assoc.
  - destruct (match_frac_shape _ _ _ Hf) as (fds & -> & Hfne & Hfall).
    rewrite append_empty_r, !append_assoc.
    rewrite <- (append_assoc sign ds), (match_integer_app sign ds c t) by done.
    cbn [mbind option_bind].
    rewrite match_frac_app by done.
    rewrite match_exp_none by done.
    cbn [default from_option id]. by rewrite ?append_empty_r, ?append_assoc.
  - destruct (match_exp_shape _ _ _ He)
      as (ec & esign & eds & -> & Hec & Hes & Hene & Heall).
    rewrite append_empty_l, !append_assoc.
    rewrite <- (append_assoc sign ds),
      (match_integer_app sign ds c t); [|done..|by destruct Hec as [-> | ->]].
    cbn [mbind option_bind].
    rewrite match_frac_none by (by destruct Hec as [-> | ->]).
    rewrite match_exp_app by done.
    cbn [default from_option id]. by rewrite ?append_empty_l, ?append_assoc.
Qed.

Lemma float_lexeme_names :
  float_lexeme "NaN" /\ float_lexeme "Infinity" /\ float_lexeme "-Infinity".
Proof. repeat split; intros rest _; reflexivity. Qed.

Lemma match_number_kind (s : string) (v : json) (r : string) :
  Json.match_number s = Some (v, r) ->
  (exists z, v = JInt z) \/ (exists lexeme, v = JFloat lexeme).
Proof.
  unfold Json.match_number.
  destruct (Json.match_integer s) as [[integer r0]|]; [|done].
  cbn [mbind option_bind].
  destruct (Json.match_frac r0) as [frac r1].
  destruct (Json.match_exp r1) as [exp r2].
  destruct frac, exp; intros [= <- <-]; eauto.
Qed.

(** A value that [scan_constant] has read is well formed. *)
Lemma scan_constant_wf (s : string) (v : json) (r : string) :
  Json.scan_constant s = Some (v, r) -> wf_json v.
Proof.
  unfold Json.scan_constant.
  destruct (Json.strip_prefix "null" s); [intros [= <- _]; constructor|].
  destruct (Json.strip_prefix "true" s); [intros [= <- _]; constructor|].
  destruct (Json.strip_prefix "false" s); [intros [= <- _]; constructor|].
  destruct (Json.match_number s) as [[v0 r0]|] eqn:Hn.
  { intros [= <- <-].
    destruct (match_number_kind _ _ _ Hn) as [[z ->]|[lexeme ->]]; constructor.
    by eapply match_number_float. }
  destruct float_lexeme_names as (Hnan & Hinf & Hninf).
  destruct (Json.strip_prefix "NaN" s); [intros [= <- _]; by constructor|].
  destruct (Json.strip_prefix "Infinity" s); [intros [= <- _]; by constructor|].
  destruct (Json.strip_prefix "-Infinity" s); [intros [= <- _]; by constructor|].
  done.
Qed.

Lemma scan_once_constant (fuel : nat) (s : string) (res : json * string) :
  Json.scan_constant s = Some res -> Json.scan_once (S fuel) s = Some res.
Proof.
  intros H. destruct res as [v r].
  destruct (scan_constant_scalar _ _ _ H) as [[_ (c & t & -> & _ & Hop)] _].
  rewrite <- H.
  destruct (Ascii.eqb_spec c "034") as [->|Hq]; [done|].
  clear -Hop Hq. bits c; try reflexivity; done.
Qed.

Lemma pretty_N_char_spec (d : N) :
  (d < 10)%N ->
  Json.is_digit (pretty_N_char d) = true
  /\ Z.of_N (N_of_ascii (pretty_N_char d) - 48) = Z.of_N d
  /\ (pretty_N_char d = "0"%char -> d = 0%N).
Proof.
  intros H.
  assert (Hd : (d = 0 \/ d = 1 \/ d = 2 \/ d = 3 \/ d = 4 \/ d = 5 \/ d = 6
                \/ d = 7 \/ d = 8 \/ d = 9)%N) by lia.
  repeat (destruct Hd as [->|Hd]; [done|]). by subst.
Qed.

Lemma int_of_digits_app (acc : Z) (a b : string) :
  Json.int_of_digits acc (a +:+ b)
  = Json.int_of_digits (Json.int_of_digits acc a) b.
Proof.
  revert acc. induction a as [|c a IH]; intros acc; [done|].
  rewrite append_cons. cbn [Json.int_of_digits]. apply IH.
Qed.

Lemma pretty_N_go_digits (x : N) (s : string) :
  exists ds,
    pretty_N_go x s = ds +:+ s
    /\ all_chars Json.is_digit ds = true
    /\ (x = 0%N -> ds = EmptyString)
    /\ ((0 < x)%N -> exists c t, ds = String c t /\ c <> "0"%char)
    /\ forall acc,
         Json.int_of_digits acc ds
         = acc * 10 ^ Z.of_nat (String.length ds) + Z.of_N x.
Proof.
  revert s. induction (N.lt_wf_0 x) as [x _ IH]. intros s.
  assert (Hx : (x = 0 \/ 0 < x)%N) by lia. destruct Hx as [->|Hx].
  - exists EmptyString. rewrite pretty_N_go_0. repeat split; [lia|].
    intros acc. cbn. lia.
  - rewrite pretty_N_go_step by done.
    destruct (pretty_N_char_spec (x `mod` 10)) as (Hdig & Hval & Hzero);
      [by apply N.mod_lt|].
    destruct (IH (x `div` 10)%N ltac:(by apply N.div_lt)
                (String (pretty_N_char (x `mod` 10)) s))
      as (ds' & -> & Hall & Hz & Hpos & Hv).
    exists (ds' +:+ String (pretty_N_char (x `mod` 10)) EmptyString).
    split; [by rewrite append_assoc|].
    split; [rewrite all_chars_append; cbn; by rewrite Hall, Hdig|].
    split; [lia|]. split.
    + intros _. destruct ds' as [|c' t'].
      * eexists _, _. split; [done|]. intros Hc. apply Hzero in Hc.
        destruct (N.eq_dec (x `div` 10)%N 0%N) as [Hq|Hq%N.neq_0_lt_0].
        -- rewrite (N.div_mod x 10), Hq, Hc in Hx by done. done.
        -- by destruct (Hpos Hq) as (? & ? & ? & _).
      * destruct (N.eq_dec (x `div` 10)%N 0%N) as [Hq|Hq%N.neq_0_lt_0].
        -- by specialize (Hz Hq).
        -- destruct (Hpos Hq) as (c & t & [= -> ->] & Hc).
           rewrite append_cons. by eexists _, _.
    + intros acc. rewrite int_of_digits_app, Hv, length_append.
      cbn [Json.int_of_digits String.length]. rewrite Hval.
      replace (Z.of_nat (String.length ds' + 1)) with (Z.succ (Z.of_nat (String.length ds')))
        by lia.
      rewrite Z.pow_succ_r by lia.
      assert (Hz' : Z.of_N x
                    = 10 * Z.of_N (x `div` 10)%N + Z.of_N (x `mod` 10)%N).
      { replace (10 * Z.of_N (x `div` 10)%N + Z.of_N (x `mod` 10)%N)
          with (Z.of_N (10 * (x `div` 10) + x `mod` 10)%N)
          by (by rewrite N2Z.inj_add, N2Z.inj_mul).
        f_equal. by apply N.div_mod. }
      rewrite Hz'. ring.
Qed.

(** The decimal form of an integer is an integer part that [json.loads]
    reads back as that integer. *)
Lemma pretty_Z_shape (z : Z) :
  exists sign ds c t,
    pretty z = sign +:+ ds /\ (sign = EmptyString \/ sign = "-")
    /\ ds = String c t /\ Json.is_digit c = true
    /\ all_chars Json.is_digit ds = true
    /\ (c = "0"%char -> t = EmptyString)
    /\ Json.parse_int (pretty z) = z.
Proof.
  assert (Hpos : forall p : positive,
    exists c t,
      pretty_N_go (Npos p) EmptyString = String c t
      /\ Json.is_digit c = true
      /\ all_chars Json.is_digit (String c t) = true
      /\ c <> "0"%char
      /\ Json.int_of_digits 0 (String c t) = Zpos p).
  { intros p.
    destruct (pretty_N_go_digits (Npos p) EmptyString)
      as (ds & Heq & Hall & _ & Hfirst & Hv).
    destruct (Hfirst ltac:(lia)) as (c & t & -> & Hc).
    rewrite append_empty_r in Heq. exists c, t.
    split; [done|]. split; [|split; [done|split; [done|]]].
    - cbn in Hall. by apply andb_true_iff in Hall as [? _].
    - rewrite Hv. cbn. lia. }
  destruct z as [|p|p].
  - exists EmptyString, "0", "0"%char, EmptyString. by repeat split; eauto.
  - destruct (Hpos p) as (c & t & Heq & Hc & Hall & Hnz & Hv).
    change (pretty (Zpos p)) with (pretty_N_go (Npos p) EmptyString).
    rewrite Heq. exists EmptyString, (String c t), c, t.
    split; [done|]. split; [by left|]. split; [done|]. split; [done|].
    split; [done|]. split; [done|].
    rewrite <- Hv. unfold Json.parse_int.
    assert (Hm : c <> "-"%char) by (intros ->; done).
    clear -Hm. bits c; try reflexivity. done.
  - destruct (Hpos p) as (c & t & Heq & Hc & Hall & Hnz & Hv).
    change (pretty (Zneg p)) with ("-" +:+ pretty_N_go (Npos p) EmptyString).
    rewrite Heq. exists "-", (String c t), c, t.
    split; [done|]. split; [by right|]. split; [done|]. split; [done|].
    split; [done|]. split; [done|].
    change (Json.parse_int ("-" +:+ String c t))
      with (- Json.int_of_digits 0 (String c t)).
    rewrite Hv. done.
Qed.

Lemma scan_once_int (fuel : nat) (z : Z) (rest : string) :
  delimited rest = true ->
  Json.scan_once (S fuel) (pretty z +:+ rest) = Some (JInt z, rest).
Proof.
  intros Hrest. apply scan_once_constant, scan_constant_match_number.
  destruct (pretty_Z_shape z)
    as (sign & ds & c & t & Heq & Hsign & Hds & Hc & Hall & Hzero & Hparse).
  destruct (delimited_starts _ Hrest) as (Hdot & Hse & HsE).
  unfold Json.match_number. rewrite Heq at 1.
  rewrite (match_integer_app sign ds c t)
    by (try done; by apply delimited_not_digit_next).
  cbn [mbind option_bind].
  rewrite match_frac_none, match_exp_none by done.
  by rewrite <- Heq, Hparse.
Qed.

Lemma scan_once_float (fuel : nat) (lexeme rest : string) :
  float_lexeme lexeme -> delimited rest = true ->
  Json.scan_once (S fuel) (lexeme +:+ rest) = Some (JFloat lexeme, rest).
Proof. intros Hl Hrest. by apply scan_once_constant, Hl. Qed.

(** *** Dictionaries *)

Lemma dict_set_new (d : dict) (k : string) (v : json) :
  k ∉ List.map fst d -> Dict.set d k v = d ++ [(k, v)].
Proof.
  induction d as [|[k0 v0] d IH]; [done|].
  cbn. intros Hk. apply not_elem_of_cons in Hk as [Hne Hk].
  destruct (String.eqb_spec k0 k); [congruence|]. by rewrite IH.
Qed.

Lemma dict_set_keys (d : dict) (k : string) (v : json) :
  List.map fst (Dict.set d k v)
  = if Dict.mem d k then List.map fst d else List.map fst d ++ [k].
Proof.
  unfold Dict.mem. induction d as [|[k0 v0] d IH]; [done|].
  cbn [Dict.set Dict.get]. destruct (String.eqb_spec k0 k) as [->|Hne]; [done|].
  cbn [List.map fst]. rewrite IH. by destruct (Dict.get d k).
Qed.

Lemma dict_get_Some_key (d : dict) (k : string) (v : json) :
  Dict.get d k = Some v -> k ∈ List.map fst d.
Proof.
  induction d as [|[k0 v0] d IH]; [done|].
  cbn. destruct (String.eqb_spec k0 k) as [->|Hne]; [by left|].
  intros H. right. by apply IH.
Qed.

Lemma dict_set_NoDup (d : dict) (k : string) (v : json) :
  NoDup (List.map fst d) -> NoDup (List.map fst (Dict.set d k v)).
Proof.
  intros Hd. rewrite dict_set_keys. unfold Dict.mem.
  destruct (Dict.get d k) as [v0|] eqn:Hget; [done|].
  apply NoDup_app. split; [done|]. split; [|apply NoDup_singleton].
  intros x Hx ->%list_elem_of_singleton.
  clear -Hget Hx. induction d as [|[k0 v0] d IH]; [by apply not_elem_of_nil in Hx|].
  cbn in Hget, Hx. destruct (String.eqb_spec k0 k) as [->|Hne]; [done|].
  apply elem_of_cons in Hx as [->|Hx]; [done|]. by apply IH.
Qed.

Lemma dict_set_Forall (P : json -> Prop) (d : dict) (k : string) (v : json) :
  Forall (fun kv => P (snd kv)) d -> P v ->
  Forall (fun kv => P (snd kv)) (Dict.set d k v).
Proof.
  intros Hd Hv. induction Hd as [|[k0 v0] d H0 Hd IH]; cbn.
  - by constructor.
  - destruct (String.eqb k0 k); by constructor.
Qed.

Lemma dict_del_NoDup (d : dict) (k : string) :
  NoDup (List.map fst d) -> NoDup (List.map fst (Dict.del d k)).
Proof.
  induction d as [|[k0 v0] d IH]; [done|].
  cbn [List.map fst Dict.del]. intros [Hk0 Hd]%NoDup_cons.
  destruct (String.eqb k0 k); [done|].
  cbn [List.map fst]. apply NoDup_cons. split; [|by apply IH].
  intros Hin. apply Hk0. clear -Hin.
  induction d as [|[k1 v1] d IH]; [done|].
  cbn in Hin |- *. destruct (String.eqb k1 k); [by right|].
  apply elem_of_cons in Hin as [->|Hin]; [by left|right; by apply IH].
Qed.

Lemma dict_del_Forall (P : json -> Prop) (d : dict) (k : string) :
  Forall (fun kv => P (snd kv)) d -> Forall (fun kv => P (snd kv)) (Dict.del d k).
Proof.
  intros Hd. induction Hd as [|[k0 v0] d H0 Hd IH]; cbn; [done|].
  destruct (String.eqb k0 k); [done|by constructor].
Qed.

Lemma of_pairs_fold (pairs acc : list (string * json)) :
  NoDup (List.map fst (acc ++ pairs)) ->
  fold_left (fun d kv => Dict.set d (fst kv) (snd kv)) pairs acc = acc ++ pairs.
Proof.
  revert acc. induction pairs as [|[k v] pairs IH]; intros acc Hnd.
  - by rewrite app_nil_r.
  - cbn [fold_left fst snd]. rewrite dict_set_new.
    + rewrite IH; rewrite <- app_assoc; done.
    + rewrite map_app in Hnd. apply NoDup_app in Hnd as (_ & Hd & _).
      intros Hk. apply (Hd k Hk). by left.
Qed.

Lemma of_pairs_NoDup_id (pairs : list (string * json)) :
  NoDup (List.map fst pairs) -> Dict.of_pairs pairs = pairs.
Proof. intros H. unfold Dict.of_pairs. by rewrite of_pairs_fold. Qed.

Lemma of_pairs_wf (P : json -> Prop) (pairs : list (string * json)) :
  Forall (fun kv => P (snd kv)) pairs ->
  NoDup (List.map fst (Dict.of_pairs pairs))
  /\ Forall (fun kv => P (snd kv)) (Dict.of_pairs pairs).
Proof.
  unfold Dict.of_pairs. intros H.
  assert (Hacc : NoDup (List.map fst ([] : dict))
                 /\ Forall (fun kv => P (snd kv)) ([] : dict)).
  { split; [constructor|constructor]. }
  revert Hacc. generalize ([] : dict).
  induction H as [|[k v] pairs Hv _ IH]; intros acc [Hnd Hall]; [done|].
  cbn [fold_left fst snd]. apply IH. split.
  - by apply dict_set_NoDup.
  - by apply dict_set_Forall.
Qed.

(** *** The values [json.loads] returns are well formed *)

Lemma scanner_wf (fuel : nat) :
  (forall s v r, Json.scan_once fuel s = Some (v, r) -> wf_json v)
  /\ (forall s pairs v r,
        Json.parse_pairs fuel s pairs = Some (v, r) ->
        Forall (fun kv => wf_json (snd kv)) pairs -> wf_json v)
  /\ (forall s values v r,
        Json.parse_items fuel s values = Some (v, r) ->
        Forall wf_json values -> wf_json v).
Proof.
  induction fuel as [|fuel (IHs & IHp & IHi)]; [by repeat split|].
  split; [|split].
  - intros s v r H.
    apply scan_once_inv in H
      as [(r0 & str & -> & Hs & ->)
         |[(r0 & -> & [[Hr0 ->]|(r1 & Hr0 & Hp)])
          |[(r0 & -> & [[Hr0 ->]|Hi])|Hc]]].
    + constructor.
    + constructor; constructor.
    + eapply IHp; [exact Hp|constructor].
    + constructor. constructor.
    + eapply IHi; [exact Hi|constructor].
    + by eapply scan_constant_wf.
  - intros s pairs v r H Hpairs.
    apply parse_pairs_inv in H
      as (key & r0 & r1 & value & r2 & Hs & Hr0 & Hv & Hrest).
    assert (Hall : Forall (fun kv => wf_json (snd kv)) (pairs ++ [(key, value)])).
    { apply Forall_app. split; [done|]. constructor; [|constructor].
      by eapply IHs. }
    destruct Hrest as [[_ ->]|(r3 & r4 & _ & _ & Hp)].
    + destruct (of_pairs_wf wf_json _ Hall). by constructor.
    + by eapply IHp.
  - intros s values v r H Hvalues.
    apply parse_items_inv in H as (value & r0 & Hv & Hrest).
    assert (Hall : Forall wf_json (values ++ [value])).
    { apply Forall_app. split; [done|]. constructor; [|constructor].
      by eapply IHs. }
    destruct Hrest as [[_ ->]|(r1 & _ & Hi)].
    + by constructor.
    + by eapply IHi.
Qed.

Lemma loads_wf (s : string) (v : json) : Json.loads s = Some v -> wf_json v.
Proof.
  unfold Json.loads.
  destruct (Json.scan_once _ _) as [[obj r]|] eqn:Hs; [|done].
  cbn. destruct (Json.skip_ws r); [|done]. intros [= <-].
  by eapply (proj1 (scanner_wf _)).
Qed.

(** *** A serialised value is read back *)

Lemma json_nested_ind (P : json -> Prop) :
  P JNull ->
  (forall b, P (JBool b)) ->
  (forall z, P (JInt z)) ->
  (forall lexeme, P (JFloat lexeme)) ->
  (forall s, P (JStr s)) ->
  (forall l, Forall P l -> P (JList l)) ->
  (forall d, Forall (fun kv => P (snd kv)) d -> P (JDict d)) ->
  forall v, P v.
Proof.
  intros Hnull Hbool Hint Hfloat Hstr Hlist Hdict.
  fix IH 1.
  intros [|b|z|lexeme|s|l|d];
    [apply Hnull|apply Hbool|apply Hint|apply Hfloat|apply Hstr| |].
  - apply Hlist. induction l as [|v l IHl]; constructor; [apply IH|apply IHl].
  - apply Hdict. induction d as [|[k v] d IHd]; constructor; [apply IH|apply IHd].
Qed.

(** What a serialised value begins with: a character that is not white
    space and not a closing bracket *)
Lemma dumps_first (v : json) :
  wf_json v ->
  exists c t, Json.dumps v = String c t
              /\ Json.is_ws c = false /\ c <> "]"%char.
Proof.
  intros Hwf. destruct v as [|[]|z|lexeme|s|l|d]; cbn [Json.dumps];
    try (by eexists _, _).
  - destruct (pretty_Z_shape z) as (sign & ds & c & t & -> & Hsign & -> & Hc & _).
    destruct Hsign as [-> | ->].
    + rewrite append_empty_l. exists c, t. split; [done|]. clear -Hc. by bits c.
    + exists "-"%char, (String c t). by rewrite append_cons.
  - inversion Hwf as [| | |? Hl| | |]; subst.
    specialize (Hl EmptyString eq_refl). rewrite append_empty_r in Hl.
    destruct (scan_constant_scalar _ _ _ Hl) as [[_ (c & t & -> & Hsp & Hop)] _].
    destruct (Ascii.eqb_spec c "]") as [->|Hne]; [done|].
    exists c, t. split; [done|]. split; [|done]. clear -Hsp. by bits c.
Qed.

Lemma skip_ws_dumps (v : json) (rest : string) :
  wf_json v -> Json.skip_ws (Json.dumps v +:+ rest) = Json.dumps v +:+ rest.
Proof.
  intros Hwf. destruct (dumps_first v Hwf) as (c & t & -> & Hc & _).
  rewrite append_cons. cbn. by rewrite Hc.
Qed.

Lemma parse_items_dumps (l : list json) (v : json) :
  Forall reads_back (v :: l) -> Forall wf_json (v :: l) ->
  forall fuel values rest,
    (S (String.length (Json.join ", " (List.map Json.dumps (v :: l)))) <= fuel)%nat ->
    Json.parse_items fuel
      (Json.join ", " (List.map Json.dumps (v :: l)) +:+ String "]" rest) values
    = Some (JList (values ++ v :: l), rest).
Proof.
  revert v. induction l as [|v' l IH]; intros v Hread Hwf fuel values rest Hfuel.
  - cbn [List.map Json.join] in Hfuel |- *.
    destruct fuel as [|fuel]; [lia|]. cbn [Json.parse_items].
    apply Forall_cons_1 in Hread as [Hv _].
    rewrite (Hv fuel (String "]" rest)) by (done || lia).
    done.
  - change (Json.join ", " (List.map Json.dumps (v :: v' :: l)))
      with (Json.dumps v +:+ ", " +:+ Json.join ", " (List.map Json.dumps (v' :: l)))
      in Hfuel |- *.
    rewrite !length_append in Hfuel. cbn [String.length] in Hfuel.
    destruct fuel as [|fuel]; [lia|]. cbn [Json.parse_items].
    apply Forall_cons_1 in Hread as [Hv Hread].
    apply Forall_cons_1 in Hwf as [Hwv Hwf].
    rewrite !append_assoc.
    rewrite (Hv fuel) by (done || lia).
    cbn [mbind option_bind].
    change (", " +:+ ?x) with (String "," (String " " x)).
    cbn [Json.skip_ws Json.is_ws]. cbn.
    pose proof (Forall_inv Hwf) as Hwv'.
    destruct (dumps_first v' Hwv') as (c & t & Hc & Hws & _).
    assert (Hskip : forall x,
      Json.skip_ws (Json.join ", " (List.map Json.dumps (v' :: l)) +:+ x)
      = Json.join ", " (List.map Json.dumps (v' :: l)) +:+ x).
    { intros x. destruct l as [|v'' l].
      - cbn [List.map Json.join]. by apply skip_ws_dumps.
      - change (Json.join ", " (List.map Json.dumps (v' :: v'' :: l)))
          with (Json.dumps v' +:+ ", "
                +:+ Json.join ", " (List.map Json.dumps (v'' :: l))).
        rewrite !append_assoc. by apply skip_ws_dumps. }
    rewrite Hskip, (IH v' Hread Hwf) by lia.
    by rewrite <- app_assoc.
Qed.


Lemma join_items_first (kv : string * json) (d : list (string * json)) :
  exists s,
    Json.join ", " (List.map dumps_item (kv :: d)) = String "034" s.
Proof.
  destruct d as [|kv' d]; cbn [List.map Json.join];
    unfold dumps_item at 1, Json.encode_basestring;
    rewrite !append_cons; by eexists.
Qed.

Lemma parse_pairs_dumps (d : list (string * json)) (kv : string * json) :
  Forall (fun kv => reads_back (snd kv)) (kv :: d) ->
  Forall (fun kv => wf_json (snd kv)) (kv :: d) ->
  forall fuel pairs rest s,
    Json.join ", " (List.map dumps_item (kv :: d)) = String "034" s ->
    (S (String.length (Json.join ", " (List.map dumps_item (kv :: d)))) <= fuel)%nat ->
    Json.parse_pairs fuel (s +:+ String "}" rest) pairs
    = Some (JDict (Dict.of_pairs (pairs ++ kv :: d)), rest).
Proof.
  revert kv. induction d as [|kv' d IH];
    intros [k v] Hread Hwf fuel pairs rest s Hs Hfuel.
  - cbn [List.map Json.join] in Hs, Hfuel.
    unfold dumps_item, Json.encode_basestring in Hs, Hfuel. cbn [fst snd] in Hs, Hfuel.
    rewrite !append_cons in Hs. injection Hs as <-.
    rewrite ?append_cons, ?length_append in Hfuel. cbn [String.length] in Hfuel.
    rewrite ?length_append in Hfuel. cbn [String.length] in Hfuel.
    destruct fuel as [|fuel]; [lia|]. cbn [Json.parse_pairs].
    rewrite !append_assoc, !append_cons, append_empty_l.
    rewrite scanstring_escape_all. cbn [mbind option_bind].
    change (": " +:+ ?x) with (String ":" (String " " x)).
    cbn [Json.skip_ws Json.is_ws]. cbn.
    apply Forall_cons_1 in Hread as [Hv _]. apply Forall_cons_1 in Hwf as [Hwv _].
    cbn [snd] in Hv, Hwv.
    rewrite ?append_empty_l in Hfuel; rewrite ?append_empty_l.
    rewrite skip_ws_dumps by done.
    rewrite (Hv fuel (String "}" rest)) by (done || lia).
    done.
  - change (Json.join ", " (List.map dumps_item ((k, v) :: kv' :: d)))
      with (dumps_item (k, v) +:+ ", "
            +:+ Json.join ", " (List.map dumps_item (kv' :: d))) in Hs, Hfuel.
    destruct (join_items_first kv' d) as [s' Hs'].
    rewrite Hs' in Hs.
    unfold dumps_item at 1, Json.encode_basestring in Hs.
    unfold dumps_item at 1, Json.encode_basestring in Hfuel.
    cbn [fst snd] in Hs, Hfuel.
    rewrite !append_cons in Hs. injection Hs as <-.
    rewrite ?append_cons, ?length_append in Hfuel. cbn [String.length] in Hfuel.
    rewrite ?length_append in Hfuel. cbn [String.length] in Hfuel.
    destruct fuel as [|fuel]; [lia|]. cbn [Json.parse_pairs].
    rewrite !append_assoc, !append_cons, append_empty_l.
    rewrite scanstring_escape_all. cbn [mbind option_bind].
    change (": " +:+ ?x) with (String ":" (String " " x)).
    cbn [Json.skip_ws Json.is_ws]. cbn.
    apply Forall_cons_1 in Hread as [Hv Hread].
    apply Forall_cons_1 in Hwf as [Hwv Hwf].
    cbn [snd] in Hv, Hwv.
    rewrite ?append_empty_l in Hfuel; rewrite ?append_empty_l.
    rewrite skip_ws_dumps by done.
    rewrite (Hv fuel) by (done || lia).
    cbn [mbind option_bind].
    change (", " +:+ ?x) with (String "," (String " " x)).
    cbn [Json.skip_ws Json.is_ws]. cbn.
    rewrite ?append_cons. cbn [Json.skip_ws Json.is_ws]. cbn.
    rewrite (IH kv' Hread Hwf fuel _ rest s' Hs') by lia.
    by rewrite <- app_assoc.
Qed.

Lemma join_dumps_first (v : json) (l : list json) :
  wf_json v ->
  exists c t, Json.join ", " (List.map Json.dumps (v :: l)) = String c t
              /\ Json.is_ws c = false /\ c <> "]"%char.
Proof.
  intros Hwf. destruct (dumps_first v Hwf) as (c & t & Hc & Hws & Hne).
  destruct l as [|v' l].
  - cbn [List.map Json.join]. by exists c, t.
  - change (Json.join ", " (List.map Json.dumps (v :: v' :: l)))
      with (Json.dumps v +:+ ", " +:+ Json.join ", " (List.map Json.dumps (v' :: l))).
    rewrite Hc, append_cons. by eexists c, _.
Qed.

Lemma not_closing_bracket {A : Type} (c : ascii) (t : string) (a : string -> A)
    (b : string -> A) :
  c <> "]"%char ->
  match String c t with String "]" r1 => a r1 | r1 => b r1 end = b (String c t).
Proof. intros Hne. bits c; try reflexivity; done. Qed.

Lemma dumps_reads_back (v : json) : wf_json v -> reads_back v.
Proof.
  induction v as [|b|z|lexeme|s|l IHl|d IHd] using json_nested_ind;
    intros Hwf fuel rest Hfuel Hrest.
  - destruct fuel as [|fuel]; [cbn in Hfuel; lia|]. reflexivity.
  - destruct fuel as [|fuel]; [destruct b; cbn in Hfuel; lia|]. by destruct b.
  - destruct (dumps_first (JInt z) Hwf) as (c & t & Hc & _).
    destruct fuel as [|fuel]; [rewrite Hc in Hfuel; cbn in Hfuel; lia|].
    by apply scan_once_int.
  - destruct (dumps_first (JFloat lexeme) Hwf) as (c & t & Hc & _).
    destruct fuel as [|fuel]; [rewrite Hc in Hfuel; cbn in Hfuel; lia|].
    inversion Hwf; subst. by apply scan_once_float.
  - destruct fuel as [|fuel]; [cbn in Hfuel; lia|].
    apply scan_once_string.
  - assert (Hwl : Forall wf_json l) by (by inversion Hwf).
    assert (Hrl : Forall reads_back l).
    { clear -IHl Hwl. induction IHl as [|v l Hv _ IH]; [done|].
      apply Forall_cons_1 in Hwl as [? ?]. constructor; auto. }
    cbn [Json.dumps] in Hfuel |- *.
    change (("[" +:+ ?x) +:+ rest) with (String "[" (x +:+ rest)).
    rewrite append_assoc. change ("]" +:+ rest) with (String "]" rest).
    rewrite !length_append in Hfuel.
    cbn [String.length] in Hfuel.
    destruct fuel as [|fuel]; [lia|]. cbn [Json.scan_once].
    destruct l as [|v l]; [reflexivity|].
    destruct (join_dumps_first v l (Forall_inv Hwl)) as (c & t & Hc & Hws & Hne).
    rewrite Hc, append_cons. cbn [Json.skip_ws]. rewrite Hws.
    etrans; [exact (not_closing_bracket c _ (fun r1 => Some (JList [], r1))
                      (fun r1 => Json.parse_items fuel r1 []) Hne)|].
    cbv beta.
    rewrite <- append_cons, <- Hc.
    rewrite (parse_items_dumps l v Hrl Hwl) by lia. done.
  - assert (Hnd : NoDup (List.map fst d)) by (by inversion Hwf).
    assert (Hwd : Forall (fun kv => wf_json (snd kv)) d) by (by inversion Hwf).
    assert (Hrd : Forall (fun kv => reads_back (snd kv)) d).
    { clear -IHd Hwd. induction IHd as [|kv d Hv _ IH]; [done|].
      apply Forall_cons_1 in Hwd as [? ?]. constructor; auto. }
    cbn [Json.dumps] in Hfuel |- *.
    change (List.map _ d) with (List.map dumps_item d) in Hfuel |- *.
    change (("{" +:+ ?x) +:+ rest) with (String "{" (x +:+ rest)).
    rewrite append_assoc. change ("}" +:+ rest) with (String "}" rest).
    rewrite !length_append in Hfuel.
    cbn [String.length] in Hfuel.
    destruct fuel as [|fuel]; [lia|]. cbn [Json.scan_once].
    destruct d as [|kv d]; [reflexivity|].
    destruct (join_items_first kv d) as [s Hs].
    rewrite Hs, append_cons. cbn [Json.skip_ws Json.is_ws]. cbn.
    rewrite (parse_pairs_dumps d kv Hrd Hwd fuel [] rest s Hs) by lia.
    cbn [app]. by rewrite of_pairs_NoDup_id.
Qed.

Lemma loads_dumps (v : json) : wf_json v -> Json.loads (Json.dumps v) = Some v.
Proof.
  intros Hwf. unfold Json.loads.
  rewrite <- (append_empty_r (Json.dumps v)) at 2.
  rewrite skip_ws_dumps by done.
  rewrite (dumps_reads_back v Hwf) by (done || lia).
  done.
Qed.

(** ** The arguments the proxy writes are valid JSON *)

Lemma dumps_truthy (v : json) : wf_json v -> Py.truthy (Json.dumps v) = true.
Proof. intros Hwf. by destruct (dumps_first v Hwf) as (c & t & -> & _). Qed.

Lemma dumps_valid (v : json) :
  wf_json v -> validate_json_syntax (Json.dumps v) = true.
Proof. intros Hwf. unfold validate_json_syntax. by rewrite loads_dumps. Qed.

Lemma wf_dict_set (d : dict) (k : string) (v : json) :
  wf_json (JDict d) -> wf_json v -> wf_json (JDict (Dict.set d k v)).
Proof.
  intros Hd Hv. inversion Hd; subst. constructor.
  - by apply dict_set_NoDup.
  - by apply dict_set_Forall.
Qed.

Lemma wf_dict_del (d : dict) (k : string) :
  wf_json (JDict d) -> wf_json (JDict (Dict.del d k)).
Proof.
  intros Hd. inversion Hd; subst. constructor.
  - by apply dict_del_NoDup.
  - by apply dict_del_Forall.
Qed.

Lemma apply_action_wf (args_obj : dict) (param action : string) (fx : fix_rule) :
  wf_rule fx -> wf_json (JDict args_obj) ->
  wf_json (JDict (apply_action args_obj param action fx).1).
Proof.
  intros [_ Hdef] Hd. unfold apply_action.
  repeat case_match; cbn [fst]; try done;
    try apply wf_dict_del; try apply wf_dict_set; try done;
    try (by eapply loads_wf); try (by apply Hdef); constructor.
Qed.

Lemma _apply_single_fix_wf (args_obj : dict) (fx : fix_rule) :
  wf_rule fx -> wf_json (JDict args_obj) ->
  wf_json (JDict (_apply_single_fix args_obj fx).1).
Proof.
  intros Hfx Hd. unfold _apply_single_fix.
  destruct (negb _); [done|].
  pose proof (apply_action_wf args_obj (fix_parameter fx) (fix_action fx) fx Hfx Hd)
    as Ha.
  destruct (apply_action _ _ _ _) as [d' [res|]]; cbn [fst] in Ha |- *; [done|].
  destruct (fix_fallback_value fx) as [v|] eqn:Hf; cbn [fst]; [|done].
  apply wf_dict_set; [done|]. by apply (proj1 Hfx).
Qed.

Lemma apply_fixes_loop_wf (fixes : list fix_rule) (result : dict)
    (final_tool_name : string) :
  Forall wf_rule fixes -> wf_json (JDict result) ->
  wf_json (JDict (apply_fixes_loop fixes result final_tool_name).2).
Proof.
  intros Hf. revert result final_tool_name.
  induction Hf as [|fx fixes Hfx _ IH]; intros result final_tool_name Hd; [done|].
  cbn [apply_fixes_loop].
  pose proof (_apply_single_fix_wf result fx Hfx Hd) as Hs.
  destruct (_apply_single_fix result fx) as [result' [applied|name applied]];
    by apply IH.
Qed.

Lemma apply_fixes_wf (cfg : config) (tool_name : string) (args_obj : json)
    (final_tool_name : string) (fixed : json) :
  wf_config cfg -> wf_json args_obj ->
  apply_fixes cfg tool_name args_obj = Some (final_tool_name, fixed) ->
  wf_json fixed.
Proof.
  intros Hcfg Hwf. unfold apply_fixes.
  set (name := if negb _ then _ else _).
  destruct (tools cfg !! name) as [rules|] eqn:Hrules; cbn [default from_option id].
  - destruct rules as [|fx rules]; [by intros [= _ <-]|].
    destruct args_obj as [| | | | | |d]; try done.
    pose proof (apply_fixes_loop_wf (fx :: rules) d name (Hcfg _ _ Hrules) Hwf) as Hl.
    destruct (apply_fixes_loop (fx :: rules) d name) as [n result].
    by intros [= _ <-].
  - by intros [= _ <-].
Qed.

Lemma wf_config_default : wf_config _get_default_config.
Proof.
  intros tool_name rules. unfold _get_default_config. cbn [tools].
  destruct (decide (tool_name = "todowrite")) as [->|H1];
    [rewrite lookup_insert_eq|rewrite lookup_insert_ne by done;
     destruct (decide (tool_name = "bash")) as [->|H2];
       [rewrite lookup_insert_eq|rewrite lookup_insert_ne by done;
        destruct (decide (tool_name = "read")) as [->|H3];
          [rewrite lookup_insert_eq|by rewrite lookup_insert_ne by done]]];
    intros [= <-]; (constructor; [|constructor]);
    (split; cbn; intros v [= <-]; repeat constructor).
Qed.

Lemma fixed_text_valid (cfg : config) (text tool_name final_tool_name : string)
    (args_obj fixed : json) :
  wf_config cfg ->
  Json.loads text = Some args_obj ->
  apply_fixes cfg tool_name args_obj = Some (final_tool_name, fixed) ->
  Json.loads (Json.dumps fixed) = Some fixed
  /\ Py.truthy (Json.dumps fixed) = true.
Proof.
  intros Hcfg Hl Ha.
  assert (Hwf : wf_json fixed).
  { eapply apply_fixes_wf; [done| |done]. by eapply loads_wf. }
  split; [by apply loads_dumps|by apply dumps_truthy].
Qed.

(** [get_fixed_arguments] returns the empty text only when it failed, with
    the tool name of the buffer; otherwise the text it returns is not empty
    and [json.loads] reads it back as the arguments the fix engine gave. *)
Theorem get_fixed_arguments_parses (cfg : config) (buffer : ToolBuffer.t)
    (final_tool_name fixed_args : string) :
  wf_config cfg ->
  get_fixed_arguments cfg buffer = (final_tool_name, fixed_args) ->
  (fixed_args = EmptyString /\ final_tool_name = ToolBuffer.tool_name buffer
   /\ (Json.loads (ToolBuffer.content buffer)
         ≫= apply_fixes cfg (ToolBuffer.tool_name buffer)) = None)
  \/ (exists args_obj,
        (Json.loads (ToolBuffer.content buffer)
           ≫= apply_fixes cfg (ToolBuffer.tool_name buffer))
        = Some (final_tool_name, args_obj)
        /\ Json.loads fixed_args = Some args_obj
        /\ Py.truthy fixed_args = true).
Proof.
  intros Hcfg. unfold get_fixed_arguments.
  destruct (Json.loads (ToolBuffer.content buffer)) as [obj|] eqn:Hl; cbn;
    [|intros [= <- <-]; by left].
  destruct (apply_fixes cfg (ToolBuffer.tool_name buffer) obj)
    as [[n args]|] eqn:Ha; [|intros [= <- <-]; by left].
  intros [= <- <-]. right. exists args. split; [done|].
  by eapply fixed_text_valid.
Qed.

Lemma get_fixed_arguments_parses_witness :
  let buffer :=
    {| ToolBuffer.call_id := "main_tool_call";
       ToolBuffer.content := Py.dq "{'command': 'ls'}";
       ToolBuffer.request_id := "req";
       ToolBuffer.tool_name := "Bash" |} in
  let fixed_args :=
    Py.dq "{'command': 'ls', 'description': 'Execute the given shell command'}" in
  wf_config _get_default_config
  /\ get_fixed_arguments _get_default_config buffer = ("bash", fixed_args)
  /\ ((fixed_args = EmptyString /\ "bash" = ToolBuffer.tool_name buffer
       /\ (Json.loads (ToolBuffer.content buffer)
             ≫= apply_fixes _get_default_config (ToolBuffer.tool_name buffer)) = None)
      \/ (exists args_obj,
            (Json.loads (ToolBuffer.content buffer)
               ≫= apply_fixes _get_default_config (ToolBuffer.tool_name buffer))
            = Some ("bash", args_obj)
            /\ Json.loads fixed_args = Some args_obj
            /\ Py.truthy fixed_args = true)).
Proof.
  intros buffer fixed_args.
  split; [exact wf_config_default|]. split; [vm_compute; reflexivity|].
  apply (get_fixed_arguments_parses _get_default_config buffer "bash" fixed_args).
  - exact wf_config_default.
  - vm_compute. reflexivity.
Defined.

Lemma try_json_recovery_loop_flag (cfg : config)
    (attempts : list (string -> string)) (malformed_json : string)
    (tool : ToolCall.t) (tool_name : string) :
  wf_config cfg ->
  match try_json_recovery_loop cfg attempts malformed_json tool tool_name with
  | (tool', true) =>
      exists f final_tool_name fixed_args_str,
        ToolCall.function tool = Some f
        /\ tool' = ToolCall.set_function
                     (Func.set_arguments fixed_args_str
                        (Func.set_name final_tool_name f)) tool
        /\ validate_json_syntax fixed_args_str = true
        /\ Py.truthy fixed_args_str = true
  | (tool', false) => tool' = tool
  end.
Proof.
  intros Hcfg. induction attempts as [|fix_func attempts IH]; [done|].
  cbn [try_json_recovery_loop].
  destruct (Json.loads (fix_func (Py.strip malformed_json))) as [obj|] eqn:Hl;
    [|exact IH].
  destruct (apply_fixes cfg tool_name obj) as [[n args]|] eqn:Ha; [|exact IH].
  destruct (ToolCall.function tool) as [f|] eqn:Hf; [|exact IH].
  destruct (fixed_text_valid cfg _ _ _ _ _ Hcfg Hl Ha) as [Hv Ht].
  exists f, n, (Json.dumps args). unfold validate_json_syntax. by rewrite Hv.
Qed.

(** [try_json_recovery] returns true only after it has written, to the
    function of the tool call, a name and arguments that are not empty and
    that [json.loads] accepts; when it returns false the tool call is as it
    was. *)
Theorem try_json_recovery_flag (cfg : config) (malformed_json : string)
    (tool : ToolCall.t) (tool_name : string) :
  wf_config cfg ->
  match try_json_recovery cfg malformed_json tool tool_name with
  | (tool', true) =>
      exists f final_tool_name fixed_args_str,
        ToolCall.function tool = Some f
        /\ tool' = ToolCall.set_function
                     (Func.set_arguments fixed_args_str
                        (Func.set_name final_tool_name f)) tool
        /\ validate_json_syntax fixed_args_str = true
        /\ Py.truthy fixed_args_str = true
  | (tool', false) => tool' = tool
  end.
Proof.
  intros Hcfg. unfold try_json_recovery.
  induction recovery_attempts as [|fix_func attempts IH]; [done|].
  cbn [try_json_recovery_loop].
  destruct (Json.loads (fix_func (Py.strip malformed_json))) as [obj|] eqn:Hl;
    [|exact IH].
  destruct (apply_fixes cfg tool_name obj) as [[n args]|] eqn:Ha; [|exact IH].
  destruct (ToolCall.function tool) as [f|] eqn:Hf; [|exact IH].
  exists f, n, (Json.dumps args).
  assert (Hwf : wf_json args).
  { eapply apply_fixes_wf; [done| |done]. by eapply loads_wf. }
  split; [done|]. split; [done|].
  split; [by apply dumps_valid|by apply dumps_truthy].
Qed.

Lemma try_json_recovery_flag_witness :
  wf_config _get_default_config
  /\ match try_json_recovery _get_default_config
             (ToolBuffer.content example_bash_buffer) example_bash_tool "bash" with
     | (tool', true) =>
         exists f final_tool_name fixed_args_str,
           ToolCall.function example_bash_tool = Some f
           /\ tool' = ToolCall.set_function
                        (Func.set_arguments fixed_args_str
                           (Func.set_name final_tool_name f)) example_bash_tool
           /\ validate_json_syntax fixed_args_str = true
           /\ Py.truthy fixed_args_str = true
     | (tool', false) => tool' = example_bash_tool
     end.
Proof.
  split; [exact wf_config_default|].
  apply (try_json_recovery_flag _get_default_config
           (ToolBuffer.content example_bash_buffer) example_bash_tool "bash").
  exact wf_config_default.
Defined.

Lemma process_complete_buffer_result (cfg : config) (buffer : ToolBuffer.t)
    (tool : ToolCall.t) :
  wf_config cfg ->
  process_complete_buffer cfg buffer tool = tool
  \/ valid_arguments (process_complete_buffer cfg buffer tool).
Proof.
  intros Hcfg. unfold process_complete_buffer.
  destruct (Json.loads (ToolBuffer.content buffer)) as [obj|] eqn:Hl.
  - destruct (apply_fixes cfg (ToolBuffer.tool_name buffer) obj)
      as [[n args]|] eqn:Ha; [|by left].
    destruct (ToolCall.function tool) as [f|] eqn:Hf; [|by left].
    right. destruct (fixed_text_valid cfg _ _ _ _ _ Hcfg Hl Ha) as [Hv Ht].
    eexists _, (Json.dumps args). cbn. split; [done|]. split; [done|].
    unfold validate_json_syntax. by rewrite Hv.
  - pose proof (try_json_recovery_loop_flag cfg recovery_attempts
                  (ToolBuffer.content buffer) tool (ToolBuffer.tool_name buffer) Hcfg)
      as Hr.
    unfold try_json_recovery.
    destruct (try_json_recovery_loop _ _ _ _ _) as [tool' [|]]; cbn [fst].
    + right. destruct Hr as (f & n & text & Hf & -> & Hv & Ht).
      by eexists _, text.
    + by left.
Qed.

(** [process_complete_buffer] leaves the tool call as it was, or with
    arguments that [json.loads] accepts: after a recovery that succeeded the
    arguments are always valid JSON. *)
Theorem process_complete_buffer_valid (cfg : config) (buffer : ToolBuffer.t)
    (tool : ToolCall.t) :
  wf_config cfg ->
  process_complete_buffer cfg buffer tool = tool
  \/ valid_arguments (process_complete_buffer cfg buffer tool).
Proof.
  intros Hcfg. unfold process_complete_buffer.
  destruct (Json.loads (ToolBuffer.content buffer)) as [obj|] eqn:Hl.
  - destruct (apply_fixes cfg (ToolBuffer.tool_name buffer) obj)
      as [[n args]|] eqn:Ha; [|by left].
    destruct (ToolCall.function tool) as [f|] eqn:Hf; [|by left].
    right. eexists _, (Json.dumps args). cbn. split; [done|]. split; [done|].
    apply dumps_valid. eapply apply_fixes_wf; [done| |done]. by eapply loads_wf.
  - pose proof (try_json_recovery_loop_flag cfg recovery_attempts
                  (ToolBuffer.content buffer) tool (ToolBuffer.tool_name buffer) Hcfg)
      as Hr.
    unfold try_json_recovery.
    destruct (try_json_recovery_loop _ _ _ _ _) as [tool' [|]]; cbn [fst].
    + right. destruct Hr as (f & n & text & Hf & -> & Hv & Ht).
      by eexists _, text.
    + by left.
Qed.

Lemma process_complete_buffer_valid_witness :
  wf_config _get_default_config
  /\ (process_complete_buffer _get_default_config example_bash_buffer
        example_bash_tool = example_bash_tool
      \/ valid_arguments
           (process_complete_buffer _get_default_config example_bash_buffer
              example_bash_tool)).
Proof.
  split; [exact wf_config_default|].
  apply (process_complete_buffer_valid _get_default_config example_bash_buffer
           example_bash_tool).
  exact wf_config_default.
Defined.

Section StreamEndArguments.
Context (cfg : config) (Hcfg : wf_config cfg).
Context (entropy : nat -> N).
Context (items : gmap string ToolBuffer.t -> list (string * ToolBuffer.t)).

Lemma process_remaining_buffer_arguments (buffer buffer' : ToolBuffer.t)
    (random_bits : N) (event : Event.t) :
  process_remaining_buffer cfg buffer random_bits = (buffer', Some event) ->
  exists call_id tool_name args,
    event = completion_event (ToolCall.synthesized call_id tool_name args)
    /\ validate_json_syntax args = true
    /\ Py.truthy args = true.
Proof.
  unfold process_remaining_buffer.
  destruct (Py.truthy (ToolBuffer.content buffer)); [|done].
  destruct (if negb (truthy_opt (try_fix_incomplete_json (ToolBuffer.content buffer)))
            then _ else _) as [b fixed_json].
  destruct (truthy_opt fixed_json && Py.truthy (ToolBuffer.tool_name b)); [|done].
  destruct (Json.loads (default EmptyString fixed_json)) as [obj|] eqn:Hl; [|done].
  destruct (apply_fixes cfg (ToolBuffer.tool_name b) obj) as [[n args]|] eqn:Ha;
    [|done].
  intros [= _ <-].
  destruct (fixed_text_valid cfg _ _ _ _ _ Hcfg Hl Ha) as [Hv Ht].
  eexists _, _, _. split; [done|]. split; [|done].
  unfold validate_json_syntax. by rewrite Hv.
Qed.

Lemma process_remaining_loop_arguments (l : list (string * ToolBuffer.t))
    (draws : nat) :
  Forall (fun event =>
            exists call_id tool_name args,
              event = completion_event (ToolCall.synthesized call_id tool_name args)
              /\ validate_json_syntax args = true
              /\ Py.truthy args = true)
    (process_remaining_loop cfg entropy l draws).2.
Proof.
  revert draws. induction l as [|[call_id buffer] rest IH]; intros draws.
  - constructor.
  - cbn [process_remaining_loop].
    destruct (process_remaining_buffer cfg buffer (entropy draws))
      as [b [event|]] eqn:Hb.
    + specialize (IH (S draws)).
      destruct (process_remaining_loop cfg entropy rest (S draws)) as [r w].
      constructor; [|exact IH].
      by eapply process_remaining_buffer_arguments.
    + specialize (IH draws).
      by destruct (process_remaining_loop cfg entropy rest draws) as [r w].
Qed.

(** Every completion event written when [DONE] arrives carries arguments
    that are not empty and that [json.loads] accepts. *)
Theorem relay_done_arguments (request_states : gmap string RequestState.t)
    (request_id : string) :
  Forall (fun event =>
            exists call_id tool_name args,
              event = completion_event (ToolCall.synthesized call_id tool_name args)
              /\ validate_json_syntax args = true
              /\ Py.truthy args = true)
    (relay_done cfg entropy items request_states request_id).2.
Proof.
  unfold relay_done, process_remaining_buffers.
  destruct (request_states !! request_id) as [st|]; [|constructor].
  destruct (decide (RequestState.tool_buffers st = ∅)); [constructor|].
  pose proof (process_remaining_loop_arguments
                (items (RequestState.tool_buffers st)) O) as Hl.
  by destruct (process_remaining_loop cfg entropy _ 0) as [buffers written].
Qed.

End StreamEndArguments.

Lemma relay_done_arguments_witness :
  wf_config _get_default_config
  /\ Forall (fun event =>
               exists call_id tool_name args,
                 event = completion_event (ToolCall.synthesized call_id tool_name args)
                 /\ validate_json_syntax args = true
                 /\ Py.truthy args = true)
       (relay_done _get_default_config example_entropy map_to_list
          example_held_states "req").2.
Proof.
  split; [exact wf_config_default|].
  apply (relay_done_arguments _get_default_config wf_config_default example_entropy
           map_to_list example_held_states "req").
Defined.

(** ** Stream event processor: the arguments that reach the client *)

Lemma xml_arguments_wf (param_matches : list (string * string)) :
  wf_json (JDict (xml_arguments param_matches)).
Proof.
  unfold xml_arguments.
  assert (Hacc : wf_json (JDict [])) by (constructor; constructor).
  revert Hacc. generalize ([] : dict).
  induction param_matches as [|m rest IH]; intros acc Hacc; [done|].
  cbn [fold_left]. apply IH. apply wf_dict_set; [done|constructor].
Qed.

Lemma get_fixed_arguments_truthy (cfg : config) (buffer : ToolBuffer.t) :
  wf_config cfg ->
  Py.truthy (get_fixed_arguments cfg buffer).2 = true ->
  validate_json_syntax (get_fixed_arguments cfg buffer).2 = true.
Proof.
  intros Hcfg. unfold get_fixed_arguments.
  destruct (Json.loads (ToolBuffer.content buffer)) as [obj|] eqn:Hl; [|done].
  destruct (apply_fixes cfg (ToolBuffer.tool_name buffer) obj)
    as [[n args]|] eqn:Ha; [|done].
  cbn. intros _. destruct (fixed_text_valid cfg _ _ _ _ _ Hcfg Hl Ha) as [Hv _].
  unfold validate_json_syntax. by rewrite Hv.
Qed.

Lemma synthesized_valid (call_id tool_name args : string) :
  validate_json_syntax args = true ->
  valid_arguments (ToolCall.synthesized call_id tool_name args).
Proof. intros Hv. by eexists _, args. Qed.

Lemma classify_tool_calls_marked (pos : nat) (tool_calls : list ToolCall.t)
    (tool : ToolCall.t) :
  tool ∈ (classify_tool_calls pos tool_calls).1.1 ->
  ToolCall._suppress tool = true \/ tool ∈ tool_calls.
Proof.
  revert pos. induction tool_calls as [|t rest IH]; intros pos.
  - cbn. by intros ?%not_elem_of_nil.
  - cbn [classify_tool_calls].
    specialize (IH (S pos)).
    destruct (classify_tool_calls (S pos) rest) as [[marked named] frags].
    cbn in IH.
    repeat case_match; cbn; intros Hel;
      (apply elem_of_cons in Hel as [->|Hel];
       [(by left) || (right; by left)
       |destruct (IH Hel) as [?|?]; [by left|right; by right]]).
Qed.

Section OutgoingArguments.
Context (cfg : config) (Hcfg : wf_config cfg) (entropy : nat -> N).

(** What holds of the tool calls that came in *)
Context (P : ToolCall.t -> Prop).
Context (Hvalid : forall tool, valid_arguments tool -> P tool).

Lemma process_content_arguments (st : RequestState.t) (delta : Delta.t) :
  Forall P (default [] (Delta.tool_calls delta)) ->
  Forall P (default [] (Delta.tool_calls (process_content cfg entropy st delta).1.2)).
Proof.
  intros Hin. unfold process_content.
  destruct (Py.truthy _); [|done].
  destruct (detect_and_convert_xml_tool_call _) as [[function_name arguments]|]
    eqn:Hx; [|by case_match].
  cbn -[Json.dumps]. constructor; [|constructor].
  apply Hvalid, synthesized_valid, dumps_valid.
  unfold detect_and_convert_xml_tool_call in Hx.
  repeat case_match; try done. injection Hx as _ <-. apply xml_arguments_wf.
Qed.

Lemma process_fragments_arguments (request_id : string)
    (fragments_in_event : list (Z * string)) (w : work) :
  Forall (suppressed_or P) (w_tool_calls
              (process_fragments cfg entropy request_id fragments_in_event w)).
Proof.
  unfold process_fragments.
  repeat case_match; cbn [w_tool_calls]; try by constructor.
  all: constructor; [|constructor]; right.
  all: apply Hvalid, synthesized_valid.
  all: match goal with
  | Hg : get_fixed_arguments cfg ?b = (_, ?a), Ht : Py.truthy ?a && _ = true |- _ =>
      pose proof (get_fixed_arguments_truthy cfg b Hcfg) as Hv;
      rewrite Hg in Hv; apply Hv; by apply andb_true_iff in Ht as [? _]
  end.
Qed.

Lemma process_named_call_arguments (request_id : string) (attached : bool)
    (named : nat * ToolCall.t) (w : work) :
  suppressed_or P named.2 -> Forall (suppressed_or P) (w_tool_calls w) ->
  Forall (suppressed_or P) (w_tool_calls
              (process_named_call cfg entropy request_id attached named w).1).
Proof.
  destruct named as [pos tool]. cbn [snd]. intros Htool Hw.
  assert (Hc : forall buffer,
    suppressed_or P (process_complete_buffer cfg buffer tool)).
  { intros buffer.
    destruct (process_complete_buffer_result cfg buffer tool Hcfg) as [->|Hv];
      [done|]. right. by apply Hvalid. }
  assert (Hs : suppressed_or P (ToolCall.suppress tool)) by (by left).
  unfold process_named_call.
  repeat case_match; cbn [fst w_tool_calls];
    repeat match goal with
    | |- Forall (suppressed_or P) (_ ++ [_]) =>
        apply Forall_app; split; [|constructor; [|constructor]]
    | |- Forall (suppressed_or P) (<[_:=_]> _) => apply Forall_insert; [|done]
    | |- Forall (suppressed_or P) (w_tool_calls w) => exact Hw
    end;
    right; apply Hvalid, synthesized_valid;
    match goal with
    | Hg : get_fixed_arguments cfg ?b = (_, ?a), Ht : Py.truthy ?a && _ = true |- _ =>
        pose proof (get_fixed_arguments_truthy cfg b Hcfg) as Hv;
        rewrite Hg in Hv; apply Hv; by apply andb_true_iff in Ht as [? _]
    end.
Qed.

Lemma process_named_calls_arguments (request_id : string) (attached : bool)
    (named_tool_calls : list (nat * ToolCall.t)) (w : work) :
  Forall (fun named => suppressed_or P named.2) named_tool_calls ->
  Forall (suppressed_or P) (w_tool_calls w) ->
  Forall (suppressed_or P) (w_tool_calls
              (process_named_calls cfg entropy request_id attached
                 named_tool_calls w).1).
Proof.
  intros Hn. revert w. induction Hn as [|named rest Hq _ IH]; intros w Hw; [done|].
  cbn [process_named_calls].
  pose proof (process_named_call_arguments request_id attached named w Hq Hw) as H1.
  destruct (process_named_call _ _ _ _ _ _) as [w' [e|]]; [done|].
  by apply IH.
Qed.

Lemma process_choice_arguments (request_id : string) (st st' : RequestState.t)
    (choice choice' : Choice.t) :
  Forall P (default [] (Choice.delta choice ≫= Delta.tool_calls)) ->
  process_choice cfg entropy request_id st choice = (st', Returned choice') ->
  Forall P (default [] (Choice.delta choice' ≫= Delta.tool_calls)).
Proof.
  intros Hin. unfold process_choice.
  destruct (Choice.delta choice) as [delta|] eqn:Hd; cbn [default from_option id].
  - cbn in Hin.
    pose proof (process_content_arguments st delta Hin) as Hcontent.
    destruct (process_content _ _ _ _) as [[st1 delta1] draws]. cbn in Hcontent.
    destruct (Delta.tool_calls delta1) as [tool_calls|] eqn:Ht.
    + cbn in Hcontent.
      pose proof (classify_tool_calls_named O tool_calls) as Hnamed.
      pose proof (classify_tool_calls_marked O tool_calls) as Hmarked.
      destruct (classify_tool_calls 0 tool_calls) as [[marked named] frags].
      cbn in Hnamed, Hmarked.
      assert (Hn : Forall (fun named => suppressed_or P named.2) named).
      { apply Forall_forall. intros [p tool] Hel. right. cbn.
        eapply Forall_forall; [exact Hcontent|]. by eapply Hnamed. }
      assert (Hm : Forall (suppressed_or P) marked).
      { apply Forall_forall. intros tool Hel.
        destruct (Hmarked tool Hel) as [?|Hel']; [by left|right].
        eapply Forall_forall; [exact Hcontent|done]. }
      assert (Hout : forall w attached,
        Forall (suppressed_or P) (w_tool_calls w) ->
        match process_named_calls cfg entropy request_id attached named w with
        | (w', None) =>
            Forall P (List.filter (fun tool => negb (ToolCall._suppress tool))
                        (w_tool_calls w'))
        | _ => True
        end).
      { intros w attached Hw.
        pose proof (process_named_calls_arguments request_id attached named w Hn Hw)
          as Hr.
        destruct (process_named_calls _ _ _ _ _ _) as [w' [e|]]; [done|].
        cbn in Hr. apply Forall_forall. intros x Hx.
        apply list_elem_of_In, filter_In in Hx as [Hx Hs].
        apply list_elem_of_In in Hx.
        destruct (proj1 (Forall_forall _ _) Hr x Hx) as [Hsup|HP]; [|done].
        rewrite Hsup in Hs. done. }
      destruct frags as [|frag frags];
        match goal with
        | |- context [process_named_calls _ _ ?r ?a ?n ?w] =>
            pose proof (Hout w a) as Ho;
            destruct (process_named_calls cfg entropy r a n w) as [w' [e|]]
        end; try discriminate;
        intros [= <- <-]; cbn;
        (destruct (List.filter _ (w_tool_calls w')) as [|t l] eqn:Hf;
          [constructor|]); cbn; apply Ho; try done.
      by apply process_fragments_arguments.
    + intros [= <- <-]. cbn. by rewrite Ht.
  - cbn. intros [= _ <-]. by rewrite Hd.
Qed.

End OutgoingArguments.

(** Every tool call of the first choice of an event that [process_sse_event]
    returns is one of the tool calls that came in with the event, as it
    came, or it carries arguments that [json.loads] accepts. *)
Theorem process_sse_event_arguments (cfg : config) (entropy : nat -> N)
    (request_states request_states' : gmap string RequestState.t)
    (event event' : Event.t) (request_id : string) (tool : ToolCall.t) :
  wf_config cfg ->
  process_sse_event cfg entropy request_states event request_id
  = (request_states', Returned event') ->
  tool ∈ default [] (first_choice_tool_calls event') ->
  tool ∈ default [] (first_choice_tool_calls event) \/ valid_arguments tool.
Proof.
  intros Hcfg. unfold process_sse_event, first_choice_tool_calls.
  destruct (request_states !! request_id) as [st|]; [|intros [= _ <-]; by left].
  destruct (Event.choices event) as [[|choice others]|] eqn:Hch;
    [intros [= _ <-]; rewrite Hch; by left| |intros [= _ <-]; rewrite Hch; by left].
  destruct (process_choice cfg entropy request_id st choice)
    as [st' [choice'|e]] eqn:Hp; [|done].
  intros [= _ <-]. cbn.
  pose proof (process_choice_arguments cfg Hcfg entropy
    (fun t => t ∈ default [] (Choice.delta choice ≫= Delta.tool_calls)
              \/ valid_arguments t)
    (fun t Hv => or_intror Hv) request_id st st' choice choice') as H.
  intros Hel.
  assert (Hin : Forall
    (fun t => t ∈ default [] (Choice.delta choice ≫= Delta.tool_calls)
              \/ valid_arguments t)
    (default [] (Choice.delta choice ≫= Delta.tool_calls))).
  { apply Forall_forall. intros x Hx. by left. }
  exact (proj1 (Forall_forall _ _) (H Hin Hp) tool Hel).
Qed.

Lemma process_sse_event_arguments_witness :
  let event :=
    example_event None
      (Some [example_tool (Some 0) None None (Some (Py.dq "{'command': 'ls'}"))])
      None in
  let tool :=
    ToolCall.synthesized "call_000000000000400080000000" "bash"
      (Py.dq "{'command': 'ls', 'description': 'Execute the given shell command'}") in
  wf_config _get_default_config
  /\ (tool ∈ default [] (first_choice_tool_calls event) \/ valid_arguments tool).
Proof.
  intros event tool. split; [exact wf_config_default|].
  eapply (process_sse_event_arguments _get_default_config example_entropy
            example_states _ event _ "req" tool wf_config_default).
  - vm_compute. reflexivity.
  - vm_compute. apply list_elem_of_here.
Defined.

(** ** Buffers at the end of the tool calls: what is kept *)

(** [process_all_buffers] never drops a buffer whose text [json.loads]
    accepts: the buffer is kept under its key with the arguments the fix
    engine gave, written as a text that [json.loads] reads back as these
    arguments, and with the tool name the engine returned; when the engine
    fails the buffer is kept as it was. *)
Theorem process_all_buffers_keeps_valid (cfg : config) (st : RequestState.t)
    (key : string) (b : ToolBuffer.t) (obj : json) :
  wf_config cfg ->
  RequestState.tool_buffers st !! key = Some b ->
  Json.loads (ToolBuffer.content b) = Some obj ->
  exists name text,
    RequestState.tool_buffers (process_all_buffers cfg st) !! key
    = Some (ToolBuffer.set_tool_name name (ToolBuffer.set_content text b))
    /\ match apply_fixes cfg (ToolBuffer.tool_name b) obj with
       | Some (final_tool_name, args_obj) =>
           name = final_tool_name /\ Json.loads text = Some args_obj
       | None => name = ToolBuffer.tool_name b /\ text = ToolBuffer.content b
       end.
Proof.
  intros Hcfg Hb Hl. rewrite process_all_buffers_lookup, Hb. cbn [mbind option_bind].
  unfold process_one_buffer.
  assert (Ht : Py.truthy (ToolBuffer.content b) = true).
  { destruct (ToolBuffer.content b); [discriminate Hl|done]. }
  rewrite Ht. cbn [negb].
  unfold process_complete_buffer. rewrite Hl.
  destruct (apply_fixes cfg (ToolBuffer.tool_name b) obj) as [[n args]|] eqn:Ha.
  - destruct (fixed_text_valid cfg _ _ _ _ _ Hcfg Hl Ha) as [Hv Hd].
    cbn [ToolCall.function ToolCall.set_function Func.set_arguments Func.arguments
         default from_option id].
    rewrite Hd. unfold validate_json_syntax. rewrite Hv. cbn [andb].
    exists n, (Json.dumps args). split; [|done].
    destruct (String.eqb_spec n (ToolBuffer.tool_name b)) as [->|Hne]; by cbn.
  - cbn [ToolCall.function Func.arguments Func.name default from_option id].
    rewrite Ht. unfold validate_json_syntax. rewrite Hl. cbn [andb].
    by exists (ToolBuffer.tool_name b), (ToolBuffer.content b).
Qed.

Lemma process_all_buffers_keeps_valid_witness :
  let b :=
    {| ToolBuffer.call_id := "call_1";
       ToolBuffer.content := Py.dq "{'command': 'ls'}";
       ToolBuffer.request_id := "req";
       ToolBuffer.tool_name := "Bash" |} in
  let st :=
    RequestState.set_tool_buffers {[ "call_1" := b ]} (RequestState.make "req") in
  let obj := JDict [("command", JStr "ls")] in
  wf_config _get_default_config
  /\ RequestState.tool_buffers st !! "call_1" = Some b
  /\ Json.loads (ToolBuffer.content b) = Some obj
  /\ exists name text,
       RequestState.tool_buffers (process_all_buffers _get_default_config st)
         !! "call_1"
       = Some (ToolBuffer.set_tool_name name (ToolBuffer.set_content text b))
       /\ match apply_fixes _get_default_config (ToolBuffer.tool_name b) obj with
          | Some (final_tool_name, args_obj) =>
              name = final_tool_name /\ Json.loads text = Some args_obj
          | None => name = ToolBuffer.tool_name b /\ text = ToolBuffer.content b
          end.
Proof.
  intros b st obj.
  split; [exact wf_config_default|].
  split; [vm_compute; reflexivity|]. split; [vm_compute; reflexivity|].
  apply (process_all_buffers_keeps_valid _get_default_config st "call_1" b obj).
  - exact wf_config_default.
  - vm_compute. reflexivity.
  - vm_compute. reflexivity.
Defined.




(** * Whole events, and the tags of the converter as texts *)

(** ** XML tool-call converter: the tags as texts *)

Lemma match_function_tag_here (s group : string) (len : nat) :
  match_function_tag s = Some (group, len) ->
  exists post, function_tag_here s group post.
Proof.
  unfold match_function_tag, function_tag_here. intros H.
  destruct (Json.strip_prefix "<function=" s) as [r|] eqn:Hp; [|done].
  apply strip_prefix_Some in Hp as ->.
  destruct (Re.until ">" r) as [[[|c run] rest]|] eqn:Hu; [done| |done].
  apply until_Some in Hu as (-> & Hcount & Hrest).
  apply startswith_char in Hrest as [post ->].
  injection H as <- _. by exists post.
Qed.

Lemma function_tag_here_match (s name post : string) :
  function_tag_here s name post ->
  exists len, match_function_tag s = Some (name, len).
Proof.
  intros (-> & Hne & Hcount). unfold match_function_tag.
  destruct name as [|c name]; [done|].
  rewrite (proj2 (strip_prefix_Some "<function=" _ (String c name +:+ ">" +:+ post)))
    by done.
  rewrite (proj2 (until_Some ">" _ (String c name) (">" +:+ post))) by done.
  eauto.
Qed.

Section Leftmost.
Context {A : Type} (match_here : string -> option (A * nat)).

Lemma search_leftmost (s : string) (groups : A) :
  Re.search match_here s = Some groups ->
  exists pre suf len,
    s = pre +:+ suf /\ match_here suf = Some (groups, len)
    /\ forall p s', s = p +:+ s' -> (String.length p < String.length pre)%nat ->
                    match_here s' = None.
Proof.
  induction s as [|c s IH]; cbn [Re.search].
  - destruct (match_here EmptyString) as [[g n]|] eqn:Hm; [|done].
    intros [= ->]. exists EmptyString, EmptyString, n.
    split; [done|]. split; [done|]. intros p s' _ Hlt. cbn in Hlt. lia.
  - destruct (match_here (String c s)) as [[g n]|] eqn:Hm.
    + intros [= ->]. exists EmptyString, (String c s), n.
      split; [done|]. split; [done|]. intros p s' _ Hlt. cbn in Hlt. lia.
    + intros H. destruct (IH H) as (pre & suf & len & -> & Hsuf & Hleft).
      exists (String c pre), suf, len. split; [done|]. split; [done|].
      intros p s' Heq Hlt. destruct p as [|a p].
      * rewrite append_empty_l in Heq. by subst s'.
      * rewrite !append_cons in Heq. injection Heq as _ Heq.
        apply (Hleft p s' Heq). cbn in Hlt. lia.
Qed.

Lemma findall_from_skip (a b : string) :
  Re.findall_from match_here (String.length a) (a +:+ b)
  = Re.findall_from match_here O b.
Proof.
  induction a as [|c a IH]; [done|].
  rewrite append_cons. cbn [String.length Re.findall_from]. apply IH.
Qed.

End Leftmost.

Lemma match_parameter_tag_here (s key trimmed : string) (len : nat) :
  match_parameter_tag s = Some ((key, trimmed), len) ->
  exists value post,
    parameter_tag_here s key value post
    /\ trimmed = Py.rstrip (Py.lstrip value)
    /\ len = String.length ("<parameter=" +:+ key +:+ ">" +:+ value +:+ "</parameter>").
Proof.
  unfold match_parameter_tag, parameter_tag_here. intros H.
  destruct (Json.strip_prefix "<parameter=" s) as [r|] eqn:Hp; [|done].
  apply strip_prefix_Some in Hp as ->.
  destruct (Re.until ">" r) as [[[|c k] [|a r1]]|] eqn:Hu; try done.
  apply until_Some in Hu as (-> & Hcount & Hrest).
  apply startswith_char in Hrest as [r1' [= -> ->]].
  destruct (Re.until "<" r1') as [[body r2]|] eqn:Hb; [|done].
  apply until_Some in Hb as (-> & Hbody & _).
  destruct (Py.startswith r2 "</parameter>") eqn:Hclose; [|done].
  apply startswith_strip_prefix in Hclose as [post ->].
  injection H as <- <- <-.
  exists body, post. split; [done|]. split; [done|].
  rewrite !length_append. cbn [String.length]. lia.
Qed.

Lemma parameter_tag_here_match (s key value post : string) :
  parameter_tag_here s key value post ->
  exists len, match_parameter_tag s
              = Some ((key, Py.rstrip (Py.lstrip value)), len).
Proof.
  intros (-> & Hne & Hcount & Hvalue). unfold match_parameter_tag.
  destruct key as [|c key]; [done|].
  rewrite (proj2 (strip_prefix_Some "<parameter=" _
    (String c key +:+ ">" +:+ value +:+ "</parameter>" +:+ post))) by done.
  rewrite (proj2 (until_Some ">" _ (String c key)
    (">" +:+ value +:+ "</parameter>" +:+ post))) by done.
  change (">" +:+ value +:+ "</parameter>" +:+ post)
    with (String ">" (value +:+ "</parameter>" +:+ post)).
  cbv beta iota.
  rewrite (proj2 (until_Some "<" _ value ("</parameter>" +:+ post))) by done.
  rewrite (proj2 (startswith_strip_prefix ("</parameter>" +:+ post) "</parameter>"))
    by eauto.
  eauto.
Qed.

(** What [re.findall] returns for the parameter pattern: the tags of
    [parameter_tags], each value without the white space around it *)
Lemma findall_parameter_tags (s : string) :
  exists params,
    parameter_tags s params
    /\ Re.findall match_parameter_tag s
       = List.map (fun kv => (kv.1, Py.rstrip (Py.lstrip kv.2))) params.
Proof.
  remember (String.length s) as n eqn:Hn. revert s Hn.
  induction n as [n IH] using lt_wf_ind. intros s Hn.
  destruct s as [|c s']; [exists []; split; [constructor|done]|].
  unfold Re.findall. cbn [Re.findall_from].
  destruct (match_parameter_tag (String c s')) as [[[key trimmed] len]|] eqn:Hm.
  - destruct (match_parameter_tag_here _ _ _ _ Hm)
      as (value & post & Htag & -> & ->).
    pose proof Htag as (Hs & _).
    destruct (IH (String.length post)) with (s := post) as (params & Hp & Hf);
      [|done|].
    { subst n. rewrite Hs, !length_append. cbn [String.length]. lia. }
    exists ((key, value) :: params). split; [by econstructor|].
    cbn [List.map fst snd]. f_equal.
    change ("<parameter=" +:+ key +:+ ">" +:+ value +:+ "</parameter>" +:+ post)
      with (String "<" ("parameter=" +:+ key +:+ ">" +:+ value
                        +:+ "</parameter>" +:+ post)) in Hs.
    injection Hs as _ ->.
    change (Nat.pred (String.length
              ("<parameter=" +:+ key +:+ ">" +:+ value +:+ "</parameter>")))
      with (String.length ("parameter=" +:+ key +:+ ">" +:+ value +:+ "</parameter>")).
    replace ("parameter=" +:+ key +:+ ">" +:+ value +:+ "</parameter>" +:+ post)
      with (("parameter=" +:+ key +:+ ">" +:+ value +:+ "</parameter>") +:+ post)
      by (by rewrite !append_assoc).
    rewrite findall_from_skip. exact Hf.
  - destruct (IH (String.length s')) with (s := s') as (params & Hp & Hf);
      [subst n; cbn; lia|done|].
    exists params. split; [|exact Hf].
    constructor; [|done].
    intros key value post Htag.
    destruct (parameter_tag_here_match _ _ _ _ Htag) as [len Hm'].
    congruence.
Qed.

Lemma strip_trimmed (v : string) : Py.strip (Py.rstrip (Py.lstrip v)) = Py.strip v.
Proof.
  unfold Py.strip.
  by rewrite rstrip_idempotent, lstrip_rstrip_commute, lstrip_idempotent.
Qed.

Lemma last_parameter_trimmed (params : list (string * string)) (key : string) :
  last_parameter
    (List.map (fun kv => (kv.1, Py.rstrip (Py.lstrip kv.2))) params) key
  = last_parameter params key.
Proof.
  unfold last_parameter.
  induction params as [|[k v] params IH]; [done|].
  cbn [List.map List.filter fst snd].
  destruct (String.eqb (Py.strip k) key); [|exact IH].
  rewrite !last_cons.
  destruct (last (List.filter _ (List.map _ params))) as [m1|] eqn:H1;
    destruct (last (List.filter _ params)) as [m2|] eqn:H2;
    cbn in IH |- *; try done.
  fold (Py.strip (Py.rstrip (Py.lstrip v))). fold (Py.strip v).
  by rewrite strip_trimmed.
Qed.

Lemma parameter_tags_has_tag (s : string) (params : list (string * string)) :
  parameter_tags s params -> params <> [] -> has_parameter_tag s.
Proof.
  induction 1 as [|s key value post params Htag _ _|c s params _ _ IH];
    intros Hne; [done| |].
  - destruct Htag as (-> & ? & ? & ?). by exists EmptyString, key, value, post.
  - destruct (IH Hne) as (pre & key & value & post & -> & ? & ? & ?).
    by exists (String c pre), key, value, post.
Qed.

Lemma append_cancel_l (p a b : string) : p +:+ a = p +:+ b -> a = b.
Proof.
  induction p as [|c p IH]; [done|].
  rewrite !append_cons. intros [= H]. by apply IH.
Qed.

Lemma parameter_tag_here_unique (s key value post key' value' post' : string) :
  parameter_tag_here s key value post ->
  parameter_tag_here s key' value' post' ->
  key = key' /\ value = value' /\ post = post'.
Proof.
  intros (-> & _ & Hk & Hv) (Heq & _ & Hk' & Hv').
  apply append_cancel_l in Heq.
  assert (H1 : Re.until ">" (key +:+ ">" +:+ value +:+ "</parameter>" +:+ post)
               = Some (key, ">" +:+ value +:+ "</parameter>" +:+ post)).
  { by apply until_Some. }
  assert (H2 : Re.until ">" (key' +:+ ">" +:+ value' +:+ "</parameter>" +:+ post')
               = Some (key', ">" +:+ value' +:+ "</parameter>" +:+ post')).
  { by apply until_Some. }
  rewrite Heq, H2 in H1. injection H1 as -> Hrest.
  split; [done|]. rewrite !append_empty_l in Hrest.
  assert (H3 : Re.until "<" (value +:+ "</parameter>" +:+ post)
               = Some (value, "</parameter>" +:+ post)).
  { by apply until_Some. }
  assert (H4 : Re.until "<" (value' +:+ "</parameter>" +:+ post')
               = Some (value', "</parameter>" +:+ post')).
  { by apply until_Some. }
  rewrite Hrest, H3 in H4. injection H4 as -> Hpost.
  split; [done|]. by apply append_cancel_l in Hpost.
Qed.

(** The parameter tags of a text are determined by the text. *)
Lemma parameter_tags_unique (s : string) (params params' : list (string * string)) :
  parameter_tags s params -> parameter_tags s params' -> params = params'.
Proof.
  intros H. revert params'.
  induction H as [|s key value post params Htag _ IH|c s params Hno _ IH];
    intros params' H'.
  - inversion H' as [|? ? ? ? ? Htag' ?|]; subst; [done|].
    by destruct Htag' as [? _].
  - inversion H' as [|? key' value' post' ps Htag' Hps|c' s' ps Hno' Hps]; subst.
    + by destruct Htag as [? _].
    + destruct (parameter_tag_here_unique _ _ _ _ _ _ _ Htag Htag')
        as (-> & -> & ->).
      f_equal. by apply IH.
    + by destruct (Hno' key value post).
  - inversion H' as [|? key' value' post' ps Htag' Hps|c' s' ps Hno' Hps]; subst.
    + by destruct (Hno key' value' post').
    + by apply IH.
Qed.

(** C7. The converter returns no call when the content holds no function
    tag or no parameter tag. A call it returns carries the name written in
    the leftmost function tag of the content, trimmed, and an argument map
    that is not empty: with the parameter tags of the content taken from
    left to right, the map gives for every key the value written in the last
    tag whose trimmed name is the key, trimmed, and nothing for any other
    key. *)
Theorem detect_and_convert_xml_tool_call_tags (content : string) :
  match detect_and_convert_xml_tool_call content with
  | None => ~ has_function_tag content \/ ~ has_parameter_tag content
  | Some (function_name, arguments) =>
      exists pre tag name post params,
        content = pre +:+ tag
        /\ function_tag_here tag name post
        /\ (forall p s n po,
              content = p +:+ s -> (String.length p < String.length pre)%nat ->
              ~ function_tag_here s n po)
        /\ function_name = Py.strip name
        /\ parameter_tags content params
        /\ params <> []
        /\ has_parameter_tag content
        /\ arguments <> []
        /\ (forall key, Dict.get arguments key = last_parameter params key)
        /\ (forall key value,
              Dict.get arguments key = Some value ->
              exists text, value = JStr text /\ Py.strip text = text)
  end.
Proof.
  pose proof (detect_and_convert_xml_tool_call_spec content) as Hspec.
  unfold detect_and_convert_xml_tool_call in *.
  destruct (Re.search match_function_tag content) as [group|] eqn:Hs; [|done].
  destruct (findall_parameter_tags content) as (params & Htags & Hfind).
  destruct (Re.findall match_parameter_tag content) as [|m ms] eqn:Hp; [done|].
  destruct Hspec as (_ & Hhas & Hne & _ & Hget & Htrim).
  destruct (search_leftmost _ _ _ Hs) as (pre & suf & len & Hcontent & Hm & Hleft).
  destruct (match_function_tag_here _ _ _ Hm) as [post Htag].
  exists pre, suf, group, post, params.
  split; [done|]. split; [done|]. split.
  { intros p s n po Heq Hlt Hn.
    destruct (function_tag_here_match _ _ _ Hn) as [len' Hm'].
    by rewrite (Hleft p s Heq Hlt) in Hm'. }
  split; [done|]. split; [done|]. split.
  { intros ->. discriminate Hfind. }
  split; [done|]. split; [done|]. split; [|done].
  intros key. by rewrite Hget, Hfind, last_parameter_trimmed.
Qed.

(** ** Stream event processor: an event of anonymous fragments *)

Section FragmentEvent.
Context (cfg : config) (entropy : nat -> N).


End FragmentEvent.


(** ** Stream event processor: an event with a named continuation *)


Section ContinuationEvent.
Context (cfg : config) (entropy : nat -> N).


End ContinuationEvent.

